(** * The animated face of the robot dashboard: [robot/face_display.py]

    A shallow embedding of class [FaceDisplay] and of the animation tick it
    re-arms through Tkinter's [after].

    Modelling choices.
    - Python [float] values are real numbers: arithmetic is exact; rounding,
      infinities and NaN are not modelled.  Python [int] values are
      integers of [Z]; an int meets a float only in [to_float].
    - [self] is a record with one field per attribute; a method is a
      computation in the monad [Py], which threads [self] and may raise.
      As in Python, the mutations made before an exception stay.
    - [time.time()] and [random.random()] are inputs of the methods that
      call them.  [random.uniform a b] is [a + (b - a) * random()], as in
      CPython's [random] module.
    - The Tk canvas keeps the coordinates of the six items the class draws;
      the Tk parent keeps the delays of the pending [after] callbacks, all
      of which are [self._loop]. *)

From Stdlib Require Import Reals Lra Lia ZArith List String Bool.
Import ListNotations.
Open Scope R_scope.

(** ** Python values and exceptions *)

(** What the pan/tilt object may hold in an attribute: [None], a float, a
    string (which stands for every value that is not a number), or an
    int. *)
Inductive pyval : Type :=
| PyNone
| PyNum (x : R)
| PyStr (s : string)
| PyInt (z : Z).

(** What reading an attribute of the pan/tilt object does: [Absent] is an
    [AttributeError] (the attribute does not exist), [Raises] is a property
    whose getter raises another exception, [Holds v] yields [v]. *)
Inductive attr : Type :=
| Absent
| Raises
| Holds (v : pyval).

Record PanTilt : Type := { angle_pan : attr; angle_tilt : attr }.

Inductive exn : Type :=
| TypeError
| AttributeError
| SourceError
| OverflowError.

Inductive outcome (A : Type) : Type :=
| Return (a : A)
| Raise (e : exn).
Arguments Return {A} a.
Arguments Raise {A} e.

(** ** The canvas and the scheduler *)

Definition coords : Type := (R * R * R * R)%type.

(** The canvas items made by [_create_graphics]; the attribute of [self]
    that holds the item's handle gives the item its name. *)
Inductive item : Type :=
| left_white
| right_white
| left_pupil
| right_pupil
| left_lid
| right_lid.

Definition item_eq_dec (a b : item) : {a = b} + {a <> b}.
Proof. decide equality. Defined.

(** A canvas gives every item its coordinates [(x0, y0, x1, y1)]. *)
Definition Canvas : Type := item -> coords.

(** [canvas.coords(it, x0, y0, x1, y1)]: reposition one item. *)
Definition canvas_coords (it : item) (c : coords) (cv : Canvas) : Canvas :=
  fun j => if item_eq_dec j it then c else cv j.

(** The pending [parent.after(ms, self._loop)] calls, oldest first. *)
Definition Tk : Type := list Z.

Definition after (ms : Z) (tk : Tk) : Tk := tk ++ [ms].

(** ** The object *)

Record FaceDisplay : Type := {
  parent : Tk;
  width : Z;
  height : Z;
  pan_tilt : option PanTilt;
  canvas : Canvas;
  eye_radius : R;
  pupil_radius : Z;
  left_center : Z * Z;
  right_center : Z * Z;
  pan_min : R;
  pan_max : R;
  tilt_min : R;
  tilt_max : R;
  pupil_travel : R;
  running : bool;
  blinking : bool;
  last_blink : R;
  next_blink_in : R;
  idle_phase : R;
  last_pan : option R;
  last_tilt : option R;
  smooth_pan : R;
  smooth_tilt : R;
  smooth_factor : R;
  interval_ms : Z;
  (** [blink_start] is not set by [__init__]: [None] is "no such attribute". *)
  blink_start : option R
}.

(** Attribute assignment [self.x = v], one function per attribute that is
    assigned after [__init__] ([pan_tilt] by the owner of the display). *)

Definition set_parent (v : Tk) (s : FaceDisplay) : FaceDisplay :=
  {| parent := v; width := width s; height := height s; pan_tilt := pan_tilt s;
     canvas := canvas s; eye_radius := eye_radius s; pupil_radius := pupil_radius s;
     left_center := left_center s; right_center := right_center s;
     pan_min := pan_min s; pan_max := pan_max s; tilt_min := tilt_min s;
     tilt_max := tilt_max s; pupil_travel := pupil_travel s; running := running s;
     blinking := blinking s; last_blink := last_blink s;
     next_blink_in := next_blink_in s; idle_phase := idle_phase s;
     last_pan := last_pan s; last_tilt := last_tilt s; smooth_pan := smooth_pan s;
     smooth_tilt := smooth_tilt s; smooth_factor := smooth_factor s;
     interval_ms := interval_ms s; blink_start := blink_start s |}.

Definition set_pan_tilt (v : option PanTilt) (s : FaceDisplay) : FaceDisplay :=
  {| parent := parent s; width := width s; height := height s; pan_tilt := v;
     canvas := canvas s; eye_radius := eye_radius s; pupil_radius := pupil_radius s;
     left_center := left_center s; right_center := right_center s;
     pan_min := pan_min s; pan_max := pan_max s; tilt_min := tilt_min s;
     tilt_max := tilt_max s; pupil_travel := pupil_travel s; running := running s;
     blinking := blinking s; last_blink := last_blink s;
     next_blink_in := next_blink_in s; idle_phase := idle_phase s;
     last_pan := last_pan s; last_tilt := last_tilt s; smooth_pan := smooth_pan s;
     smooth_tilt := smooth_tilt s; smooth_factor := smooth_factor s;
     interval_ms := interval_ms s; blink_start := blink_start s |}.

Definition set_canvas (v : Canvas) (s : FaceDisplay) : FaceDisplay :=
  {| parent := parent s; width := width s; height := height s; pan_tilt := pan_tilt s;
     canvas := v; eye_radius := eye_radius s; pupil_radius := pupil_radius s;
     left_center := left_center s; right_center := right_center s;
     pan_min := pan_min s; pan_max := pan_max s; tilt_min := tilt_min s;
     tilt_max := tilt_max s; pupil_travel := pupil_travel s; running := running s;
     blinking := blinking s; last_blink := last_blink s;
     next_blink_in := next_blink_in s; idle_phase := idle_phase s;
     last_pan := last_pan s; last_tilt := last_tilt s; smooth_pan := smooth_pan s;
     smooth_tilt := smooth_tilt s; smooth_factor := smooth_factor s;
     interval_ms := interval_ms s; blink_start := blink_start s |}.

Definition set_running (v : bool) (s : FaceDisplay) : FaceDisplay :=
  {| parent := parent s; width := width s; height := height s; pan_tilt := pan_tilt s;
     canvas := canvas s; eye_radius := eye_radius s; pupil_radius := pupil_radius s;
     left_center := left_center s; right_center := right_center s;
     pan_min := pan_min s; pan_max := pan_max s; tilt_min := tilt_min s;
     tilt_max := tilt_max s; pupil_travel := pupil_travel s; running := v;
     blinking := blinking s; last_blink := last_blink s;
     next_blink_in := next_blink_in s; idle_phase := idle_phase s;
     last_pan := last_pan s; last_tilt := last_tilt s; smooth_pan := smooth_pan s;
     smooth_tilt := smooth_tilt s; smooth_factor := smooth_factor s;
     interval_ms := interval_ms s; blink_start := blink_start s |}.

Definition set_blinking (v : bool) (s : FaceDisplay) : FaceDisplay :=
  {| parent := parent s; width := width s; height := height s; pan_tilt := pan_tilt s;
     canvas := canvas s; eye_radius := eye_radius s; pupil_radius := pupil_radius s;
     left_center := left_center s; right_center := right_center s;
     pan_min := pan_min s; pan_max := pan_max s; tilt_min := tilt_min s;
     tilt_max := tilt_max s; pupil_travel := pupil_travel s; running := running s;
     blinking := v; last_blink := last_blink s; next_blink_in := next_blink_in s;
     idle_phase := idle_phase s; last_pan := last_pan s; last_tilt := last_tilt s;
     smooth_pan := smooth_pan s; smooth_tilt := smooth_tilt s;
     smooth_factor := smooth_factor s; interval_ms := interval_ms s;
     blink_start := blink_start s |}.

Definition set_last_blink (v : R) (s : FaceDisplay) : FaceDisplay :=
  {| parent := parent s; width := width s; height := height s; pan_tilt := pan_tilt s;
     canvas := canvas s; eye_radius := eye_radius s; pupil_radius := pupil_radius s;
     left_center := left_center s; right_center := right_center s;
     pan_min := pan_min s; pan_max := pan_max s; tilt_min := tilt_min s;
     tilt_max := tilt_max s; pupil_travel := pupil_travel s; running := running s;
     blinking := blinking s; last_blink := v; next_blink_in := next_blink_in s;
     idle_phase := idle_phase s; last_pan := last_pan s; last_tilt := last_tilt s;
     smooth_pan := smooth_pan s; smooth_tilt := smooth_tilt s;
     smooth_factor := smooth_factor s; interval_ms := interval_ms s;
     blink_start := blink_start s |}.

Definition set_next_blink_in (v : R) (s : FaceDisplay) : FaceDisplay :=
  {| parent := parent s; width := width s; height := height s; pan_tilt := pan_tilt s;
     canvas := canvas s; eye_radius := eye_radius s; pupil_radius := pupil_radius s;
     left_center := left_center s; right_center := right_center s;
     pan_min := pan_min s; pan_max := pan_max s; tilt_min := tilt_min s;
     tilt_max := tilt_max s; pupil_travel := pupil_travel s; running := running s;
     blinking := blinking s; last_blink := last_blink s; next_blink_in := v;
     idle_phase := idle_phase s; last_pan := last_pan s; last_tilt := last_tilt s;
     smooth_pan := smooth_pan s; smooth_tilt := smooth_tilt s;
     smooth_factor := smooth_factor s; interval_ms := interval_ms s;
     blink_start := blink_start s |}.

Definition set_smooth_pan (v : R) (s : FaceDisplay) : FaceDisplay :=
  {| parent := parent s; width := width s; height := height s; pan_tilt := pan_tilt s;
     canvas := canvas s; eye_radius := eye_radius s; pupil_radius := pupil_radius s;
     left_center := left_center s; right_center := right_center s;
     pan_min := pan_min s; pan_max := pan_max s; tilt_min := tilt_min s;
     tilt_max := tilt_max s; pupil_travel := pupil_travel s; running := running s;
     blinking := blinking s; last_blink := last_blink s;
     next_blink_in := next_blink_in s; idle_phase := idle_phase s;
     last_pan := last_pan s; last_tilt := last_tilt s; smooth_pan := v;
     smooth_tilt := smooth_tilt s; smooth_factor := smooth_factor s;
     interval_ms := interval_ms s; blink_start := blink_start s |}.

Definition set_smooth_tilt (v : R) (s : FaceDisplay) : FaceDisplay :=
  {| parent := parent s; width := width s; height := height s; pan_tilt := pan_tilt s;
     canvas := canvas s; eye_radius := eye_radius s; pupil_radius := pupil_radius s;
     left_center := left_center s; right_center := right_center s;
     pan_min := pan_min s; pan_max := pan_max s; tilt_min := tilt_min s;
     tilt_max := tilt_max s; pupil_travel := pupil_travel s; running := running s;
     blinking := blinking s; last_blink := last_blink s;
     next_blink_in := next_blink_in s; idle_phase := idle_phase s;
     last_pan := last_pan s; last_tilt := last_tilt s; smooth_pan := smooth_pan s;
     smooth_tilt := v; smooth_factor := smooth_factor s; interval_ms := interval_ms s;
     blink_start := blink_start s |}.

Definition set_interval_ms (v : Z) (s : FaceDisplay) : FaceDisplay :=
  {| parent := parent s; width := width s; height := height s; pan_tilt := pan_tilt s;
     canvas := canvas s; eye_radius := eye_radius s; pupil_radius := pupil_radius s;
     left_center := left_center s; right_center := right_center s;
     pan_min := pan_min s; pan_max := pan_max s; tilt_min := tilt_min s;
     tilt_max := tilt_max s; pupil_travel := pupil_travel s; running := running s;
     blinking := blinking s; last_blink := last_blink s;
     next_blink_in := next_blink_in s; idle_phase := idle_phase s;
     last_pan := last_pan s; last_tilt := last_tilt s; smooth_pan := smooth_pan s;
     smooth_tilt := smooth_tilt s; smooth_factor := smooth_factor s; interval_ms := v;
     blink_start := blink_start s |}.

Definition set_blink_start (v : option R) (s : FaceDisplay) : FaceDisplay :=
  {| parent := parent s; width := width s; height := height s; pan_tilt := pan_tilt s;
     canvas := canvas s; eye_radius := eye_radius s; pupil_radius := pupil_radius s;
     left_center := left_center s; right_center := right_center s;
     pan_min := pan_min s; pan_max := pan_max s; tilt_min := tilt_min s;
     tilt_max := tilt_max s; pupil_travel := pupil_travel s; running := running s;
     blinking := blinking s; last_blink := last_blink s;
     next_blink_in := next_blink_in s; idle_phase := idle_phase s;
     last_pan := last_pan s; last_tilt := last_tilt s; smooth_pan := smooth_pan s;
     smooth_tilt := smooth_tilt s; smooth_factor := smooth_factor s;
     interval_ms := interval_ms s; blink_start := v |}.

(** ** Methods as computations over [self] *)

Definition Py (A : Type) : Type := FaceDisplay -> outcome A * FaceDisplay.

Definition ret {A : Type} (a : A) : Py A := fun s => (Return a, s).

Definition bind {A B : Type} (c : Py A) (k : A -> Py B) : Py B :=
  fun s =>
    match c s with
    | (Return a, s') => k a s'
    | (Raise e, s') => (Raise e, s')
    end.

Definition raise {A : Type} (e : exn) : Py A := fun s => (Raise e, s).

Definition get_self : Py FaceDisplay := fun s => (Return s, s).

Definition assign (f : FaceDisplay -> FaceDisplay) : Py unit :=
  fun s => (Return tt, f s).

Definition lift {A : Type} (o : outcome A) : Py A := fun s => (o, s).

Definition exec {A : Type} (c : Py A) (s : FaceDisplay) : FaceDisplay := snd (c s).

Definition result {A : Type} (c : Py A) (s : FaceDisplay) : outcome A := fst (c s).

Declare Scope py_scope.
Delimit Scope py_scope with py.
Notation "x <- c ;; k" := (bind c (fun x => k))
  (at level 61, c at next level, right associativity) : py_scope.
Notation "c ;; k" := (bind c (fun _ => k))
  (at level 61, right associativity) : py_scope.
Open Scope py_scope.

(** ** Python primitives *)

(** [int(x)] on a float: truncation toward zero. *)
Definition py_int (x : R) : Z :=
  if Rle_dec 0 x then Int_part x else (- Int_part (- x))%Z.

(** The largest float is [2^1024 - 2^971]; the ints that round to a float
    are those below [2^1024 - 2^970] in absolute value. *)
Definition float_limit : Z := 2 ^ 1024 - 2 ^ 970.

(** The float operand that [v - x] makes of [v] for a float [x]: a float
    is itself, an int is converted and raises [OverflowError] when it is
    too large, anything else is a [TypeError]. *)
Definition to_float (v : pyval) : outcome R :=
  match v with
  | PyNum a => Return a
  | PyInt z => if (Z.abs z <? float_limit)%Z then Return (IZR z) else Raise OverflowError
  | PyNone | PyStr _ => Raise TypeError
  end.

(** [v - x] for a float [x]. *)
Definition py_sub (v : pyval) (x : R) : outcome R :=
  match to_float v with
  | Return a => Return (a - x)
  | Raise e => Raise e
  end.

(** [getattr(obj, name, None)]: only an [AttributeError] yields the default. *)
Definition getattr (a : attr) : outcome pyval :=
  match a with
  | Absent => Return PyNone
  | Raises => Raise SourceError
  | Holds v => Return v
  end.

(** [random.uniform(a, b)], from the value [u] of [random.random()]. *)
Definition uniform (a b u : R) : R := a + (b - a) * u.

Definition gtb (x y : R) : bool := if Rgt_dec x y then true else false.
Definition ltb (x y : R) : bool := if Rlt_dec x y then true else false.

Definition is_not_none (v : pyval) : bool :=
  match v with PyNone => false | _ => true end.

(** [if c: body] with no [else]. *)
Definition when (c : bool) (body : Py unit) : Py unit :=
  if c then body else ret tt.

(** [for x in l: body]. *)
Fixpoint for_each {A : Type} (l : list A) (body : A -> Py unit) : Py unit :=
  match l with
  | [] => ret tt
  | x :: l' => body x ;; for_each l' body
  end.

(** ** [FaceDisplay._create_graphics] *)

Definition _create_graphics (lc rc : Z * Z) (er : R) (pr : Z) : Canvas :=
  let '(lwx, lwy) := lc in
  let '(rwx, rwy) := rc in
  fun it =>
    match it with
    | left_white => (IZR lwx - er, IZR lwy - er, IZR lwx + er, IZR lwy + er)
    | right_white => (IZR rwx - er, IZR rwy - er, IZR rwx + er, IZR rwy + er)
    | left_pupil => (IZR (lwx - pr), IZR (lwy - pr), IZR (lwx + pr), IZR (lwy + pr))
    | right_pupil => (IZR (rwx - pr), IZR (rwy - pr), IZR (rwx + pr), IZR (rwy + pr))
    | left_lid => (0, 0, 0, 0)
    | right_lid => (0, 0, 0, 0)
    end.

(** ** [FaceDisplay.__init__]

    [now] is the value of [time.time()], [u] the one of [random.random()]. *)
Definition __init__ (parent : Tk) (width height : Z) (pan_tilt : option PanTilt)
    (now u : R) : FaceDisplay :=
  let eye_radius := IZR (Z.min width height) * 0.18 in
  let pupil_radius := Z.max 6 (py_int (eye_radius * 0.36)) in
  let gap := py_int (eye_radius * 1.2) in
  let cx := (width / 2)%Z in
  let cy := py_int (IZR height * 0.44) in
  let left_center := ((cx - gap / 2)%Z, cy) in
  let right_center := ((cx + gap / 2)%Z, cy) in
  {| parent := parent;
     width := width;
     height := height;
     pan_tilt := pan_tilt;
     canvas := _create_graphics left_center right_center eye_radius pupil_radius;
     eye_radius := eye_radius;
     pupil_radius := pupil_radius;
     left_center := left_center;
     right_center := right_center;
     pan_min := 0.0;
     pan_max := 180.0;
     tilt_min := 30.0;
     tilt_max := 150.0;
     pupil_travel := eye_radius - IZR pupil_radius - 6;
     running := false;
     blinking := false;
     last_blink := now;
     next_blink_in := uniform 3.0 10.0 u;
     idle_phase := 0.0;
     last_pan := None;
     last_tilt := None;
     smooth_pan := 90.0;
     smooth_tilt := 90.0;
     smooth_factor := 0.18;
     interval_ms := 60;
     blink_start := None |}.

(** ** [FaceDisplay.angle_to_offset] *)

Definition angle_to_offset (self : FaceDisplay) (pan tilt : R) : R * R :=
  let pn := (pan - pan_min self) / (pan_max self - pan_min self) in
  let tn := (tilt - tilt_min self) / (tilt_max self - tilt_min self) in
  let px := (pn - 0.5) * 2.0 in
  let py := (tn - 0.5) * 2.0 in
  let py := - py in
  let px := Rmax (-1.0) (Rmin 1.0 px) in
  let py := Rmax (-1.0) (Rmin 1.0 py) in
  (px * pupil_travel self, py * (pupil_travel self * 0.6)).

(** ** [FaceDisplay._apply_offsets] *)

Definition _apply_offsets (dx dy : R) : Py unit :=
  self <- get_self ;;
  let '(lx, ly) := left_center self in
  let '(rx, ry) := right_center self in
  let pr := IZR (pupil_radius self) in
  assign (fun s => set_canvas (canvas_coords left_pupil
    (IZR lx + dx - pr, IZR ly + dy - pr, IZR lx + dx + pr, IZR ly + dy + pr)
    (canvas s)) s) ;;
  assign (fun s => set_canvas (canvas_coords right_pupil
    (IZR rx + dx - pr, IZR ry + dy - pr, IZR rx + dx + pr, IZR ry + dy + pr)
    (canvas s)) s).

(** ** [FaceDisplay._draw_blink]

    [progress] is 0 for an open eye and 1 for a closed one; the lid is a
    rectangle that grows downwards from the top of the eye. *)
Definition _draw_blink (progress : R) : Py unit :=
  self <- get_self ;;
  for_each [(left_center self, left_lid); (right_center self, right_lid)]
    (fun '((cx, cy), lid) =>
       self <- get_self ;;
       let er := eye_radius self in
       let lid_h := py_int (er * 2 * progress) in
       let x0 := IZR cx - er in
       let y0 := IZR cy - er in
       let x1 := IZR cx + er in
       let y1 := IZR cy - er + IZR lid_h in
       assign (fun s => set_canvas (canvas_coords lid (x0, y0, x1, y1) (canvas s)) s)).

(** ** [FaceDisplay._clear_blink] *)

Definition _clear_blink : Py unit :=
  assign (fun s => set_canvas (canvas_coords left_lid (0, 0, 0, 0) (canvas s)) s) ;;
  assign (fun s => set_canvas (canvas_coords right_lid (0, 0, 0, 0) (canvas s)) s).

(** ** [FaceDisplay._idle_offsets] *)

Definition _idle_offsets (t : R) : R * R :=
  let jitter_x := sin (t * 0.8) * 2.0 + sin (t * 1.3) * 1.0 in
  let jitter_y := cos (t * 1.1) * 1.2 in
  (jitter_x, jitter_y * 0.6).

(** ** [FaceDisplay.update_from_angles]

    [pan] and [tilt] are whatever the caller read from the pan/tilt object;
    the subtraction raises on a value that is not a number, and on an int
    too large for a float. *)
Definition update_from_angles (pan tilt : pyval) : Py unit :=
  self <- get_self ;;
  d <- lift (py_sub pan (smooth_pan self)) ;;
  assign (set_smooth_pan (smooth_pan self + d * smooth_factor self)) ;;
  self <- get_self ;;
  d <- lift (py_sub tilt (smooth_tilt self)) ;;
  assign (set_smooth_tilt (smooth_tilt self + d * smooth_factor self)) ;;
  self <- get_self ;;
  let '(dx, dy) := angle_to_offset self (smooth_pan self) (smooth_tilt self) in
  _apply_offsets dx dy.

(** Reading [self.blink_start]: an [AttributeError] before its first
    assignment. *)
Definition read_blink_start : Py R :=
  self <- get_self ;;
  match blink_start self with
  | Some t => ret t
  | None => raise AttributeError
  end.

(** ** [FaceDisplay._loop]: one tick

    [now] is the value of [time.time()]; [u] is the value [random.random()]
    gives if the tick redraws the blink interval. *)
Definition _loop (now u : R) : Py unit :=
  self <- get_self ;;
  if negb (running self) then ret tt else
  (* check blinking *)
  when (gtb (now - last_blink self) (next_blink_in self) && negb (blinking self))
    (assign (set_blinking true) ;;
     assign (set_blink_start (Some now))) ;;
  self <- get_self ;;
  when (blinking self)
    (blink_start <- read_blink_start ;;
     let elapsed := now - blink_start in
     if ltb elapsed 0.08 then
       let prog := Rmin 1.0 (elapsed / 0.08) in
       _draw_blink prog
     else if ltb elapsed 0.18 then
       _draw_blink 1.0
     else if ltb elapsed 0.26 then
       let prog := Rmax 0.0 (1.0 - (elapsed - 0.18) / 0.08) in
       _draw_blink prog
     else
       assign (set_blinking false) ;;
       _clear_blink ;;
       assign (set_last_blink now) ;;
       assign (set_next_blink_in (uniform 3.0 12.0 u))) ;;
  (* read pan_tilt angles if available *)
  self <- get_self ;;
  angles <- match pan_tilt self with
            | Some o =>
                pan <- lift (getattr (angle_pan o)) ;;
                tilt <- lift (getattr (angle_tilt o)) ;;
                ret (pan, tilt)
            | None => ret (PyNone, PyNone)
            end ;;
  let '(pan, tilt) := angles in
  (if is_not_none pan && is_not_none tilt then
     update_from_angles pan tilt
   else
     (* idle motion *)
     self <- get_self ;;
     let t := now in
     let '(jitter_x, jitter_y) := _idle_offsets (t + idle_phase self) in
     let dx := jitter_x in
     let dy := jitter_y in
     _apply_offsets dx dy) ;;
  (* schedule next tick *)
  self <- get_self ;;
  assign (set_parent (after (interval_ms self) (parent self))).

(** ** [FaceDisplay.start] and [FaceDisplay.stop] *)

Definition start (interval_ms : Z) : Py unit :=
  self <- get_self ;;
  if running self then ret tt else
  assign (set_interval_ms interval_ms) ;;
  assign (set_running true) ;;
  self <- get_self ;;
  assign (set_parent (after 0 (parent self))).

Definition stop : Py unit :=
  assign (set_running false).

(** ** The Tk event loop

    Tk runs a pending [after] callback once and forgets it.  [fire] takes
    the oldest pending callback, which is [self._loop], and runs it. *)
Definition fire (now u : R) : Py unit :=
  self <- get_self ;;
  match parent self with
  | [] => ret tt
  | _ :: rest => assign (set_parent rest) ;; _loop now u
  end.

(** The event loop firing pending callbacks one after the other. *)
Definition fire_all (ticks : list (R * R)) (s : FaceDisplay) : FaceDisplay :=
  fold_left (fun s '(now, u) => exec (fire now u) s) ticks s.

(** The display the dashboard builds: [FaceDisplay(frame, width=640,
    height=320, pan_tilt=...)]. *)
Definition dashboard_face (pt : option PanTilt) (now u : R) : FaceDisplay :=
  __init__ [] 640 320 pt now u.

(** ** Invariants of a display *)

(** The mapping ranges and the smoothing factor are set once, by
    [__init__], and no method assigns them. *)
Definition configured (s : FaceDisplay) : Prop :=
  pan_min s = 0 /\ pan_max s = 180 /\ tilt_min s = 30 /\ tilt_max s = 150 /\
  smooth_factor s = 0.18.

(** A blink in progress has a start time. *)
Definition blink_ready (s : FaceDisplay) : Prop :=
  blinking s = true -> blink_start s <> None.

(** ** The reference mapping from angles to pupil offsets *)

(** Saturation of [x] into [-1, 1]. *)
Definition clamp_unit (x : R) : R :=
  if Rlt_dec x (-1) then -1 else if Rlt_dec 1 x then 1 else x.

(** An angle of [lo, hi] as a fraction of the range, then centred. *)
Definition normalize (lo hi x : R) : R := (x - lo) / (hi - lo).
Definition centered (n : R) : R := 2 * n - 1.

(** The offset of a pupil for [travel] pixels of horizontal travel; the
    vertical axis is inverted and has 60% of the travel. *)
Definition reference_offset (travel pan tilt : R) : R * R :=
  let px := clamp_unit (centered (normalize 0 180 pan)) in
  let py := clamp_unit (- centered (normalize 30 150 tilt)) in
  (travel * px, (0.6 * travel) * py).

(** The distance of a pupil from the centre of its eye. *)
Definition magnitude (d : R * R) : R := sqrt (fst d * fst d + snd d * snd d).

(** ** What the drawing methods leave on the canvas *)

(** The box of a pupil of radius [pr] moved by [(dx, dy)] from [c]. *)
Definition pupil_coords (c : Z * Z) (pr : Z) (dx dy : R) : coords :=
  (IZR (fst c) + dx - IZR pr, IZR (snd c) + dy - IZR pr,
   IZR (fst c) + dx + IZR pr, IZR (snd c) + dy + IZR pr).

(** The lid over the eye of radius [er] at [c], closed by [progress]. *)
Definition lid_coords (c : Z * Z) (er progress : R) : coords :=
  (IZR (fst c) - er, IZR (snd c) - er,
   IZR (fst c) + er, IZR (snd c) - er + IZR (py_int (er * 2 * progress))).

Definition pupils_at (s : FaceDisplay) (dx dy : R) : Canvas :=
  canvas_coords right_pupil (pupil_coords (right_center s) (pupil_radius s) dx dy)
    (canvas_coords left_pupil (pupil_coords (left_center s) (pupil_radius s) dx dy)
       (canvas s)).

Definition lids_at (s : FaceDisplay) (progress : R) : Canvas :=
  canvas_coords right_lid (lid_coords (right_center s) (eye_radius s) progress)
    (canvas_coords left_lid (lid_coords (left_center s) (eye_radius s) progress)
       (canvas s)).

Definition lids_hidden (s : FaceDisplay) : Canvas :=
  canvas_coords right_lid (0, 0, 0, 0) (canvas_coords left_lid (0, 0, 0, 0) (canvas s)).

(** ** Runs of the smoothing update *)

(** [update_from_angles] called with each pair of numeric targets in turn. *)
Definition feed (targets : list (R * R)) (s : FaceDisplay) : FaceDisplay :=
  fold_left (fun s '(pan, tilt) => exec (update_from_angles (PyNum pan) (PyNum tilt)) s)
    targets s.

(** ** The three stages of a tick

    The body of [_loop] after its guard, cut where the source's comments
    cut it; [_loop_stages] below shows that [_loop] is their sequence. *)

(** Lines 124-143: start a blink when it is due, then draw the blink. *)
Definition blink_stage (now u : R) : Py unit :=
  self <- get_self ;;
  when (gtb (now - last_blink self) (next_blink_in self) && negb (blinking self))
    (assign (set_blinking true) ;;
     assign (set_blink_start (Some now))) ;;
  self <- get_self ;;
  when (blinking self)
    (blink_start <- read_blink_start ;;
     let elapsed := now - blink_start in
     if ltb elapsed 0.08 then
       _draw_blink (Rmin 1.0 (elapsed / 0.08))
     else if ltb elapsed 0.18 then
       _draw_blink 1.0
     else if ltb elapsed 0.26 then
       _draw_blink (Rmax 0.0 (1.0 - (elapsed - 0.18) / 0.08))
     else
       assign (set_blinking false) ;;
       _clear_blink ;;
       assign (set_last_blink now) ;;
       assign (set_next_blink_in (uniform 3.0 12.0 u))).

(** Lines 145-157: move the pupils, from the angles or by idle motion. *)
Definition pupils_stage (now : R) : Py unit :=
  self <- get_self ;;
  angles <- match pan_tilt self with
            | Some o =>
                pan <- lift (getattr (angle_pan o)) ;;
                tilt <- lift (getattr (angle_tilt o)) ;;
                ret (pan, tilt)
            | None => ret (PyNone, PyNone)
            end ;;
  let '(pan, tilt) := angles in
  if is_not_none pan && is_not_none tilt then
    update_from_angles pan tilt
  else
    self <- get_self ;;
    let '(jitter_x, jitter_y) := _idle_offsets (now + idle_phase self) in
    _apply_offsets jitter_x jitter_y.

(** Line 159: schedule the next tick. *)
Definition rearm : Py unit :=
  self <- get_self ;;
  assign (set_parent (after (interval_ms self) (parent self))).

(** Ticks run one after the other, each with its time and random draw. *)
Definition run_ticks (ticks : list (R * R)) (s : FaceDisplay) : FaceDisplay :=
  fold_left (fun s '(now, u) => exec (_loop now u) s) ticks s.

(** ** The blink cycle of the specification *)

Inductive BlinkState : Type :=
| Open
| Closing
| Closed
| Opening.

(** The phase of a blink that started [elapsed] seconds ago: 80 ms to
    close, 100 ms closed, 80 ms to open. *)
Definition phase_at (elapsed : R) : BlinkState :=
  if Rlt_dec elapsed 0.08 then Closing
  else if Rlt_dec elapsed 0.18 then Closed
  else if Rlt_dec elapsed 0.26 then Opening
  else Open.

(** The progress the tick hands to [_draw_blink] in that phase: 0 for an
    open eye, 1 for a closed one. *)
Definition coverage (elapsed : R) : R :=
  match phase_at elapsed with
  | Closing => elapsed / 0.08
  | Closed => 1
  | Opening => 1 - (elapsed - 0.18) / 0.08
  | Open => 0
  end.

(** The blink state of the display at time [now]. *)
Definition blink_state (s : FaceDisplay) (now : R) : BlinkState :=
  if blinking s then
    match blink_start s with
    | Some t0 => phase_at (now - t0)
    | None => Open
    end
  else Open.

(** The lids are where [_draw_blink progress] puts them. *)
Definition lids_drawn (s : FaceDisplay) (progress : R) : Prop :=
  canvas s left_lid = lid_coords (left_center s) (eye_radius s) progress /\
  canvas s right_lid = lid_coords (right_center s) (eye_radius s) progress.

(** The lids are where [_clear_blink] puts them. *)
Definition lids_cleared (s : FaceDisplay) : Prop :=
  canvas s left_lid = (0, 0, 0, 0) /\ canvas s right_lid = (0, 0, 0, 0).

(** The height of a lid in pixels. *)
Definition lid_height (c : coords) : R :=
  let '(_, y0, _, y1) := c in y1 - y0.

(** What a blink reads and writes: the flags and times of the blink, the
    two lids, and the geometry of the eyes. *)
Definition blink_view (s : FaceDisplay) :=
  (running s, blinking s, blink_start s, last_blink s, next_blink_in s,
   (canvas s left_lid, canvas s right_lid),
   (eye_radius s, left_center s, right_center s)).

(** The display when a blink starts at [now], and when it ends. *)
Definition blink_begin (now : R) (s : FaceDisplay) : FaceDisplay :=
  set_blink_start (Some now) (set_blinking true s).

Definition blink_end (now u : R) (s : FaceDisplay) : FaceDisplay :=
  let s1 := set_blinking false s in
  set_next_blink_in (uniform 3.0 12.0 u)
    (set_last_blink now (set_canvas (lids_hidden s1) s1)).

(** What moving the pupils reads, apart from the canvas. *)
Definition pupil_view (s : FaceDisplay) :=
  (pan_tilt s, (left_center s, right_center s, pupil_radius s), idle_phase s,
   (smooth_pan s, smooth_tilt s, smooth_factor s),
   (pan_min s, pan_max s, tilt_min s, tilt_max s, pupil_travel s),
   (interval_ms s, parent s),
   (canvas s left_pupil, canvas s right_pupil)).

(** The attributes that stay as [__init__] set them. *)
Definition fixed_view (s : FaceDisplay) :=
  (width s, height s, (eye_radius s, pupil_radius s, left_center s, right_center s),
   (pan_min s, pan_max s, tilt_min s, tilt_max s, pupil_travel s),
   (idle_phase s, last_pan s, last_tilt s, smooth_factor s),
   (canvas s left_white, canvas s right_white)).

(** ** When a tick has no live angles *)

(** Reading the attribute gives [None]: it does not exist, or it is [None]. *)
Definition missing (a : attr) : bool :=
  match a with
  | Absent | Holds PyNone => true
  | Raises | Holds (PyNum _) | Holds (PyStr _) | Holds (PyInt _) => false
  end.

Definition raising (a : attr) : bool :=
  match a with
  | Raises => true
  | Absent | Holds _ => false
  end.

(** The angle source is absent, or both attributes can be read and one of
    them gives [None]. *)
Definition no_live_angles (pt : option PanTilt) : bool :=
  match pt with
  | None => true
  | Some o =>
      negb (raising (angle_pan o)) && negb (raising (angle_tilt o)) &&
      (missing (angle_pan o) || missing (angle_tilt o))
  end.

(** ** The displays a program can have

    A display is made by [__init__]; then it is started, stopped, ticked by
    the event loop or directly, and its owner may replace the angle source.
    The draws of [random.random()] lie in [0, 1). *)
Inductive reachable : FaceDisplay -> Prop :=
| reach_init tk w h pt now u :
    0 <= u < 1 -> reachable (__init__ tk w h pt now u)
| reach_start interval s :
    reachable s -> reachable (exec (start interval) s)
| reach_stop s :
    reachable s -> reachable (exec stop s)
| reach_loop now u s :
    0 <= u < 1 -> reachable s -> reachable (exec (_loop now u) s)
| reach_fire now u s :
    0 <= u < 1 -> reachable s -> reachable (exec (fire now u) s)
| reach_source pt s :
    reachable s -> reachable (set_pan_tilt pt s).

(** ** Boxes on the canvas *)

(** [x] saturated into [lo, hi]. *)
Definition clamp (lo hi x : R) : R := Rmax lo (Rmin hi x).

(** The box [inner] lies in the box [outer], [margin] away from its sides. *)
Definition box_within (inner outer : coords) (margin : R) : Prop :=
  let '(a0, b0, a1, b1) := inner in
  let '(x0, y0, x1, y1) := outer in
  x0 + margin <= a0 /\ a1 <= x1 - margin /\ y0 + margin <= b0 /\ b1 <= y1 - margin.

(** Both pupils lie in the white of their eye. *)
Definition pupils_in_whites (s : FaceDisplay) (margin : R) : Prop :=
  box_within (canvas s left_pupil) (canvas s left_white) margin /\
  box_within (canvas s right_pupil) (canvas s right_white) margin.

(** A display has the geometry [__init__] computes from its size. *)
Definition built (s : FaceDisplay) : Prop :=
  exists tk w h pt now u, fixed_view s = fixed_view (__init__ tk w h pt now u).

(** ** When a tick returns *)

Definition numeric (a : attr) : bool :=
  match a with
  | Holds v => match to_float v with Return _ => true | Raise _ => false end
  | Absent | Raises => false
  end.

(** Both attributes can be read, and then one of them gives [None] or both
    give numbers: floats, or ints that convert to a float. *)
Definition tick_safe (pt : option PanTilt) : bool :=
  match pt with
  | None => true
  | Some o =>
      negb (raising (angle_pan o)) && negb (raising (angle_tilt o)) &&
      (missing (angle_pan o) || missing (angle_tilt o) ||
       (numeric (angle_pan o) && numeric (angle_tilt o)))
  end.

(** The lid [lid] hangs over the white [white]: as wide, from its top
    edge, not below its bottom edge, [h] pixels high rounded down. *)
Definition lid_over (lid white : coords) (h : R) : Prop :=
  let '(x0, y0, x1, y1) := lid in
  let '(wx0, wy0, wx1, wy1) := white in
  x0 = wx0 /\ x1 = wx1 /\ y0 = wy0 /\ y1 <= wy1 /\ h - 1 < y1 - y0 <= h.

(** ** The face in the dashboard: [Dashboard.__init__], lines 78-94

    [PanTilt_cls] is [None] when [robot.pan_tilt] could not be imported,
    else what the constructor [PanTilt(pin_pan=22, pin_tilt=27)] gives:
    [None] when it raises, else the object.  [FaceDisplay_cls] tells
    whether [robot.face_display] could be imported.  The result is
    [self.face], when there is one. *)
Definition Dashboard_init_face (PanTilt_cls : option (option PanTilt))
    (FaceDisplay_cls : bool) (now u : R) : option FaceDisplay :=
  let pan_tilt :=
    match PanTilt_cls with
    | Some (Some o) => Some o
    | Some None => None
    | None => None
    end in
  if FaceDisplay_cls then
    let face := __init__ [] 640 320 pan_tilt now u in
    Some (exec (start 60) face)
  else None.

(** What happens to a display between two looks at it: the event loop
    fires a pending tick, or the angle source changes. *)
Inductive event : Type :=
| Fire (now u : R)
| Source (pt : option PanTilt).

Definition play (events : list event) (s : FaceDisplay) : FaceDisplay :=
  fold_left (fun s e =>
               match e with
               | Fire now u => exec (fire now u) s
               | Source pt => set_pan_tilt pt s
               end) events s.

(** An event of a healthy run: the draws of [random.random()] lie in
    [0, 1), and a new angle source lets a tick return. *)
Definition safe_event (e : event) : Prop :=
  match e with
  | Fire _ u => 0 <= u < 1
  | Source pt => tick_safe pt = true
  end.

(** * The wake log and the alerts: [robot/dashboard_with_rps.py]

    The functions of the dashboard act on files, on a SQLite table, on the
    network and on Tk widgets.  Their world is a record:
    - the file at [CONFIG_PATH]: missing, not JSON, or a JSON document,
      which is an object with strings for values or something else;
    - the table [wake_events] of the database at [DB_PATH], when it
      exists, with the largest id it ever gave ([AUTOINCREMENT]);
    - the network: [requests.post] returns, or raises an error;
    - what was posted and printed, the lines of the list box of the
      dashboard and the message boxes it showed. *)

Definition Config : Type := string -> option string.

(** A JSON document: an object, or a value of another Python type, which
    has no method [get]. *)
Inductive document : Type :=
| Obj (cfg : Config)
| NotObj (type_name : string).

Inductive file : Type :=
| Unparsable
| Parsed (doc : document).

Record wake_row : Type := {
  row_id : Z;
  row_timestamp : string;
  row_phrase : string;
  row_matched : Z
}.

Record table : Type := { rows : list wake_row; last_id : Z }.

Record post : Type := { url : string; chat_id : string; text : string }.

(** An exception: its class and its message. *)
Record error : Type := Error { kind : string; message : string }.

Record World : Type := {
  config_json : option file;
  wake_events : option table;
  network : option error;
  posted : list post;
  printed : list string;
  log_list : list string;
  boxes : list (string * string * string)
}.

Definition set_config_json (v : option file) (w : World) : World :=
  {| config_json := v; wake_events := wake_events w; network := network w;
     posted := posted w; printed := printed w; log_list := log_list w;
     boxes := boxes w |}.

Definition set_wake_events (v : option table) (w : World) : World :=
  {| config_json := config_json w; wake_events := v; network := network w;
     posted := posted w; printed := printed w; log_list := log_list w;
     boxes := boxes w |}.

Definition set_posted (v : list post) (w : World) : World :=
  {| config_json := config_json w; wake_events := wake_events w; network := network w;
     posted := v; printed := printed w; log_list := log_list w; boxes := boxes w |}.

Definition set_printed (v : list string) (w : World) : World :=
  {| config_json := config_json w; wake_events := wake_events w; network := network w;
     posted := posted w; printed := v; log_list := log_list w; boxes := boxes w |}.

Definition set_log_list (v : list string) (w : World) : World :=
  {| config_json := config_json w; wake_events := wake_events w; network := network w;
     posted := posted w; printed := printed w; log_list := v; boxes := boxes w |}.

Definition set_boxes (v : list (string * string * string)) (w : World) : World :=
  {| config_json := config_json w; wake_events := wake_events w; network := network w;
     posted := posted w; printed := printed w; log_list := log_list w; boxes := v |}.

Inductive io_outcome (A : Type) : Type :=
| Done (a : A)
| Failed (e : error).
Arguments Done {A} a.
Arguments Failed {A} e.

Definition IO (A : Type) : Type := World -> io_outcome A * World.

Definition io_ret {A : Type} (a : A) : IO A := fun w => (Done a, w).

Definition io_bind {A B : Type} (c : IO A) (k : A -> IO B) : IO B :=
  fun w =>
    match c w with
    | (Done a, w') => k a w'
    | (Failed e, w') => (Failed e, w')
    end.

Definition io_fail {A : Type} (e : error) : IO A := fun w => (Failed e, w).

Definition io_world : IO World := fun w => (Done w, w).

Definition io_update (f : World -> World) : IO unit := fun w => (Done tt, f w).

(** [try: c except Exception as e: h e]. *)
Definition io_try {A : Type} (c : IO A) (h : error -> IO A) : IO A :=
  fun w =>
    match c w with
    | (Done a, w') => (Done a, w')
    | (Failed e, w') => h e w'
    end.

Definition io_exec {A : Type} (c : IO A) (w : World) : World := snd (c w).

Definition io_result {A : Type} (c : IO A) (w : World) : io_outcome A := fst (c w).

Declare Scope io_scope.
Delimit Scope io_scope with io.
Notation "x <- c ;; k" := (io_bind c (fun x => k))
  (at level 61, c at next level, right associativity) : io_scope.
Notation "c ;; k" := (io_bind c (fun _ => k))
  (at level 61, right associativity) : io_scope.
Open Scope io_scope.
Open Scope string_scope.

(** [str(e)]. *)
Definition str (e : error) : string := message e.

(** [cfg.get(key, default)]. *)
Definition get (d : document) (key default : string) : IO string :=
  match d with
  | Obj cfg => io_ret match cfg key with Some v => v | None => default end
  | NotObj type_name =>
      io_fail (Error "AttributeError"
                 ("'" ++ type_name ++ "' object has no attribute 'get'"))
  end.

(** The dictionary [{"telegram_token":"", "telegram_chat_id":""}]. *)
Definition empty_settings : Config :=
  fun key =>
    if (key =? "telegram_token") || (key =? "telegram_chat_id") then Some "" else None.

(** A statement on [wake_events]: it raises when the table is missing. *)
Definition execute {A : Type} (statement : table -> A * table) : IO A :=
  w <- io_world ;;
  match wake_events w with
  | Some t =>
      let '(a, t') := statement t in
      io_update (set_wake_events (Some t')) ;; io_ret a
  | None => io_fail (Error "OperationalError" "no such table: wake_events")
  end.

(** [INSERT INTO wake_events (timestamp, phrase, matched) VALUES (?,?,?)]. *)
Definition insert_row (ts phrase : string) (matched : Z) (t : table) : unit * table :=
  let id := (last_id t + 1)%Z in
  (tt, {| rows := rows t ++ [{| row_id := id; row_timestamp := ts;
                                row_phrase := phrase; row_matched := matched |}];
          last_id := id |}).

(** [ORDER BY id DESC], by insertion. *)
Fixpoint insert_by_id (r : wake_row) (l : list wake_row) : list wake_row :=
  match l with
  | [] => [r]
  | x :: l' => if (row_id x <=? row_id r)%Z then r :: l else x :: insert_by_id r l'
  end.

Definition order_by_id_desc (l : list wake_row) : list wake_row :=
  fold_right insert_by_id [] l.

(** [SELECT timestamp, phrase, matched FROM wake_events ORDER BY id DESC
    LIMIT 100]. *)
Definition select_recent (t : table) : list (string * string * Z) * table :=
  (map (fun r => (row_timestamp r, row_phrase r, row_matched r))
     (firstn 100 (order_by_id_desc (rows t))), t).

(** [DELETE FROM wake_events]. *)
Definition delete_all (t : table) : unit * table :=
  (tt, {| rows := []; last_id := last_id t |}).

(** ** [init_db] *)


(** ** [load_config] and [save_config] *)

Definition load_config : IO document :=
  w <- io_world ;;
  match config_json w with
  | None =>
      let default := Obj empty_settings in
      io_update (set_config_json (Some (Parsed default))) ;;
      io_ret default
  | Some Unparsable => io_ret (Obj empty_settings)
  | Some (Parsed doc) => io_ret doc
  end.


(** ** [send_telegram_alert] *)

Definition print (line : string) : IO unit :=
  io_update (fun w => set_printed (printed w ++ [line]) w).

(** [requests.post(url, data={"chat_id": chat_id, "text": text})]. *)
Definition requests_post (url chat_id text : string) : IO unit :=
  w <- io_world ;;
  match network w with
  | None =>
      io_update (set_posted (posted w ++ [{| url := url; chat_id := chat_id;
                                             text := text |}]))
  | Some e => io_fail e
  end.

Definition send_telegram_alert (message : string) : IO unit :=
  cfg <- load_config ;;
  token <- get cfg "telegram_token" "" ;;
  chat_id <- get cfg "telegram_chat_id" "" ;;
  if (token =? "") || (chat_id =? "") then
    print "Telegram not configured"
  else
    let url := "https://api.telegram.org/bot" ++ token ++ "/sendMessage" in
    io_try (requests_post url chat_id message)
      (fun e => print ("Telegram error: " ++ str e)).

(** ** [log_wake_event]

    [ts] is [datetime.datetime.now()] formatted. *)

Definition newline : string := String (Ascii.ascii_of_nat 10) EmptyString.

Definition alert_text (ts phrase : string) : string :=
  "🚨 Wake Attempt Detected" ++ newline ++ "Time: " ++ ts ++ newline ++
  "Heard: '" ++ phrase ++ "'".

Definition log_wake_event (phrase : string) (matched : bool) (ts : string) : IO unit :=
  execute (insert_row ts phrase (if matched then 1 else 0)) ;;
  if negb matched then send_telegram_alert (alert_text ts phrase) else io_ret tt.

(** ** [Dashboard.load_wake_logs] and [Dashboard.clear_wake_logs] *)

Definition format_row (r : string * string * Z) : string :=
  let '(ts, phrase, matched) := r in
  let tag := if (matched =? 0)%Z then "TRY" else "MATCH" in
  "[" ++ ts ++ "] (" ++ tag ++ ") " ++ phrase.

Definition load_wake_logs : IO unit :=
  io_update (set_log_list []) ;;
  io_try
    (rows <- execute select_recent ;;
     io_update (fun w => set_log_list (log_list w ++ map format_row rows) w))
    (fun e => io_update (fun w => set_log_list (log_list w ++ ["DB Error: " ++ str e]) w)).

(** [askyesno] is the answer to [messagebox.askyesno('Confirm', ...)]. *)
Definition clear_wake_logs (askyesno : bool) : IO unit :=
  if negb askyesno then io_ret tt else
  io_try
    (execute delete_all ;;
     load_wake_logs)
    (fun e => io_update (fun w => set_boxes (boxes w ++ [("showerror", "Error", str e)]) w)).

Close Scope string_scope.
Close Scope io_scope.

(** The ids of a table grow with the rows and [last_id] bounds them. *)
Fixpoint ids_increasing (bound : Z) (l : list wake_row) : Prop :=
  match l with
  | [] => True
  | r :: l' => (row_id r <= bound)%Z /\ (forall x, In x l' -> (row_id r < row_id x)%Z) /\
               ids_increasing bound l'
  end.

Definition table_ok (t : table) : Prop := ids_increasing (last_id t) (rows t).




(** ** The blink as it shows on the canvas *)

(** The fraction of the height of the eye, [2 * eye_radius], that the
    lid [it] covers. *)
Definition lid_fraction (s : FaceDisplay) (it : item) : R :=
  lid_height (canvas s it) / (2 * eye_radius s).

(** The fraction under the lid that [_draw_blink progress] draws: the lid
    is a whole number of pixels high. *)
Definition drawn_fraction (er progress : R) : R :=
  IZR (py_int (er * 2 * progress)) / (2 * er).

(** What the display shows of a blink: the state, and the fraction of
    each eye under its lid. *)
Record Seen : Type := {
  seen_state : BlinkState;
  seen_left : R;
  seen_right : R
}.

Definition look (s : FaceDisplay) (now : R) : Seen :=
  {| seen_state := blink_state s now;
     seen_left := lid_fraction s left_lid;
     seen_right := lid_fraction s right_lid |}.

(** What the display shows after each tick of a run. *)
Fixpoint watch (ticks : list (R * R)) (s : FaceDisplay) : list Seen :=
  match ticks with
  | [] => []
  | (now, u) :: rest =>
      let s' := exec (_loop now u) s in
      look s' now :: watch rest s'
  end.

(** What a tick at [now] shows of a blink that started at [t0], on eyes
    of radius [er]. *)
Definition blink_seen (t0 er now : R) : Seen :=
  {| seen_state := phase_at (now - t0);
     seen_left := drawn_fraction er (coverage (now - t0));
     seen_right := drawn_fraction er (coverage (now - t0)) |}.

(** Ticks that do not lag: none before [prev], and each less than 80 ms
    after the one before it. *)
Fixpoint paced (prev : R) (ticks : list (R * R)) : Prop :=
  match ticks with
  | [] => True
  | (now, _) :: rest => prev <= now < prev + 0.08 /\ paced now rest
  end.

(** An elapsed time at least a microsecond away from the three
    thresholds of [_loop], where a comparison of floats and the
    comparison of the numbers they stand for agree. *)
Definition clear_of_thresholds (elapsed : R) : Prop :=
  Forall (fun b => 0.000001 <= Rabs (elapsed - b)) [0.08; 0.18; 0.26].

(** ** Numbers far from the limits of a float

    A float of the ordinary range: sums, differences and products of a
    few of them stay finite. *)
Definition ordinary (x : R) : Prop := Rabs x <= 10 ^ 300.

(** * Properties *)

Ltac minmax := unfold Rmax, Rmin in *; repeat destruct Rle_dec; try lra.

(** ** Geometry of the dashboard's display *)

Lemma py_int_spec (x : R) (z : Z) : 0 <= x -> IZR z <= x < IZR z + 1 -> py_int x = z.
Proof.
  intros Hx Hz. unfold py_int. destruct (Rle_dec 0 x) as [_|H]; [|contradiction].
  symmetry. apply Int_part_spec. lra.
Qed.

Lemma dashboard_face_eye_radius pt now u :
  eye_radius (dashboard_face pt now u) = 57.6.
Proof.
  unfold dashboard_face, __init__. cbn [eye_radius].
  change (Z.min 640 320) with 320%Z. lra.
Qed.

Lemma dashboard_face_pupil_radius pt now u :
  pupil_radius (dashboard_face pt now u) = 20%Z.
Proof.
  unfold dashboard_face, __init__. cbn [pupil_radius].
  change (Z.min 640 320) with 320%Z.
  rewrite (py_int_spec _ 20); [reflexivity | lra | lra].
Qed.

Lemma dashboard_face_travel pt now u :
  pupil_travel (dashboard_face pt now u) = 31.6.
Proof.
  pose proof (dashboard_face_pupil_radius pt now u) as Hp.
  unfold dashboard_face, __init__ in *. cbn [pupil_travel pupil_radius] in *.
  rewrite Hp. change (Z.min 640 320) with 320%Z. lra.
Qed.

Lemma py_int_le (x : R) : 0 <= x -> IZR (py_int x) <= x.
Proof.
  intros Hx. unfold py_int. destruct (Rle_dec 0 x) as [_|H]; [|contradiction].
  destruct (base_Int_part x) as [H _]. exact H.
Qed.

Lemma py_int_monotone (x y : R) : 0 <= x <= y -> (py_int x <= py_int y)%Z.
Proof.
  intros [Hx Hxy]. unfold py_int.
  destruct (Rle_dec 0 x) as [_|H]; [|contradiction].
  destruct (Rle_dec 0 y) as [_|H]; [|lra].
  destruct (base_Int_part x) as [Hx1 _]. destruct (base_Int_part y) as [_ Hy2].
  assert (H : IZR (Int_part x) < IZR (Int_part y + 1)) by (rewrite plus_IZR; lra).
  apply lt_IZR in H. lia.
Qed.

Lemma py_int_zero : py_int 0 = 0%Z.
Proof. apply py_int_spec; lra. Qed.

Lemma py_int_gt (x : R) : 0 <= x -> x - 1 < IZR (py_int x).
Proof.
  intros Hx. unfold py_int. destruct (Rle_dec 0 x) as [_|H]; [|contradiction].
  destruct (base_Int_part x) as [_ H]. lra.
Qed.

Lemma py_int_nonneg (x : R) : 0 <= x -> 0 <= IZR (py_int x).
Proof.
  intros Hx. replace 0 with (IZR (py_int 0)) by (rewrite py_int_zero; reflexivity).
  apply IZR_le, py_int_monotone. lra.
Qed.

(** The travel [__init__] computes is not negative as soon as the smaller
    side of the display has 67 pixels. *)
Lemma init_travel_nonneg tk w h pt now u :
  (67 <= Z.min w h)%Z -> 0 <= pupil_travel (__init__ tk w h pt now u).
Proof.
  intros Hm. cbn [__init__ pupil_travel].
  apply IZR_le in Hm. set (m := IZR (Z.min w h)) in *.
  assert (Hi : IZR (py_int (m * 0.18 * 0.36)) <= m * 0.18 * 0.36)
    by (apply py_int_le; lra).
  destruct (Z.max_spec 6 (py_int (m * 0.18 * 0.36))) as [[_ ->]|[_ ->]]; lra.
Qed.

Lemma init_configured tk w h pt now u : configured (__init__ tk w h pt now u).
Proof. unfold configured, __init__. cbn. repeat split; lra. Qed.

Lemma dashboard_face_configured pt now u : configured (dashboard_face pt now u).
Proof. apply init_configured. Qed.

Lemma init_blink_ready tk w h pt now u : blink_ready (__init__ tk w h pt now u).
Proof. unfold blink_ready, __init__. cbn. discriminate. Qed.

(** ** The mapping from angles to offsets *)

Lemma clamp_unit_minmax (x : R) : Rmax (-1.0) (Rmin 1.0 x) = clamp_unit x.
Proof. unfold clamp_unit. repeat destruct Rlt_dec; minmax. Qed.

Lemma clamp_unit_bounds (x : R) : -1 <= clamp_unit x <= 1.
Proof. unfold clamp_unit. repeat destruct Rlt_dec; lra. Qed.

(** The two clamped, centred coordinates behind an offset. *)
Lemma angle_to_offset_clamped (s : FaceDisplay) (pan tilt : R) :
  exists px py, -1 <= px <= 1 /\ -1 <= py <= 1 /\
    angle_to_offset s pan tilt = (px * pupil_travel s, py * (pupil_travel s * 0.6)).
Proof.
  unfold angle_to_offset. rewrite !clamp_unit_minmax.
  eexists _, _. split; [apply clamp_unit_bounds|]. split; [apply clamp_unit_bounds|].
  reflexivity.
Qed.

Lemma angle_to_offset_reference (s : FaceDisplay) :
  configured s ->
  forall pan tilt : R,
    angle_to_offset s pan tilt = reference_offset (pupil_travel s) pan tilt.
Proof.
  intros (Hpm & HpM & Htm & HtM & _) pan tilt.
  unfold angle_to_offset, reference_offset.
  rewrite !clamp_unit_minmax, Hpm, HpM, Htm, HtM.
  unfold centered, normalize. f_equal.
  - rewrite Rmult_comm. f_equal. f_equal. lra.
  - rewrite Rmult_comm. f_equal; [lra|]. f_equal. lra.
Qed.

(** C1. On a configured display [angle_to_offset] is the reference mapping:
    pan normalised by [(pan - 0) / 180] and tilt by [(tilt - 30) / 120],
    both centred into [-1, 1], the vertical axis negated, each axis clamped
    to [-1, 1], then scaled by [pupil_travel] horizontally and by
    [0.6 * pupil_travel] vertically.  In particular pan 0 and tilt 90 give
    [(- pupil_travel, 0)]. *)
Theorem angle_to_offset_is_reference (s : FaceDisplay) :
  configured s ->
  (forall pan tilt : R,
     angle_to_offset s pan tilt = reference_offset (pupil_travel s) pan tilt) /\
  angle_to_offset s 0 90 = (- pupil_travel s, 0).
Proof.
  intros Hc. split; [apply angle_to_offset_reference; exact Hc|].
  rewrite (angle_to_offset_reference _ Hc). unfold reference_offset, centered, normalize, clamp_unit.
  repeat destruct Rlt_dec; try lra; f_equal; lra.
Qed.

Lemma angle_to_offset_is_reference_witness :
  angle_to_offset (dashboard_face None 0 0.5) 0 90
  = (- pupil_travel (dashboard_face None 0 0.5), 0).
Proof.
  apply (angle_to_offset_is_reference (dashboard_face None 0 0.5)).
  apply init_configured.
Defined.

(** C2, as the code has it.  With a travel that is not negative, every
    pan and tilt of the configured domains give an offset inside the
    rectangle [-travel, travel] x [-0.6 travel, 0.6 travel]. *)
Theorem angle_to_offset_in_rectangle (s : FaceDisplay) (pan tilt : R) :
  configured s ->
  0 <= pupil_travel s ->
  pan_min s <= pan <= pan_max s ->
  tilt_min s <= tilt <= tilt_max s ->
  let '(dx, dy) := angle_to_offset s pan tilt in
  - pupil_travel s <= dx <= pupil_travel s /\
  - (0.6 * pupil_travel s) <= dy <= 0.6 * pupil_travel s.
Proof.
  intros _ HT _ _.
  destruct (angle_to_offset_clamped s pan tilt) as (px & py & Hx & Hy & ->).
  split; nra.
Qed.

Lemma angle_to_offset_in_rectangle_witness :
  let s := dashboard_face None 0 0.5 in
  let '(dx, dy) := angle_to_offset s 45 120 in
  - pupil_travel s <= dx <= pupil_travel s /\
  - (0.6 * pupil_travel s) <= dy <= 0.6 * pupil_travel s.
Proof.
  apply (angle_to_offset_in_rectangle (dashboard_face None 0 0.5) 45 120).
  - apply init_configured.
  - rewrite dashboard_face_travel. lra.
  - simpl. lra.
  - simpl. lra.
Defined.

(** [__init__] takes any size.  On a display of 100 by 60 the eye radius
    is 10.8, the pupil radius the floor of 6, and the travel negative. *)
Lemma small_display_travel tk pt now u :
  pupil_travel (__init__ tk 100 60 pt now u) = -1.2.
Proof.
  cbn [__init__ pupil_travel]. change (Z.min 100 60) with 60%Z.
  rewrite (py_int_spec _ 3) by lra. change (Z.max 6 3) with 6%Z. lra.
Qed.

(** C2, as the specification has it, fails on that display: pan 0 and
    tilt 90 are in the domains, the offset is (1.2, 0), and the
    rectangle of the claim, from 1.2 to -1.2, is empty. *)
Lemma small_display_offset_outside_rectangle :
  let s := __init__ [] 100 60 None 0 0.5 in
  pan_min s <= 0 <= pan_max s /\
  tilt_min s <= 90 <= tilt_max s /\
  angle_to_offset s 0 90 = (1.2, 0) /\
  ~ (let '(dx, dy) := angle_to_offset s 0 90 in
     - pupil_travel s <= dx <= pupil_travel s /\
     - (0.6 * pupil_travel s) <= dy <= 0.6 * pupil_travel s).
Proof.
  intros s.
  assert (E : angle_to_offset s 0 90 = (1.2, 0)).
  { unfold s. rewrite (angle_to_offset_reference _ (init_configured _ _ _ _ _ _)).
    rewrite small_display_travel.
    unfold reference_offset, centered, normalize, clamp_unit.
    repeat destruct Rlt_dec; try lra; f_equal; lra. }
  split; [cbn; lra|]. split; [cbn; lra|]. split; [exact E|].
  rewrite E. unfold s. rewrite small_display_travel. lra.
Qed.

(** ** Laws of the monad, state by state *)

Lemma bind_assoc {A B C : Type} (c : Py A) (f : A -> Py B) (g : B -> Py C)
    (s : FaceDisplay) :
  bind (bind c f) g s = bind c (fun a => bind (f a) g) s.
Proof. unfold bind. destruct (c s) as [[a|e] s']; reflexivity. Qed.

Lemma bind_ext {A B : Type} (c : Py A) (f g : A -> Py B) (s : FaceDisplay) :
  (forall a s', f a s' = g a s') -> bind c f s = bind c g s.
Proof. intros H. unfold bind. destruct (c s) as [[a|e] s']; [apply H | reflexivity]. Qed.

Lemma bind_get_self {A : Type} (k : FaceDisplay -> Py A) (s : FaceDisplay) :
  bind get_self k s = k s s.
Proof. reflexivity. Qed.

Lemma exec_bind {A B : Type} (c : Py A) (k : A -> Py B) (s s' : FaceDisplay) (a : A) :
  c s = (Return a, s') -> bind c k s = k a s'.
Proof. intros H. unfold bind. rewrite H. reflexivity. Qed.

(** ** What a call of each method does *)

Ltac run := unfold bind, get_self, lift, assign, ret, raise, when; cbn.

Lemma _apply_offsets_run (dx dy : R) (s : FaceDisplay) :
  _apply_offsets dx dy s = (Return tt, set_canvas (pupils_at s dx dy) s).
Proof.
  unfold _apply_offsets, pupils_at, pupil_coords. run.
  destruct (left_center s), (right_center s). reflexivity.
Qed.

Lemma _draw_blink_run (progress : R) (s : FaceDisplay) :
  _draw_blink progress s = (Return tt, set_canvas (lids_at s progress) s).
Proof.
  unfold _draw_blink, lids_at, lid_coords. run.
  destruct (left_center s), (right_center s). reflexivity.
Qed.

Lemma _clear_blink_run (s : FaceDisplay) :
  _clear_blink s = (Return tt, set_canvas (lids_hidden s) s).
Proof. reflexivity. Qed.

Lemma update_from_angles_run (pan tilt : R) (s : FaceDisplay) :
  let s1 := set_smooth_pan (smooth_pan s + (pan - smooth_pan s) * smooth_factor s) s in
  let s2 := set_smooth_tilt (smooth_tilt s + (tilt - smooth_tilt s) * smooth_factor s) s1 in
  let d := angle_to_offset s2 (smooth_pan s2) (smooth_tilt s2) in
  update_from_angles (PyNum pan) (PyNum tilt) s
  = (Return tt, set_canvas (pupils_at s2 (fst d) (snd d)) s2).
Proof.
  intros s1 s2 d. subst d s2 s1.
  unfold update_from_angles, _apply_offsets, pupils_at, pupil_coords. run.
  destruct (left_center s), (right_center s). reflexivity.
Qed.

(** The update sees its arguments through [to_float] only. *)
Lemma update_from_angles_floats (pan tilt : pyval) (p t : R) (s : FaceDisplay) :
  to_float pan = Return p ->
  to_float tilt = Return t ->
  update_from_angles pan tilt s = update_from_angles (PyNum p) (PyNum t) s.
Proof.
  intros Hp Ht. unfold update_from_angles, bind, get_self, lift, py_sub.
  cbn [to_float]. rewrite Hp, Ht. reflexivity.
Qed.

Lemma update_from_angles_bad_pan (pan tilt : pyval) (e : exn) (s : FaceDisplay) :
  to_float pan = Raise e ->
  update_from_angles pan tilt s = (Raise e, s).
Proof.
  intros Hp. unfold update_from_angles, bind, get_self, lift, py_sub.
  rewrite Hp. reflexivity.
Qed.

Lemma update_from_angles_bad_tilt (pan tilt : pyval) (p : R) (e : exn) (s : FaceDisplay) :
  to_float pan = Return p ->
  to_float tilt = Raise e ->
  update_from_angles pan tilt s
  = (Raise e, set_smooth_pan (smooth_pan s + (p - smooth_pan s) * smooth_factor s) s).
Proof.
  intros Hp Ht. unfold update_from_angles, bind, get_self, lift, assign, py_sub.
  rewrite Hp, Ht. reflexivity.
Qed.

(** ** Exponential smoothing *)

Lemma update_smooth_pan (pan tilt : R) (s : FaceDisplay) :
  smooth_pan (exec (update_from_angles (PyNum pan) (PyNum tilt)) s)
  = smooth_pan s + (pan - smooth_pan s) * smooth_factor s.
Proof. unfold exec. rewrite update_from_angles_run. reflexivity. Qed.

Lemma update_smooth_tilt (pan tilt : R) (s : FaceDisplay) :
  smooth_tilt (exec (update_from_angles (PyNum pan) (PyNum tilt)) s)
  = smooth_tilt s + (tilt - smooth_tilt s) * smooth_factor s.
Proof. unfold exec. rewrite update_from_angles_run. reflexivity. Qed.

Lemma update_configured (pan tilt : R) (s : FaceDisplay) :
  configured s -> configured (exec (update_from_angles (PyNum pan) (PyNum tilt)) s).
Proof. unfold exec. rewrite update_from_angles_run. exact (fun H => H). Qed.

Lemma feed_cons (pan tilt : R) (l : list (R * R)) (s : FaceDisplay) :
  feed ((pan, tilt) :: l) s
  = feed l (exec (update_from_angles (PyNum pan) (PyNum tilt)) s).
Proof. reflexivity. Qed.

(** A constant target is approached geometrically, with ratio [1 - 0.18]. *)
Lemma feed_constant_target (n : nat) (pan tilt : R) (s : FaceDisplay) :
  configured s ->
  smooth_pan (feed (repeat (pan, tilt) n) s) - pan = (smooth_pan s - pan) * 0.82 ^ n /\
  smooth_tilt (feed (repeat (pan, tilt) n) s) - tilt = (smooth_tilt s - tilt) * 0.82 ^ n.
Proof.
  revert s. induction n as [|n IH]; intros s Hc.
  - cbn. lra.
  - cbn [repeat]. rewrite feed_cons.
    destruct (IH _ (update_configured pan tilt s Hc)) as [-> ->].
    rewrite update_smooth_pan, update_smooth_tilt.
    destruct Hc as (_ & _ & _ & _ & ->). cbn [pow]. lra.
Qed.

(** Smoothing towards targets of a convex range stays in the range. *)
Lemma feed_in_domain (l : list (R * R)) (s : FaceDisplay) :
  configured s ->
  Forall (fun '(pan, tilt) => 0 <= pan <= 180 /\ 30 <= tilt <= 150) l ->
  0 <= smooth_pan s <= 180 /\ 30 <= smooth_tilt s <= 150 ->
  0 <= smooth_pan (feed l s) <= 180 /\ 30 <= smooth_tilt (feed l s) <= 150.
Proof.
  revert s. induction l as [|[pan tilt] l IH]; intros s Hc Hl Hs.
  - exact Hs.
  - rewrite feed_cons. inversion Hl as [|? ? Hhd Hl']; subst.
    cbn in Hhd. destruct Hhd as [Hp Ht].
    apply IH; [apply update_configured; exact Hc | exact Hl' |].
    rewrite update_smooth_pan, update_smooth_tilt.
    destruct Hc as (_ & _ & _ & _ & ->). lra.
Qed.

(** C3, as the code has it.  With a constant target in the configured
    domain and a smoothed angle that starts in the domain, [n] updates
    leave [0.82 ^ n] of the initial distance; so 50 updates bring the
    smoothed angles within 1e-2 of the target, and 61 updates within
    1e-3. *)
Theorem smoothing_converges (s : FaceDisplay) (pan tilt : R) :
  configured s ->
  pan_min s <= pan <= pan_max s ->
  tilt_min s <= tilt <= tilt_max s ->
  pan_min s <= smooth_pan s <= pan_max s ->
  tilt_min s <= smooth_tilt s <= tilt_max s ->
  (forall n : nat,
     smooth_pan (feed (repeat (pan, tilt) n) s) - pan
       = (smooth_pan s - pan) * (1 - smooth_factor s) ^ n /\
     smooth_tilt (feed (repeat (pan, tilt) n) s) - tilt
       = (smooth_tilt s - tilt) * (1 - smooth_factor s) ^ n) /\
  Rabs (smooth_pan (feed (repeat (pan, tilt) 50) s) - pan) <= 0.01 /\
  Rabs (smooth_tilt (feed (repeat (pan, tilt) 50) s) - tilt) <= 0.01 /\
  Rabs (smooth_pan (feed (repeat (pan, tilt) 61) s) - pan) <= 0.001 /\
  Rabs (smooth_tilt (feed (repeat (pan, tilt) 61) s) - tilt) <= 0.001.
Proof.
  intros Hc Hp Ht Hsp Hst.
  pose proof (feed_constant_target 50 pan tilt s Hc) as [Hp50 Ht50].
  pose proof (feed_constant_target 61 pan tilt s Hc) as [Hp61 Ht61].
  split.
  { intros n. replace (1 - smooth_factor s) with 0.82
      by (destruct Hc as (_ & _ & _ & _ & ->); lra).
    apply feed_constant_target. exact Hc. }
  destruct Hc as (Hpm & HpM & Htm & HtM & _).
  rewrite Hpm, HpM in *. rewrite Htm, HtM in *.
  rewrite Hp50, Ht50, Hp61, Ht61.
  assert (H50 : 0 < 0.82 ^ 50 < 0.00005) by lra.
  assert (H61 : 0 < 0.82 ^ 61 < 0.00000554) by lra.
  repeat split; apply Rabs_le; nra.
Qed.

Lemma smoothing_converges_witness :
  let s := dashboard_face None 0 0.5 in
  Rabs (smooth_pan (feed (repeat (180, 90) 61) s) - 180) <= 0.001.
Proof.
  apply (smoothing_converges (dashboard_face None 0 0.5) 180 90).
  - apply init_configured.
  - cbn. lra.
  - cbn. lra.
  - cbn. lra.
  - cbn. lra.
Defined.

(** C3 fails as stated.  The dashboard's display starts with a smoothed pan
    of 90; with the target 180, fifty updates leave it more than 1e-3 away
    (at [90 * 0.82 ^ 50], about 4.4e-3). *)
Lemma smoothing_not_within_1e3_after_50 :
  ~ Rabs (smooth_pan (feed (repeat (180, 90) 50) (dashboard_face None 0 0.5)) - 180)
    <= 0.001.
Proof.
  destruct (feed_constant_target 50 180 90 (dashboard_face None 0 0.5)
              (init_configured _ _ _ _ _ _)) as [-> _].
  cbn [dashboard_face __init__ smooth_pan].
  assert (H50 : 0.00004 < 0.82 ^ 50) by lra.
  unfold Rabs. destruct Rcase_abs; lra.
Qed.

(** C7, as the code has it.  The smoothed angles are a convex combination
    of the previous ones and the target, and nothing clamps them: when
    every supplied target lies in the configured domains, the smoothed pan
    stays in [0, 180] and the smoothed tilt in [30, 150] after every
    update. *)
Theorem smoothed_angles_stay_in_domain (targets : list (R * R)) (s : FaceDisplay) :
  configured s ->
  Forall (fun '(pan, tilt) =>
            pan_min s <= pan <= pan_max s /\ tilt_min s <= tilt <= tilt_max s) targets ->
  0 <= smooth_pan s <= 180 /\ 30 <= smooth_tilt s <= 150 ->
  forall k : nat,
    let s' := feed (firstn k targets) s in
    0 <= smooth_pan s' <= 180 /\ 30 <= smooth_tilt s' <= 150.
Proof.
  intros Hc Hl Hs k. apply feed_in_domain; [exact Hc | | exact Hs].
  destruct Hc as (Hpm & HpM & Htm & HtM & _).
  rewrite Hpm, HpM, Htm, HtM in Hl.
  rewrite Forall_forall in *. intros x Hx. apply Hl.
  apply (In_nth _ _ x) in Hx. destruct Hx as (i & Hi & <-).
  rewrite length_firstn in Hi. rewrite nth_firstn.
  destruct (Nat.ltb_spec i k); [apply nth_In | ]; lia.
Qed.

Lemma smoothed_angles_stay_in_domain_witness :
  let s' := feed (firstn 2 [(0, 150); (180, 30)]) (dashboard_face None 0 0.5) in
  0 <= smooth_pan s' <= 180 /\ 30 <= smooth_tilt s' <= 150.
Proof.
  apply (smoothed_angles_stay_in_domain [(0, 150); (180, 30)]
           (dashboard_face None 0 0.5)).
  - apply init_configured.
  - repeat constructor; cbn; lra.
  - cbn. lra.
Defined.

(** C7 fails as stated.  A pan target of 10000 takes the smoothed pan of
    the dashboard's display from 90 to [90 + 9910 * 0.18 = 1873.8]. *)
Lemma smoothed_pan_leaves_domain :
  ~ (0 <= smooth_pan (feed [(10000, 90)] (dashboard_face None 0 0.5)) <= 180).
Proof.
  unfold feed. cbn [fold_left]. rewrite update_smooth_pan.
  cbn [dashboard_face __init__ smooth_pan smooth_factor]. lra.
Qed.

(** ** Pupil offsets and the travel *)

Lemma magnitude_le (d : R * R) (b : R) :
  0 <= b -> fst d * fst d + snd d * snd d <= b * b -> magnitude d <= b.
Proof.
  intros Hb H. unfold magnitude. rewrite <- (sqrt_square b Hb).
  apply sqrt_le_1_alt. exact H.
Qed.

Lemma _idle_offsets_bounds (t : R) :
  -3 <= fst (_idle_offsets t) <= 3 /\ -0.72 <= snd (_idle_offsets t) <= 0.72.
Proof.
  unfold _idle_offsets. cbn [fst snd].
  pose proof (SIN_bound (t * 0.8)). pose proof (SIN_bound (t * 1.3)).
  pose proof (COS_bound (t * 1.1)). lra.
Qed.

(** C6, as the code has it.  With a travel that is not negative, the
    offset [angle_to_offset] gives lies in the rectangle
    [-travel, travel] x [-0.6 travel, 0.6 travel], so that its magnitude is
    at most [sqrt 1.36 * travel]; the idle offset lies in
    [-3, 3] x [-0.72, 0.72], whatever the travel is, and its magnitude is
    at most the travel once the travel is 3.2 or more. *)
Theorem offsets_bounded (s : FaceDisplay) :
  configured s ->
  0 <= pupil_travel s ->
  (forall pan tilt : R,
     let d := angle_to_offset s pan tilt in
     Rabs (fst d) <= pupil_travel s /\
     Rabs (snd d) <= 0.6 * pupil_travel s /\
     magnitude d <= sqrt 1.36 * pupil_travel s) /\
  (forall t : R,
     let d := _idle_offsets t in
     Rabs (fst d) <= 3 /\
     Rabs (snd d) <= 0.72 /\
     (3.2 <= pupil_travel s -> magnitude d <= pupil_travel s)).
Proof.
  intros _ HT. split.
  - intros pan tilt.
    destruct (angle_to_offset_clamped s pan tilt) as (px & py & Hx & Hy & E).
    cbn zeta. rewrite E. cbn [fst snd].
    split; [apply Rabs_le; nra|]. split; [apply Rabs_le; nra|].
    assert (Hs : 0 <= sqrt 1.36) by apply sqrt_pos.
    apply magnitude_le; [nra|]. cbn [fst snd].
    replace (sqrt 1.36 * pupil_travel s * (sqrt 1.36 * pupil_travel s))
      with ((sqrt 1.36 * sqrt 1.36) * (pupil_travel s * pupil_travel s)) by ring.
    rewrite sqrt_sqrt by lra.
    assert (Hpx : px * px <= 1) by nra.
    assert (Hpy : py * py <= 1) by nra.
    assert (HTT : 0 <= pupil_travel s * pupil_travel s) by nra.
    pose proof (Rmult_le_compat_r _ _ _ HTT Hpx).
    pose proof (Rmult_le_compat_r _ _ _ HTT Hpy).
    lra.
  - intros t. destruct (_idle_offsets_bounds t) as [Hx Hy]. cbn zeta.
    split; [apply Rabs_le; lra|]. split; [apply Rabs_le; lra|].
    intros H32. apply magnitude_le; [lra | nra].
Qed.

Lemma offsets_bounded_witness :
  magnitude (_idle_offsets 0) <= pupil_travel (dashboard_face None 0 0.5).
Proof.
  apply (offsets_bounded (dashboard_face None 0 0.5)).
  - apply init_configured.
  - rewrite dashboard_face_travel. lra.
  - rewrite dashboard_face_travel. lra.
Defined.

(** C6 fails as stated.  On the dashboard's display the travel is 31.6;
    pan 0 and tilt 30 put the pupil in a corner of the rectangle, at
    [(-31.6, 18.96)], which is farther than 31.6 from the centre. *)
Lemma corner_offset_exceeds_travel :
  ~ magnitude (angle_to_offset (dashboard_face None 0 0.5) 0 30)
    <= pupil_travel (dashboard_face None 0 0.5).
Proof.
  rewrite (angle_to_offset_reference _ (dashboard_face_configured None 0 0.5)).
  rewrite dashboard_face_travel.
  unfold reference_offset, centered, normalize, clamp_unit.
  repeat destruct Rlt_dec; try lra.
  unfold magnitude. cbn [fst snd]. intros H.
  apply (Rlt_irrefl 31.6). eapply Rlt_le_trans; [|exact H].
  rewrite <- (sqrt_square 31.6) at 1 by lra.
  apply sqrt_lt_1_alt. lra.
Qed.

(** ** The tick, stage by stage *)

Lemma _loop_stopped (now u : R) (s : FaceDisplay) :
  running s = false -> _loop now u s = (Return tt, s).
Proof. intros H. unfold _loop, bind, get_self. rewrite H. reflexivity. Qed.

Lemma _loop_stages (now u : R) (s : FaceDisplay) :
  running s = true ->
  _loop now u s = (blink_stage now u ;; pupils_stage now ;; rearm) s.
Proof.
  intros H. unfold _loop. rewrite bind_get_self, H. cbn [negb].
  unfold blink_stage. rewrite bind_assoc, bind_get_self, bind_assoc.
  apply bind_ext. intros _ s1. rewrite bind_assoc, !bind_get_self.
  apply bind_ext. intros _ s2. unfold pupils_stage.
  rewrite bind_assoc, !bind_get_self, bind_assoc.
  apply bind_ext. intros [pan tilt] s3. reflexivity.
Qed.

Lemma ltb_true (x y : R) : x < y -> ltb x y = true.
Proof. intros H. unfold ltb. destruct Rlt_dec; [reflexivity | contradiction]. Qed.

Lemma ltb_false (x y : R) : ~ x < y -> ltb x y = false.
Proof. intros H. unfold ltb. destruct Rlt_dec; [contradiction | reflexivity]. Qed.

Lemma gtb_true (x y : R) : x > y -> gtb x y = true.
Proof. intros H. unfold gtb. destruct Rgt_dec; [reflexivity | contradiction]. Qed.

Lemma gtb_false (x y : R) : ~ x > y -> gtb x y = false.
Proof. intros H. unfold gtb. destruct Rgt_dec; [contradiction | reflexivity]. Qed.

Lemma read_blink_start_run (t : R) (s : FaceDisplay) :
  blink_start s = Some t -> read_blink_start s = (Return t, s).
Proof. intros H. unfold read_blink_start. rewrite bind_get_self, H. reflexivity. Qed.

(** No blink is due and none is in progress: the stage does nothing. *)
Lemma blink_stage_open (now u : R) (s : FaceDisplay) :
  blinking s = false ->
  ~ now - last_blink s > next_blink_in s ->
  blink_stage now u s = (Return tt, s).
Proof.
  intros Hb Hd. unfold blink_stage. rewrite bind_get_self, Hb, (gtb_false _ _ Hd).
  cbn [andb when]. unfold bind at 1, ret at 1. rewrite bind_get_self, Hb.
  reflexivity.
Qed.

(** A blink is due: it starts at [now], with the lids drawn fully open. *)
Lemma blink_stage_start (now u : R) (s : FaceDisplay) :
  blinking s = false ->
  now - last_blink s > next_blink_in s ->
  blink_stage now u s
  = (Return tt,
     set_canvas (lids_at (blink_begin now s) (Rmin 1.0 ((now - now) / 0.08)))
       (blink_begin now s)).
Proof.
  intros Hb Hd. unfold blink_stage. rewrite bind_get_self, Hb, (gtb_true _ _ Hd).
  cbn [andb negb when].
  rewrite (exec_bind _ _ s (blink_begin now s) tt) by reflexivity.
  rewrite bind_get_self. cbn [blink_begin blinking set_blinking set_blink_start when].
  rewrite (exec_bind _ _ _ _ now) by (apply read_blink_start_run; reflexivity).
  rewrite ltb_true by lra. apply _draw_blink_run.
Qed.

(** A blink is in progress: the phase of the elapsed time decides. *)
Lemma blink_stage_during (now u t0 : R) (s : FaceDisplay) :
  blinking s = true ->
  blink_start s = Some t0 ->
  blink_stage now u s
  = (Return tt,
     match phase_at (now - t0) with
     | Closing => set_canvas (lids_at s (Rmin 1.0 ((now - t0) / 0.08))) s
     | Closed => set_canvas (lids_at s 1.0) s
     | Opening => set_canvas (lids_at s (Rmax 0.0 (1.0 - (now - t0 - 0.18) / 0.08))) s
     | Open => blink_end now u s
     end).
Proof.
  intros Hb Hs. unfold blink_stage. rewrite bind_get_self, Hb, andb_false_r.
  cbn [when]. unfold bind at 1, ret at 1. rewrite bind_get_self, Hb.
  cbn [when]. rewrite (exec_bind _ _ _ _ t0) by (apply read_blink_start_run; exact Hs).
  unfold phase_at, ltb.
  repeat destruct Rlt_dec; try apply _draw_blink_run. reflexivity.
Qed.

(** The blink stage raises nothing on a display whose blink has a start
    time, and it leaves alone what the pupils depend on. *)
Lemma blink_stage_returns (now u : R) (s : FaceDisplay) :
  blink_ready s ->
  exists s1,
    blink_stage now u s = (Return tt, s1) /\
    pupil_view s1 = pupil_view s /\ fixed_view s1 = fixed_view s /\
    running s1 = running s /\ blink_ready s1.
Proof.
  intros Hr. destruct (blinking s) eqn:Hb.
  - destruct (blink_start s) as [t0|] eqn:Hs; [|exfalso; exact (Hr Hb Hs)].
    eexists. split; [exact (blink_stage_during now u t0 s Hb Hs)|].
    unfold blink_ready.
    destruct (phase_at (now - t0)); cbn; rewrite ?Hs; repeat split; congruence.
  - destruct (Rgt_dec (now - last_blink s) (next_blink_in s)) as [Hd|Hd].
    + eexists. split; [exact (blink_stage_start now u s Hb Hd)|].
      unfold blink_ready. cbn. repeat split; congruence.
    + eexists. split; [exact (blink_stage_open now u s Hb Hd)|].
      repeat split. exact Hr.
Qed.

Lemma rearm_run (s : FaceDisplay) :
  rearm s = (Return tt, set_parent (after (interval_ms s) (parent s)) s).
Proof. reflexivity. Qed.

(** Without live angles the pupils go where the idle motion puts them. *)
Lemma pupils_stage_idle (now : R) (s : FaceDisplay) :
  no_live_angles (pan_tilt s) = true ->
  let d := _idle_offsets (now + idle_phase s) in
  pupils_stage now s = (Return tt, set_canvas (pupils_at s (fst d) (snd d)) s).
Proof.
  intros H d. unfold pupils_stage. rewrite bind_get_self.
  assert (Hidle : (self <- get_self ;;
                   let '(jitter_x, jitter_y) := _idle_offsets (now + idle_phase self) in
                   _apply_offsets jitter_x jitter_y) s
                  = (Return tt, set_canvas (pupils_at s (fst d) (snd d)) s)).
  { rewrite bind_get_self. fold d. destruct d as [jx jy]. apply _apply_offsets_run. }
  destruct (pan_tilt s) as [[pa ta]|]; [|exact Hidle].
  cbn [no_live_angles angle_pan angle_tilt] in H.
  destruct pa as [| |[| | |]], ta as [| |[| | |]]; try discriminate H; exact Hidle.
Qed.

(** With two numbers the stage is the smoothing update. *)
Lemma pupils_stage_live (now pan tilt : R) (s : FaceDisplay) :
  pan_tilt s = Some {| angle_pan := Holds (PyNum pan); angle_tilt := Holds (PyNum tilt) |} ->
  pupils_stage now s = update_from_angles (PyNum pan) (PyNum tilt) s.
Proof. intros H. unfold pupils_stage. rewrite bind_get_self, H. reflexivity. Qed.

(** The same for any two values that convert to floats: an int goes
    through [float] on its first meeting with a float. *)
Lemma pupils_stage_values (now p t : R) (vp vt : pyval) (s : FaceDisplay) :
  pan_tilt s = Some {| angle_pan := Holds vp; angle_tilt := Holds vt |} ->
  to_float vp = Return p ->
  to_float vt = Return t ->
  pupils_stage now s = update_from_angles (PyNum p) (PyNum t) s.
Proof.
  intros H Hp Ht. unfold pupils_stage. rewrite bind_get_self, H.
  cbn [angle_pan angle_tilt].
  assert (Hnn : is_not_none vp = true /\ is_not_none vt = true)
    by (destruct vp, vt; try discriminate Hp; try discriminate Ht; split; reflexivity).
  destruct Hnn as [Hvp Hvt].
  rewrite (exec_bind _ _ s s (vp, vt))
    by (destruct vp, vt; try discriminate Hp; try discriminate Ht; reflexivity).
  rewrite Hvp, Hvt. cbn [andb].
  apply update_from_angles_floats; assumption.
Qed.

(** With live angles the stage does one of three things: it raises with
    the display as it was (a getter raises, or the pan is no number); it
    raises with the smoothed pan moved (the tilt is no number); or it is
    the smoothing update of two floats.  Only the last lets a tick
    return. *)
Lemma pupils_stage_not_idle (now : R) (s : FaceDisplay) :
  no_live_angles (pan_tilt s) = false ->
  (tick_safe (pan_tilt s) = false /\
   exists e, pupils_stage now s = (Raise e, s)) \/
  (tick_safe (pan_tilt s) = false /\
   exists e p,
     pupils_stage now s
     = (Raise e,
        set_smooth_pan (smooth_pan s + (p - smooth_pan s) * smooth_factor s) s)) \/
  (tick_safe (pan_tilt s) = true /\
   exists p t, pupils_stage now s = update_from_angles (PyNum p) (PyNum t) s).
Proof.
  intros H. unfold pupils_stage. rewrite bind_get_self.
  destruct (pan_tilt s) as [[pa ta]|]; [|discriminate H].
  unfold no_live_angles, tick_safe in *. cbn [angle_pan angle_tilt] in *.
  destruct pa as [| |vp], ta as [| |vt];
    try discriminate H;
    try (left; split; [reflexivity | eexists; reflexivity]).
  - destruct vp; discriminate H.
  - assert (Hnn : is_not_none vp = true /\ is_not_none vt = true)
      by (destruct vp, vt; try discriminate H; split; reflexivity).
    destruct Hnn as [Hvp Hvt].
    assert (Hm : missing (Holds vp) = false /\ missing (Holds vt) = false)
      by (destruct vp, vt; try discriminate Hvp; try discriminate Hvt; split; reflexivity).
    destruct Hm as [Hmp Hmt]. rewrite Hmp, Hmt.
    rewrite (exec_bind _ _ s s (vp, vt)) by reflexivity. rewrite Hvp, Hvt.
    cbn [raising negb andb orb]. unfold numeric.
    destruct (to_float vp) as [p|e] eqn:Ep.
    + destruct (to_float vt) as [t|e] eqn:Et.
      * right. right. split; [reflexivity|]. exists p, t.
        apply update_from_angles_floats; assumption.
      * right. left. split; [reflexivity|]. exists e, p.
        apply update_from_angles_bad_tilt; assumption.
    + left. split; [reflexivity|]. exists e. apply update_from_angles_bad_pan. exact Ep.
Qed.

(** Whatever the angle source holds, and whether the stage returns or
    raises, it leaves the blink and the fixed attributes alone. *)
Lemma pupils_stage_frame (now : R) (s : FaceDisplay) :
  blink_view (exec (pupils_stage now) s) = blink_view s /\
  fixed_view (exec (pupils_stage now) s) = fixed_view s.
Proof.
  destruct (no_live_angles (pan_tilt s)) eqn:H.
  - unfold exec. rewrite (pupils_stage_idle now s H). split; reflexivity.
  - unfold exec.
    destruct (pupils_stage_not_idle now s H)
      as [[_ (e & ->)] | [[_ (e & p & ->)] | [_ (p & t & ->)]]];
      rewrite ?update_from_angles_run; split; reflexivity.
Qed.

Lemma tail_frame (now : R) (s : FaceDisplay) :
  blink_view (exec (pupils_stage now ;; rearm) s) = blink_view s /\
  fixed_view (exec (pupils_stage now ;; rearm) s) = fixed_view s.
Proof.
  destruct (pupils_stage_frame now s) as [Hb Hf]. unfold exec, bind in *.
  destruct (pupils_stage now s) as [[[]|e] s']; cbn in *; split; assumption.
Qed.

(** The blink a tick leaves is the one its blink stage leaves. *)
Lemma _loop_blink_view (now u : R) (s s1 : FaceDisplay) :
  running s = true ->
  blink_stage now u s = (Return tt, s1) ->
  blink_view (exec (_loop now u) s) = blink_view s1.
Proof.
  intros Hrun H1. unfold exec. rewrite (_loop_stages now u s Hrun).
  rewrite (exec_bind _ _ _ _ _ H1). apply tail_frame.
Qed.

(** ** Invariants along the ticks *)

Lemma _loop_preserves (now u : R) (s : FaceDisplay) :
  blink_ready s ->
  let s' := exec (_loop now u) s in
  blink_ready s' /\ running s' = running s /\ fixed_view s' = fixed_view s.
Proof.
  intros Hr. cbn zeta. destruct (running s) eqn:Hrun.
  - destruct (blink_stage_returns now u s Hr) as (s1 & H1 & _ & Hf & Hrun1 & Hr1).
    pose proof (_loop_blink_view now u s s1 Hrun H1) as Hv.
    unfold exec in *. rewrite (_loop_stages now u s Hrun) in *.
    rewrite (exec_bind _ _ _ _ _ H1) in *.
    destruct (tail_frame now s1) as [_ Hf']. unfold exec in Hf'.
    unfold blink_view in Hv. injection Hv as Hv1 Hv2 Hv3 _ _ _ _ _ _ _.
    unfold blink_ready in *. rewrite Hv1, Hv2, Hv3, Hf', Hf, Hrun1, Hrun. tauto.
  - unfold exec. rewrite (_loop_stopped now u s Hrun). cbn. tauto.
Qed.

Lemma fixed_view_configured (s s' : FaceDisplay) :
  fixed_view s' = fixed_view s -> configured s -> configured s'.
Proof.
  unfold fixed_view, configured. intros H.
  injection H as _ _ _ _ _ _ H1 H2 H3 H4 _ _ _ _ H5 _ _.
  rewrite H1, H2, H3, H4, H5. exact (fun H => H).
Qed.

Lemma _loop_configured (now u : R) (s : FaceDisplay) :
  blink_ready s -> configured s -> configured (exec (_loop now u) s).
Proof.
  intros Hr. destruct (_loop_preserves now u s Hr) as (_ & _ & Hf).
  apply fixed_view_configured. exact Hf.
Qed.

(** ** Starting and stopping *)

Lemma fire_stopped (now u : R) (s : FaceDisplay) :
  running s = false ->
  exec (fire now u) s = set_parent (tl (parent s)) s.
Proof.
  intros H. unfold exec, fire. rewrite bind_get_self.
  destruct s as [pa ? ? ? ? ? ? ? ? ? ? ? ? ? ? ? ? ? ? ? ? ? ? ? ? ?].
  cbn in H. subst. destruct pa as [|ms rest]; reflexivity.
Qed.

Lemma fire_all_stopped (ticks : list (R * R)) (s : FaceDisplay) :
  running s = false ->
  fire_all ticks s = set_parent (skipn (List.length ticks) (parent s)) s.
Proof.
  revert s. induction ticks as [|[now u] ticks IH]; intros s H.
  - destruct s. reflexivity.
  - unfold fire_all. cbn [fold_left]. fold (fire_all ticks (exec (fire now u) s)).
    rewrite (fire_stopped now u s H), IH by exact H.
    cbn [parent set_parent List.length]. destruct (parent s); [|reflexivity].
    cbn [tl]. rewrite skipn_nil. reflexivity.
Qed.

(** C9. After [stop] the running flag is cleared; a tick invoked then
    returns at once with the display as it was, the scheduler included, so
    it schedules nothing; and whatever callbacks were pending, firing them
    only empties the scheduler: no tick is ever scheduled again. *)
Theorem stop_ends_ticking (s : FaceDisplay) :
  let s0 := exec stop s in
  running s0 = false /\
  (forall now u : R, _loop now u s0 = (Return tt, s0)) /\
  (forall ticks : list (R * R),
     fire_all ticks s0 = set_parent (skipn (List.length ticks) (parent s0)) s0 /\
     (List.length (parent (fire_all ticks s0)) <= List.length (parent s0))%nat /\
     ((List.length (parent s0) <= List.length ticks)%nat -> parent (fire_all ticks s0) = [])).
Proof.
  cbn zeta. assert (H : running (exec stop s) = false) by reflexivity.
  split; [exact H|]. split.
  - intros now u. apply _loop_stopped. exact H.
  - intros ticks. rewrite (fire_all_stopped ticks _ H).
    split; [reflexivity|]. cbn [parent set_parent]. split.
    + rewrite length_skipn. lia.
    + intros Hlen. apply skipn_all2. exact Hlen.
Qed.

Lemma stop_ends_ticking_witness :
  let s0 := exec stop (exec (start 60) (dashboard_face None 0 0.5)) in
  parent (fire_all [(1, 0.5)] s0) = [].
Proof.
  intros s0.
  destruct (stop_ends_ticking (exec (start 60) (dashboard_face None 0 0.5)))
    as (_ & _ & H).
  destruct (H [(1, 0.5)]) as (_ & _ & Hend).
  apply Hend. cbn. lia.
Defined.

(** C10. [start] on a display that is running returns at once: the
    display is as it was, with its tick interval and with its scheduler, to
    which no second chain of ticks is added. *)
Theorem start_while_running_is_noop (interval : Z) (s : FaceDisplay) :
  running s = true ->
  start interval s = (Return tt, s).
Proof. intros H. unfold start. rewrite bind_get_self, H. reflexivity. Qed.

Lemma start_while_running_is_noop_witness :
  let s := exec (start 60) (dashboard_face None 0 0.5) in
  start 1000 s = (Return tt, s).
Proof.
  apply (start_while_running_is_noop 1000
           (exec (start 60) (dashboard_face None 0 0.5))).
  reflexivity.
Defined.

(** What the first [start] does, for comparison: it stores the interval,
    sets the flag and schedules the first tick at once. *)
Lemma start_when_stopped (interval : Z) (s : FaceDisplay) :
  running s = false ->
  start interval s
  = (Return tt,
     set_parent (after 0 (parent s)) (set_running true (set_interval_ms interval s))).
Proof. intros H. unfold start. rewrite bind_get_self, H. reflexivity. Qed.

(** ** A tick without live angles *)

(** C5, as the code has it.  On a running display, when the angle source
    is absent, or when both attributes can be read and the pan or the tilt
    is missing or [None], the tick raises nothing, puts both pupils at the
    idle offsets of that time, leaves the smoothed angles alone and
    schedules the next tick. *)
Theorem tick_without_live_angles_is_idle (now u : R) (s : FaceDisplay) :
  running s = true ->
  blink_ready s ->
  no_live_angles (pan_tilt s) = true ->
  let s' := exec (_loop now u) s in
  let d := _idle_offsets (now + idle_phase s) in
  result (_loop now u) s = Return tt /\
  canvas s' left_pupil = pupil_coords (left_center s) (pupil_radius s) (fst d) (snd d) /\
  canvas s' right_pupil = pupil_coords (right_center s) (pupil_radius s) (fst d) (snd d) /\
  smooth_pan s' = smooth_pan s /\
  smooth_tilt s' = smooth_tilt s /\
  parent s' = after (interval_ms s) (parent s).
Proof.
  intros Hrun Hr Hn. cbn zeta. unfold exec, result.
  rewrite (_loop_stages now u s Hrun).
  destruct (blink_stage_returns now u s Hr) as (s1 & H1 & Hv & _).
  rewrite (exec_bind _ _ _ _ _ H1).
  unfold pupil_view in Hv. injection Hv as Hpt Hlc Hrc Hpr Hip Hsp Hst _ _ _ _ _ _ Him Hpa _ _.
  rewrite <- Hpt in Hn.
  rewrite (exec_bind _ _ _ _ _ (pupils_stage_idle now s1 Hn)), rearm_run.
  cbn. rewrite Hlc, Hrc, Hpr, Hip, Hsp, Hst, Him, Hpa. repeat split.
Qed.

(** The angle source goes away after a tick with live angles: the next
    tick is idle. *)
Lemma tick_without_live_angles_is_idle_witness :
  let live := {| angle_pan := Holds (PyNum 45); angle_tilt := Holds (PyNum 100) |} in
  let s1 := exec (_loop 1 0.5) (exec (start 60) (dashboard_face (Some live) 0 0.5)) in
  result (_loop 1.06 0.5) (set_pan_tilt None s1) = Return tt.
Proof.
  intros live s1.
  assert (Hr : blink_ready (exec (start 60) (dashboard_face (Some live) 0 0.5)))
    by (unfold blink_ready; cbn; discriminate).
  destruct (_loop_preserves 1 0.5 _ Hr) as (Hr1 & Hrun1 & _).
  apply (tick_without_live_angles_is_idle 1.06 0.5 (set_pan_tilt None s1)).
  - exact Hrun1.
  - exact Hr1.
  - reflexivity.
Defined.

(** C5 fails as stated.  With a pan that is a string the first tick of
    the dashboard's display raises [TypeError] from the smoothing update,
    and it schedules no successor. *)
Lemma tick_raises_on_malformed_pan :
  let bad := {| angle_pan := Holds (PyStr "left"); angle_tilt := Holds (PyNum 90) |} in
  let s := exec (start 60) (dashboard_face (Some bad) 0 0.5) in
  result (_loop 1 0.5) s = Raise TypeError /\
  parent (exec (_loop 1 0.5) s) = parent s.
Proof.
  intros bad s. unfold result, exec.
  rewrite (_loop_stages 1 0.5 s eq_refl).
  rewrite (exec_bind _ _ s s tt).
  - split; reflexivity.
  - apply blink_stage_open; [reflexivity|].
    subst s. cbn. unfold uniform. lra.
Qed.

(** An int too large for a float is a number the tick cannot take: the
    subtraction raises [OverflowError], and nothing is scheduled. *)
Lemma tick_raises_on_huge_int :
  let huge := {| angle_pan := Holds (PyInt (10 ^ 309)); angle_tilt := Holds (PyNum 90) |} in
  let s := exec (start 60) (dashboard_face (Some huge) 0 0.5) in
  tick_safe (pan_tilt s) = false /\
  result (_loop 1 0.5) s = Raise OverflowError /\
  parent (exec (_loop 1 0.5) s) = parent s.
Proof.
  intros huge s. split; [vm_compute; reflexivity|]. unfold result, exec.
  rewrite (_loop_stages 1 0.5 s eq_refl).
  rewrite (exec_bind _ _ s s tt).
  - split; reflexivity.
  - apply blink_stage_open; [reflexivity|].
    subst s. cbn. unfold uniform. lra.
Qed.

(** A getter that raises something else than [AttributeError] is not
    caught by [getattr] either. *)
Lemma tick_raises_on_raising_getter :
  let bad := {| angle_pan := Raises; angle_tilt := Holds (PyNum 90) |} in
  let s := exec (start 60) (dashboard_face (Some bad) 0 0.5) in
  result (_loop 1 0.5) s = Raise SourceError.
Proof.
  intros bad s. unfold result.
  rewrite (_loop_stages 1 0.5 s eq_refl).
  rewrite (exec_bind _ _ s s tt).
  - reflexivity.
  - apply blink_stage_open; [reflexivity|].
    subst s. cbn. unfold uniform. lra.
Qed.

(** With two floats the tick raises nothing either. *)
Lemma tick_with_numbers_returns (now u pan tilt : R) (s : FaceDisplay) :
  running s = true ->
  blink_ready s ->
  pan_tilt s = Some {| angle_pan := Holds (PyNum pan); angle_tilt := Holds (PyNum tilt) |} ->
  result (_loop now u) s = Return tt.
Proof.
  intros Hrun Hr Hpt. unfold result. rewrite (_loop_stages now u s Hrun).
  destruct (blink_stage_returns now u s Hr) as (s1 & H1 & Hv & _).
  rewrite (exec_bind _ _ _ _ _ H1).
  unfold pupil_view in Hv. injection Hv as Hpt1 _ _ _ _ _ _ _ _ _ _ _ _ _ _ _ _.
  rewrite <- Hpt1 in Hpt. unfold bind.
  rewrite (pupils_stage_live now pan tilt s1 Hpt), update_from_angles_run.
  reflexivity.
Qed.

(** ** The interval between blinks *)

Lemma uniform_range (a b u : R) :
  a <= b -> 0 <= u < 1 -> a <= uniform a b u <= b.
Proof. intros Hab Hu. unfold uniform. nra. Qed.

(** Between 3 and 12 seconds, at any time: [__init__] draws the interval
    in [3, 10] and the end of a blink draws it in [3, 12]. *)
Lemma init_next_blink_in_range tk w h pt now u :
  0 <= u < 1 -> 3 <= next_blink_in (__init__ tk w h pt now u) <= 12.
Proof. intros Hu. cbn. pose proof (uniform_range 3.0 10.0 u). lra. Qed.

Lemma _loop_next_blink_in_range (now u : R) (s : FaceDisplay) :
  blink_ready s ->
  0 <= u < 1 ->
  3 <= next_blink_in s <= 12 ->
  3 <= next_blink_in (exec (_loop now u) s) <= 12.
Proof.
  intros Hr Hu Hs. destruct (running s) eqn:Hrun.
  - assert (H1 : exists s1, blink_stage now u s = (Return tt, s1) /\
                            3 <= next_blink_in s1 <= 12).
    { destruct (blinking s) eqn:Hb.
      - destruct (blink_start s) as [t0|] eqn:Hst; [|exfalso; exact (Hr Hb Hst)].
        eexists. split; [exact (blink_stage_during now u t0 s Hb Hst)|].
        destruct (phase_at (now - t0)); cbn; try exact Hs.
        pose proof (uniform_range 3.0 12.0 u). lra.
      - destruct (Rgt_dec (now - last_blink s) (next_blink_in s)) as [Hd|Hd].
        + eexists. split; [exact (blink_stage_start now u s Hb Hd)|]. exact Hs.
        + eexists. split; [exact (blink_stage_open now u s Hb Hd)|]. exact Hs. }
    destruct H1 as (s1 & H1 & Hs1).
    pose proof (_loop_blink_view now u s s1 Hrun H1) as Hv.
    unfold blink_view in Hv. injection Hv as _ _ _ _ Hv _ _ _ _ _.
    rewrite Hv. exact Hs1.
  - unfold exec. rewrite (_loop_stopped now u s Hrun). exact Hs.
Qed.

(** Every display a program can have is configured, has a start time
    for the blink in progress, and waits between 3 and 12 seconds for the
    next blink. *)
Lemma reachable_invariant (s : FaceDisplay) :
  reachable s ->
  configured s /\ blink_ready s /\ 3 <= next_blink_in s <= 12.
Proof.
  induction 1 as [tk w h pt now u Hu | interval s _ (Hc & Hr & Hn)
                 | s _ (Hc & Hr & Hn) | now u s Hu _ (Hc & Hr & Hn)
                 | now u s Hu _ (Hc & Hr & Hn) | pt s _ (Hc & Hr & Hn)].
  - split; [apply init_configured|].
    split; [apply init_blink_ready | apply init_next_blink_in_range; exact Hu].
  - unfold exec, start. rewrite bind_get_self.
    destruct (running s); repeat split; solve [apply Hc | apply Hr | apply Hn].
  - repeat split; solve [apply Hc | apply Hr | apply Hn].
  - split; [apply _loop_configured; assumption|].
    split; [apply _loop_preserves; exact Hr|].
    apply _loop_next_blink_in_range; assumption.
  - unfold exec, fire. rewrite bind_get_self.
    destruct (parent s) as [|ms rest]; [repeat split; solve [apply Hc | apply Hr | apply Hn]|].
    rewrite (exec_bind _ _ s (set_parent rest s) tt) by reflexivity.
    assert (Hr' : blink_ready (set_parent rest s)) by exact Hr.
    split; [apply (_loop_configured now u _ Hr'); exact Hc|].
    split; [apply (_loop_preserves now u _ Hr')|].
    apply (_loop_next_blink_in_range now u _ Hr' Hu). exact Hn.
  - repeat split; solve [apply Hc | apply Hr | apply Hn].
Qed.

Lemma init_next_blink_in_below_10 tk w h pt now u :
  0 <= u < 1 -> next_blink_in (__init__ tk w h pt now u) < 10.
Proof. intros Hu. cbn. unfold uniform. lra. Qed.

(** C8, on the code.  The interval [__init__] stores is drawn from 3 to
    10 seconds, not from 3 to 12 as the one drawn at the end of a blink:
    with the same draw 0.9 the first is 9.3 and the second 11.1. *)
Theorem init_draws_blink_interval_from_3_to_10 :
  (forall tk w h pt now u,
     next_blink_in (__init__ tk w h pt now u) = uniform 3 10 u) /\
  (forall now u s, next_blink_in (blink_end now u s) = uniform 3 12 u) /\
  next_blink_in (dashboard_face None 0 0.9) = 9.3 /\
  uniform 3 12 0.9 = 11.1 /\
  (forall u, 0 <= u < 1 -> next_blink_in (dashboard_face None 0 u) < 10).
Proof.
  split; [intros; cbn; unfold uniform; lra|].
  split; [intros; cbn; unfold uniform; lra|].
  split; [cbn; unfold uniform; lra|].
  split; [unfold uniform; lra|].
  intros u Hu. cbn. unfold uniform. lra.
Qed.

(** ** The blink cycle *)

Lemma phase_at_closing (e : R) : e < 0.08 -> phase_at e = Closing.
Proof. intros H. unfold phase_at. repeat destruct Rlt_dec; try lra; reflexivity. Qed.

Lemma phase_at_closed (e : R) : 0.08 <= e < 0.18 -> phase_at e = Closed.
Proof. intros H. unfold phase_at. repeat destruct Rlt_dec; try lra; reflexivity. Qed.

Lemma phase_at_opening (e : R) : 0.18 <= e < 0.26 -> phase_at e = Opening.
Proof. intros H. unfold phase_at. repeat destruct Rlt_dec; try lra; reflexivity. Qed.

Lemma phase_at_open (e : R) : 0.26 <= e -> phase_at e = Open.
Proof. intros H. unfold phase_at. repeat destruct Rlt_dec; try lra; reflexivity. Qed.

Lemma lids_drawn_view (s s' : FaceDisplay) (p : R) :
  blink_view s' = blink_view s -> lids_drawn s p -> lids_drawn s' p.
Proof.
  unfold blink_view, lids_drawn. intros H.
  injection H as _ _ _ _ _ -> -> -> -> ->. exact (fun H => H).
Qed.

Lemma lids_at_drawn (s : FaceDisplay) (p : R) : lids_drawn (set_canvas (lids_at s p) s) p.
Proof. split; reflexivity. Qed.

(** The tick on which a blink is due starts it, lids drawn fully open. *)
Lemma tick_starts_blink (now u : R) (s : FaceDisplay) :
  running s = true ->
  blinking s = false ->
  now - last_blink s > next_blink_in s ->
  let s' := exec (_loop now u) s in
  running s' = true /\ blinking s' = true /\ blink_start s' = Some now /\
  lids_drawn s' 0.
Proof.
  intros Hrun Hb Hd. cbn zeta.
  pose proof (_loop_blink_view now u s _ Hrun (blink_stage_start now u s Hb Hd)) as Hv.
  replace (Rmin 1.0 ((now - now) / 0.08)) with 0 in Hv by (minmax; lra).
  pose proof (lids_drawn_view _ _ 0 Hv (lids_at_drawn _ 0)) as Hl.
  unfold blink_view in Hv. injection Hv as -> -> -> _ _ _ _ _ _ _.
  cbn. rewrite Hrun. repeat split; apply Hl.
Qed.

(** A tick less than 0.26 s into a blink draws the lids of that time. *)
Lemma tick_during_blink (now u t0 : R) (s : FaceDisplay) :
  running s = true ->
  blinking s = true ->
  blink_start s = Some t0 ->
  0 <= now - t0 < 0.26 ->
  let s' := exec (_loop now u) s in
  running s' = true /\ blinking s' = true /\ blink_start s' = Some t0 /\
  lids_drawn s' (coverage (now - t0)).
Proof.
  intros Hrun Hb Hs He. cbn zeta.
  pose proof (_loop_blink_view now u s _ Hrun (blink_stage_during now u t0 s Hb Hs)) as Hv.
  assert (Hl : lids_drawn (exec (_loop now u) s) (coverage (now - t0))).
  { unfold coverage. destruct (phase_at (now - t0)) eqn:Hp.
    - unfold phase_at in Hp. repeat destruct Rlt_dec; try discriminate Hp; lra.
    - replace (Rmin 1.0 ((now - t0) / 0.08)) with ((now - t0) / 0.08) in Hv.
      + exact (lids_drawn_view _ _ _ Hv (lids_at_drawn _ _)).
      + unfold phase_at in Hp. repeat destruct Rlt_dec; try discriminate Hp. minmax.
    - replace 1.0 with 1 in Hv by lra.
      exact (lids_drawn_view _ _ _ Hv (lids_at_drawn _ _)).
    - replace (Rmax 0.0 (1.0 - (now - t0 - 0.18) / 0.08))
        with (1 - (now - t0 - 0.18) / 0.08) in Hv.
      + exact (lids_drawn_view _ _ _ Hv (lids_at_drawn _ _)).
      + minmax. }
  split; [|split; [|split; [|exact Hl]]].
  - unfold blink_view in Hv. injection Hv as -> _ _ _ _ _ _ _ _ _.
    destruct (phase_at (now - t0)); exact Hrun.
  - unfold blink_view in Hv. injection Hv as _ -> _ _ _ _ _ _ _ _.
    destruct (phase_at (now - t0)) eqn:Hp; try exact Hb.
    unfold phase_at in Hp. repeat destruct Rlt_dec; try discriminate Hp; lra.
  - unfold blink_view in Hv. injection Hv as _ _ -> _ _ _ _ _ _ _.
    destruct (phase_at (now - t0)); exact Hs.
Qed.

(** A tick 0.26 s or more into a blink ends it. *)
Lemma tick_ends_blink (now u t0 : R) (s : FaceDisplay) :
  running s = true ->
  blinking s = true ->
  blink_start s = Some t0 ->
  0.26 <= now - t0 ->
  let s' := exec (_loop now u) s in
  blinking s' = false /\ lids_cleared s' /\
  last_blink s' = now /\ next_blink_in s' = uniform 3 12 u.
Proof.
  intros Hrun Hb Hs He. cbn zeta.
  pose proof (_loop_blink_view now u s _ Hrun (blink_stage_during now u t0 s Hb Hs)) as Hv.
  rewrite (phase_at_open _ He) in Hv.
  unfold blink_view in Hv. unfold lids_cleared.
  injection Hv as _ -> _ -> -> -> -> _ _ _. cbn.
  repeat split. unfold uniform. lra.
Qed.

Lemma run_ticks_app (l : list (R * R)) (now u : R) (s : FaceDisplay) :
  run_ticks (l ++ [(now, u)]) s = exec (_loop now u) (run_ticks l s).
Proof. unfold run_ticks. rewrite fold_left_app. reflexivity. Qed.

(** Ticks less than 0.26 s into a blink keep it in progress, and the lids
    are those of the last tick. *)
Lemma run_ticks_during_blink (t0 : R) (ticks : list (R * R)) (s : FaceDisplay) :
  running s = true ->
  blinking s = true ->
  blink_start s = Some t0 ->
  Forall (fun '(now, _) => 0 <= now - t0 < 0.26) ticks ->
  let s' := run_ticks ticks s in
  running s' = true /\ blinking s' = true /\ blink_start s' = Some t0 /\
  (forall d now u, ticks <> [] -> last ticks d = (now, u) ->
     lids_drawn s' (coverage (now - t0))).
Proof.
  intros Hrun Hb Hs. induction ticks as [|[now u] l IH] using rev_ind; intros Hall.
  - cbn. do 3 (split; [assumption|]). intros ? ? ? Hne. contradiction.
  - apply Forall_app in Hall. destruct Hall as [Hl Hlast].
    inversion Hlast as [|? ? He _]; subst. cbn in He.
    destruct (IH Hl) as (Hrun' & Hb' & Hs' & _). cbn zeta.
    rewrite run_ticks_app.
    destruct (tick_during_blink now u t0 _ Hrun' Hb' Hs' He) as (H1 & H2 & H3 & H4).
    do 3 (split; [assumption|]).
    intros dflt now' u' _ Hlst. rewrite last_last in Hlst.
    injection Hlst as <- <-. exact H4.
Qed.

Lemma coverage_start : coverage 0 = 0.
Proof. unfold coverage. rewrite phase_at_closing by lra. lra. Qed.

Lemma coverage_hold (e : R) : 0.08 <= e < 0.18 -> coverage e = 1.
Proof. intros H. unfold coverage. rewrite phase_at_closed by exact H. reflexivity. Qed.

Lemma coverage_closing_monotone (e1 e2 : R) :
  e1 <= e2 -> e2 < 0.08 -> coverage e1 <= coverage e2.
Proof. intros H1 H2. unfold coverage. rewrite !phase_at_closing by lra. lra. Qed.

Lemma coverage_opening_monotone (e1 e2 : R) :
  0.18 <= e1 <= e2 -> e2 < 0.26 -> coverage e2 <= coverage e1.
Proof. intros H1 H2. unfold coverage. rewrite !phase_at_opening by lra. lra. Qed.

Lemma coverage_range (e : R) : 0 <= e -> 0 <= coverage e <= 1.
Proof.
  intros H. unfold coverage, phase_at. repeat destruct Rlt_dec; lra.
Qed.

(** ** The lids in pixels *)

(** The lid [_draw_blink] draws is [int(2 * eye_radius * progress)] pixels
    high: nothing for an open eye, and no lower for more progress. *)
Lemma lids_drawn_height (s : FaceDisplay) (p : R) :
  lids_drawn s p ->
  lid_height (canvas s left_lid) = IZR (py_int (eye_radius s * 2 * p)) /\
  lid_height (canvas s right_lid) = IZR (py_int (eye_radius s * 2 * p)).
Proof.
  intros [-> ->]. unfold lid_height, lid_coords. split; lra.
Qed.

Lemma lids_drawn_open (s : FaceDisplay) :
  lids_drawn s 0 -> lid_height (canvas s left_lid) = 0.
Proof.
  intros H. destruct (lids_drawn_height s 0 H) as [-> _].
  replace (eye_radius s * 2 * 0) with 0 by lra. rewrite py_int_zero. reflexivity.
Qed.

Lemma lids_cleared_height (s : FaceDisplay) :
  lids_cleared s -> lid_height (canvas s left_lid) = 0.
Proof. intros [-> _]. unfold lid_height. lra. Qed.

Lemma lid_height_monotone (s s' : FaceDisplay) (p p' : R) :
  eye_radius s' = eye_radius s ->
  0 <= eye_radius s ->
  0 <= p <= p' ->
  lids_drawn s p -> lids_drawn s' p' ->
  lid_height (canvas s left_lid) <= lid_height (canvas s' left_lid).
Proof.
  intros He Hr Hp H H'.
  destruct (lids_drawn_height s p H) as [-> _].
  destruct (lids_drawn_height s' p' H') as [-> _].
  rewrite He. apply IZR_le. apply py_int_monotone. nra.
Qed.

(** On the dashboard's display a closed lid is 115 pixels high, for an
    eye of 115.2 pixels. *)
Lemma dashboard_face_closed_lid pt now u :
  py_int (eye_radius (dashboard_face pt now u) * 2 * 1.0) = 115%Z.
Proof. rewrite dashboard_face_eye_radius. apply py_int_spec; lra. Qed.

(** ** The blink, tick by tick *)

(** Paced ticks come in the order of their times, none before the
    start. *)
Lemma paced_lower (prev : R) (ticks : list (R * R)) :
  paced prev ticks -> Forall (fun t => prev <= fst t) ticks.
Proof.
  revert prev. induction ticks as [|[now u] l IH]; intros prev H; [constructor|].
  destruct H as [H1 H2]. constructor; [cbn; lra|].
  eapply Forall_impl; [|apply (IH now H2)]. cbn. intros t Ht. lra.
Qed.

Lemma paced_ordered (prev : R) (ticks : list (R * R)) :
  paced prev ticks ->
  ForallOrdPairs (fun t t' => prev <= fst t <= fst t') ticks.
Proof.
  revert prev. induction ticks as [|[now u] l IH]; intros prev H; [constructor|].
  destruct H as [H1 H2]. constructor.
  - eapply Forall_impl; [|apply (paced_lower now l H2)]. cbn. intros t Ht. lra.
  - specialize (IH now H2). clear H2. induction IH as [|a l' Ha _ IH']; constructor.
    + eapply Forall_impl; [|exact Ha]. cbn. intros t Ht. lra.
    + exact IH'.
Qed.

(** Paced ticks that get past a window of 80 ms or more have a tick
    inside it. *)
Lemma paced_hits (prev lo hi : R) (ticks : list (R * R)) :
  paced prev ticks ->
  prev <= lo ->
  lo + 0.08 <= hi ->
  Exists (fun t => hi <= fst t) ticks ->
  Exists (fun t => lo <= fst t < hi) ticks.
Proof.
  revert prev. induction ticks as [|[now u] l IH]; intros prev H Hp Hw Hex.
  - inversion Hex.
  - destruct H as [H1 H2]. destruct (Rle_dec lo now) as [Hlo|Hlo].
    + apply Exists_cons_hd. cbn. lra.
    + apply Exists_cons_tl. apply (IH now H2); [lra | exact Hw |].
      inversion Hex as [? ? Hh|? ? Ht]; subst; [cbn in Hh; lra | exact Ht].
Qed.

Lemma paced_app_l (prev : R) (l1 l2 : list (R * R)) :
  paced prev (l1 ++ l2) -> paced prev l1.
Proof.
  revert prev. induction l1 as [|[now u] l IH]; intros prev H; [exact I|].
  destruct H as [H1 H2]. split; [exact H1 | apply (IH now H2)].
Qed.

Lemma phase_at_cases (e : R) :
  (e < 0.08 /\ phase_at e = Closing) \/
  (0.08 <= e < 0.18 /\ phase_at e = Closed) \/
  (0.18 <= e < 0.26 /\ phase_at e = Opening) \/
  (0.26 <= e /\ phase_at e = Open).
Proof.
  unfold phase_at.
  destruct (Rlt_dec e 0.08); [left; split; [lra | reflexivity]|].
  destruct (Rlt_dec e 0.18); [right; left; split; [lra | reflexivity]|].
  destruct (Rlt_dec e 0.26); [right; right; left; split; [lra | reflexivity]|].
  right; right; right. split; [lra | reflexivity].
Qed.

(** Along paced ticks the phases come in blocks, in the order of the
    blink. *)
Lemma phases_in_blocks (t0 prev : R) (ticks : list (R * R)) :
  paced prev ticks ->
  Forall (fun t => fst t - t0 < 0.26) ticks ->
  exists a b c : nat,
    map (fun t => phase_at (fst t - t0)) ticks
    = repeat Closing a ++ repeat Closed b ++ repeat Opening c /\
    (0.08 <= prev - t0 -> a = 0%nat) /\
    (0.18 <= prev - t0 -> b = 0%nat).
Proof.
  revert prev. induction ticks as [|[now u] l IH]; intros prev Hp Hall.
  - exists 0%nat, 0%nat, 0%nat. repeat split; reflexivity.
  - destruct Hp as [H1 H2]. inversion Hall as [|? ? He Hl]; subst. cbn [fst] in He.
    destruct (IH now H2 Hl) as (a & b & c & E & Ha & Hb).
    cbn [map fst]. rewrite E.
    destruct (phase_at_cases (now - t0)) as [[H ->]|[[H ->]|[[H ->]|[H _]]]].
    + exists (S a), b, c. split; [reflexivity|]. split; intros; lra.
    + rewrite Ha by lra. exists 0%nat, (S b), c.
      split; [reflexivity|]. split; [reflexivity | intros; lra].
    + rewrite Ha, Hb by lra. exists 0%nat, 0%nat, (S c).
      split; [reflexivity|]. split; reflexivity.
    + lra.
Qed.

Lemma blocks_visit (a b c : nat) (l : list BlinkState) :
  l = repeat Closing a ++ repeat Closed b ++ repeat Opening c ->
  In Closing l -> In Closed l -> In Opening l ->
  (0 < a)%nat /\ (0 < b)%nat /\ (0 < c)%nat.
Proof.
  intros -> H1 H2 H3.
  assert (Hin : forall x, In x (repeat Closing a ++ repeat Closed b ++ repeat Opening c) ->
            (x = Closing /\ (0 < a)%nat) \/ (x = Closed /\ (0 < b)%nat) \/
            (x = Opening /\ (0 < c)%nat)).
  { intros x Hx. apply in_app_or in Hx. destruct Hx as [Hx|Hx].
    - left. split; [exact (repeat_spec _ _ _ Hx)|]. destruct a; [destruct Hx | lia].
    - apply in_app_or in Hx. destruct Hx as [Hx|Hx].
      + right. left. split; [exact (repeat_spec _ _ _ Hx)|]. destruct b; [destruct Hx | lia].
      + right. right. split; [exact (repeat_spec _ _ _ Hx)|]. destruct c; [destruct Hx | lia]. }
  split; [|split].
  - destruct (Hin _ H1) as [[_ H]|[[H _]|[H _]]]; [exact H | discriminate H | discriminate H].
  - destruct (Hin _ H2) as [[H _]|[[_ H]|[H _]]]; [discriminate H | exact H | discriminate H].
  - destruct (Hin _ H3) as [[H _]|[[H _]|[_ H]]]; [discriminate H | discriminate H | exact H].
Qed.

(** The drawn fraction is the progress rounded down to a pixel. *)
Lemma drawn_fraction_bounds (er p : R) :
  0 < er -> 0 <= p ->
  p - 1 / (2 * er) < drawn_fraction er p <= p /\ 0 <= drawn_fraction er p.
Proof.
  intros Her Hp. unfold drawn_fraction.
  assert (Hx : 0 <= er * 2 * p) by nra.
  pose proof (py_int_le _ Hx) as Hle. pose proof (py_int_gt _ Hx) as Hgt.
  pose proof (py_int_nonneg _ Hx) as Hnn.
  set (k := IZR (py_int (er * 2 * p))) in *.
  assert (Hi : 0 < / (2 * er)) by (apply Rinv_0_lt_compat; lra).
  assert (Hr : 2 * er * / (2 * er) = 1) by (apply Rinv_r; lra).
  set (i := / (2 * er)) in *. unfold Rdiv. fold i.
  assert (E : er * 2 * p * i = p) by (replace (er * 2 * p * i) with (p * (2 * er * i)) by ring; rewrite Hr; ring).
  split; [split|]; nra.
Qed.

Lemma drawn_fraction_monotone (er p p' : R) :
  0 < er -> 0 <= p <= p' -> drawn_fraction er p <= drawn_fraction er p'.
Proof.
  intros Her Hp. unfold drawn_fraction.
  assert (H : (py_int (er * 2 * p) <= py_int (er * 2 * p'))%Z)
    by (apply py_int_monotone; nra).
  apply IZR_le in H.
  assert (Hi : 0 < / (2 * er)) by (apply Rinv_0_lt_compat; lra).
  unfold Rdiv. nra.
Qed.

Lemma drawn_fraction_open (er : R) : drawn_fraction er 0 = 0.
Proof.
  unfold drawn_fraction. replace (er * 2 * 0) with 0 by ring.
  rewrite py_int_zero. unfold Rdiv. ring.
Qed.

(** With an eye a whole number of pixels high the closed lid covers all
    of it. *)
Lemma drawn_fraction_whole (er : R) (z : Z) :
  0 < er -> 2 * er = IZR z -> drawn_fraction er 1 = 1.
Proof.
  intros Her Hz. unfold drawn_fraction.
  replace (er * 2 * 1) with (IZR z) by lra.
  rewrite (py_int_spec (IZR z) z) by lra.
  rewrite <- Hz. field. lra.
Qed.

(** Of two ticks of a blink the later shows no less of the lid while
    it is Closing, and no more once the earlier is Opening. *)
Lemma blink_seen_pair (t0 er now now' : R) :
  0 < er -> t0 <= now <= now' ->
  (seen_state (blink_seen t0 er now') = Closing ->
   seen_left (blink_seen t0 er now) <= seen_left (blink_seen t0 er now')) /\
  (seen_state (blink_seen t0 er now) = Opening ->
   seen_left (blink_seen t0 er now') <= seen_left (blink_seen t0 er now)).
Proof.
  intros Her H. cbn [blink_seen seen_state seen_left]. split; intros Hs.
  - apply drawn_fraction_monotone; [exact Her|].
    destruct (phase_at_cases (now' - t0)) as [[H' _]|[[_ E]|[[_ E]|[_ E]]]];
      try (rewrite E in Hs; discriminate Hs).
    split; [apply coverage_range; lra | apply coverage_closing_monotone; lra].
  - apply drawn_fraction_monotone; [exact Her|].
    destruct (phase_at_cases (now - t0)) as [[_ E]|[[_ E]|[[H' _]|[_ E]]]];
      try (rewrite E in Hs; discriminate Hs).
    split; [apply coverage_range; lra|].
    destruct (Rlt_dec (now' - t0) 0.26) as [Hlt|Hge].
    + apply coverage_opening_monotone; lra.
    + unfold coverage at 1. rewrite phase_at_open by lra. apply coverage_range. lra.
Qed.

Lemma blink_seen_ordered (t0 er : R) (ticks : list (R * R)) :
  0 < er ->
  ForallOrdPairs (fun t t' => t0 <= fst t <= fst t') ticks ->
  ForallOrdPairs (fun o o' =>
     (seen_state o' = Closing -> seen_left o <= seen_left o') /\
     (seen_state o = Opening -> seen_left o' <= seen_left o))
    (map (fun t => blink_seen t0 er (fst t)) ticks).
Proof.
  intros Her H. induction H as [|t l Ht _ IH]; cbn [map]; constructor.
  - apply Forall_map. eapply Forall_impl; [|exact Ht].
    intros t' Ht'. apply blink_seen_pair; assumption.
  - exact IH.
Qed.

Lemma blink_seen_each (t0 er now : R) :
  0 < er -> t0 <= now ->
  let o := blink_seen t0 er now in
  seen_right o = seen_left o /\
  0 <= seen_left o <= 1 /\
  (seen_state o = Closed ->
     seen_left o = IZR (py_int (er * 2 * 1.0)) / (2 * er) /\
     1 - 1 / (2 * er) < seen_left o /\
     ((exists z : Z, 2 * er = IZR z) -> seen_left o = 1)).
Proof.
  intros Her H. cbn zeta. cbn [blink_seen seen_state seen_left seen_right].
  split; [reflexivity|].
  destruct (coverage_range (now - t0)) as [Hc0 Hc1]; [lra|].
  destruct (drawn_fraction_bounds er _ Her Hc0) as [[Hlo Hhi] Hnn].
  split; [lra|]. intros Hs.
  destruct (phase_at_cases (now - t0)) as [[_ E]|[[H' _]|[[_ E]|[_ E]]]];
    try (rewrite E in Hs; discriminate Hs).
  rewrite (coverage_hold _ H') in *.
  split; [|split].
  - unfold drawn_fraction. replace 1.0 with 1 by lra. reflexivity.
  - exact Hlo.
  - intros [z Hz]. apply (drawn_fraction_whole er z Her Hz).
Qed.

Lemma _loop_eye_radius (now u : R) (s : FaceDisplay) :
  blink_ready s -> eye_radius (exec (_loop now u) s) = eye_radius s.
Proof.
  intros Hr. destruct (_loop_preserves now u s Hr) as (_ & _ & Hf).
  unfold fixed_view in Hf. injection Hf as _ _ H _ _ _ _ _ _ _ _ _ _ _ _ _ _. exact H.
Qed.

Lemma look_drawn (t0 now : R) (s : FaceDisplay) :
  blinking s = true ->
  blink_start s = Some t0 ->
  lids_drawn s (coverage (now - t0)) ->
  look s now = blink_seen t0 (eye_radius s) now.
Proof.
  intros Hb Hs Hl. unfold look, blink_seen, blink_state, lid_fraction, drawn_fraction.
  rewrite Hb, Hs. destruct (lids_drawn_height s _ Hl) as [-> ->]. reflexivity.
Qed.

Lemma look_cleared (t0 now : R) (s : FaceDisplay) :
  blinking s = false ->
  lids_cleared s ->
  0.26 <= now - t0 ->
  look s now = blink_seen t0 (eye_radius s) now.
Proof.
  intros Hb [Hl Hr] He. unfold look, blink_seen, blink_state, lid_fraction.
  rewrite Hb, Hl, Hr. unfold coverage. rewrite (phase_at_open _ He).
  rewrite drawn_fraction_open. unfold lid_height, Rdiv. f_equal; ring.
Qed.

Lemma watch_app (l1 l2 : list (R * R)) (s : FaceDisplay) :
  watch (l1 ++ l2) s = watch l1 s ++ watch l2 (run_ticks l1 s).
Proof.
  revert s. induction l1 as [|[now u] l IH]; intros s; [reflexivity|].
  cbn [app watch]. rewrite IH. reflexivity.
Qed.

(** While a blink is in progress every tick shows what [blink_seen]
    says, and the blink stays in progress. *)
Lemma watch_during (t0 : R) (ticks : list (R * R)) (s : FaceDisplay) :
  running s = true ->
  blinking s = true ->
  blink_start s = Some t0 ->
  Forall (fun t => 0 <= fst t - t0 < 0.26) ticks ->
  watch ticks s = map (fun t => blink_seen t0 (eye_radius s) (fst t)) ticks /\
  (let s' := run_ticks ticks s in
   running s' = true /\ blinking s' = true /\ blink_start s' = Some t0 /\
   eye_radius s' = eye_radius s).
Proof.
  revert s. induction ticks as [|[now u] l IH]; intros s Hrun Hb Hs Hall.
  - split; [reflexivity|]. cbn. repeat split; assumption.
  - inversion Hall as [|? ? He Hl]; subst. cbn [fst] in He.
    destruct (tick_during_blink now u t0 s Hrun Hb Hs He) as (Hrun1 & Hb1 & Hs1 & Hd1).
    assert (Her : eye_radius (exec (_loop now u) s) = eye_radius s).
    { apply _loop_eye_radius. intros _. rewrite Hs. discriminate. }
    destruct (IH _ Hrun1 Hb1 Hs1 Hl) as (Hw & Hrun' & Hb' & Hs' & Her').
    split.
    + cbn [watch map fst]. rewrite Hw, (look_drawn t0 now _ Hb1 Hs1 Hd1), Her. reflexivity.
    + cbn zeta. change (run_ticks ((now, u) :: l) s)
        with (run_ticks l (exec (_loop now u) s)).
      rewrite <- Her. repeat split; assumption.
Qed.

(** The whole blink, tick by tick. *)
Lemma watch_blink (s : FaceDisplay) (now0 u0 nowN uN : R) (ticks : list (R * R)) :
  running s = true ->
  blinking s = false ->
  now0 - last_blink s > next_blink_in s ->
  Forall (fun t => 0 <= fst t - now0 < 0.26) ticks ->
  0.26 <= nowN - now0 ->
  let run := (now0, u0) :: ticks ++ [(nowN, uN)] in
  watch run s = map (fun t => blink_seen now0 (eye_radius s) (fst t)) run /\
  (let s' := run_ticks run s in
   blinking s' = false /\ last_blink s' = nowN /\ next_blink_in s' = uniform 3 12 uN).
Proof.
  intros Hrun Hb Hd Hall HN. cbn zeta.
  destruct (tick_starts_blink now0 u0 s Hrun Hb Hd) as (Hrun0 & Hb0 & Hs0 & Hl0).
  assert (Her0 : eye_radius (exec (_loop now0 u0) s) = eye_radius s).
  { apply _loop_eye_radius. intros H. rewrite Hb in H. discriminate H. }
  destruct (watch_during now0 ticks _ Hrun0 Hb0 Hs0 Hall) as (Hw & Hrun1 & Hb1 & Hs1 & Her1).
  cbn zeta in *.
  destruct (tick_ends_blink nowN uN now0 _ Hrun1 Hb1 Hs1 HN) as (Hb2 & Hl2 & Hlast & Hnext).
  cbn zeta in *.
  assert (Her2 : eye_radius (exec (_loop nowN uN) (run_ticks ticks (exec (_loop now0 u0) s)))
                 = eye_radius s).
  { rewrite _loop_eye_radius; [rewrite Her1; exact Her0|]. intros _. rewrite Hs1. discriminate. }
  split.
  - cbn [watch map fst]. rewrite watch_app, map_app, Hw. cbn [watch map fst].
    rewrite (look_cleared now0 nowN _ Hb2 Hl2 HN), Her2.
    rewrite (look_drawn now0 now0 _ Hb0 Hs0), Her0; [reflexivity|].
    replace (now0 - now0) with 0 by ring. rewrite coverage_start. exact Hl0.
  - change (run_ticks ((now0, u0) :: ticks ++ [(nowN, uN)]) s)
      with (run_ticks (ticks ++ [(nowN, uN)]) (exec (_loop now0 u0) s)).
    rewrite run_ticks_app. repeat split; assumption.
Qed.

(** C4, as the code has it.  On a running display with eyes of positive
    radius whose blink is due, take the tick at [now0], the ticks that
    follow it less than 0.26 s after [now0], and the first tick at 0.26 s
    or later; let every tick come less than 80 ms after the one before
    it, and none within a microsecond of the thresholds 0.08, 0.18 and
    0.26 s.  Then the states shown after the ticks are, in this order,
    one or more Closing, one or more Closed, one or more Opening and one
    Open.  The fraction of the height of the eye under the lid, the same
    for both eyes, is 0 after the first tick and after the last, and
    lies in [0, 1] throughout; while Closed it is
    [int(2 * eye_radius) / (2 * eye_radius)], more than
    [1 - 1 / (2 * eye_radius)], and 1 when [2 * eye_radius] is a whole
    number; of two ticks the later shows no less of the lid when it is
    Closing, and no more of it when the earlier is Opening.  After each
    tick the fraction is the progress of its elapsed time rounded down
    to a whole pixel, and the last tick clears the blink, records its
    time and redraws the interval from 3 to 12 s. *)
Theorem blink_cycle (s : FaceDisplay) (now0 u0 nowN uN : R) (ticks : list (R * R)) :
  running s = true ->
  blinking s = false ->
  now0 - last_blink s > next_blink_in s ->
  0 < eye_radius s ->
  paced now0 (ticks ++ [(nowN, uN)]) ->
  Forall (fun t => fst t - now0 < 0.26) ticks ->
  0.26 <= nowN - now0 ->
  Forall (fun t => clear_of_thresholds (fst t - now0)) (ticks ++ [(nowN, uN)]) ->
  let run := (now0, u0) :: ticks ++ [(nowN, uN)] in
  let seen := watch run s in
  let er := eye_radius s in
  (exists a b c : nat,
     (0 < a)%nat /\ (0 < b)%nat /\ (0 < c)%nat /\
     map seen_state seen
     = repeat Closing a ++ repeat Closed b ++ repeat Opening c ++ [Open]) /\
  (exists first mid last,
     seen = first :: mid ++ [last] /\
     seen_left first = 0 /\ seen_right first = 0 /\
     seen_left last = 0 /\ seen_right last = 0) /\
  Forall (fun o =>
     seen_right o = seen_left o /\
     0 <= seen_left o <= 1 /\
     (seen_state o = Closed ->
        seen_left o = IZR (py_int (er * 2 * 1.0)) / (2 * er) /\
        1 - 1 / (2 * er) < seen_left o /\
        ((exists z : Z, 2 * er = IZR z) -> seen_left o = 1))) seen /\
  ForallOrdPairs (fun o o' =>
     (seen_state o' = Closing -> seen_left o <= seen_left o') /\
     (seen_state o = Opening -> seen_left o' <= seen_left o)) seen /\
  seen = map (fun t => blink_seen now0 er (fst t)) run /\
  (forall p, 0 <= p -> p - 1 / (2 * er) < drawn_fraction er p <= p) /\
  (let s' := run_ticks run s in
   blinking s' = false /\ last_blink s' = nowN /\ next_blink_in s' = uniform 3 12 uN).
Proof.
  intros Hrun Hb Hd Her Hp Hall HN _. cbn zeta.
  pose proof (paced_lower _ _ Hp) as Hlow.
  assert (Hin : Forall (fun t => 0 <= fst t - now0 < 0.26) ticks).
  { apply Forall_app in Hlow. destruct Hlow as [Hlow _].
    rewrite Forall_forall in *. intros t Ht.
    specialize (Hlow t Ht). specialize (Hall t Ht). cbn beta in *. lra. }
  destruct (watch_blink s now0 u0 nowN uN ticks Hrun Hb Hd Hin HN) as [Hw Hend].
  cbn zeta in Hw, Hend. rewrite Hw.
  assert (Hrunp : paced now0 ((now0, u0) :: ticks ++ [(nowN, uN)]))
    by (split; [lra | exact Hp]).
  split; [|split; [|split; [|split; [|split; [reflexivity | split; [|exact Hend]]]]]].
  - change ((now0, u0) :: ticks ++ [(nowN, uN)])
      with (((now0, u0) :: ticks) ++ [(nowN, uN)]) in *.
    rewrite map_map.
    change (fun x : R * R => seen_state (blink_seen now0 (eye_radius s) (fst x)))
      with (fun t : R * R => phase_at (fst t - now0)).
    rewrite map_app. cbn [map fst].
    rewrite (phase_at_open _ HN).
    destruct (phases_in_blocks now0 now0 ((now0, u0) :: ticks)) as (a & b & c & E & _).
    { apply (paced_app_l _ _ _ Hrunp). }
    { constructor; [cbn; lra | exact Hall]. }
    cbn [map fst] in E.
    assert (Hex : forall lo hi ph, now0 <= lo -> lo + 0.08 <= hi -> hi <= now0 + 0.26 ->
              (forall e, lo - now0 <= e < hi - now0 -> phase_at e = ph) ->
              In ph (phase_at (now0 - now0) :: map (fun t => phase_at (fst t - now0)) ticks)).
    { intros lo hi ph Hlo Hw' Hhi Hph. right.
      assert (Hx : Exists (fun t => lo <= fst t < hi) (ticks ++ [(nowN, uN)])).
      { apply (paced_hits now0 lo hi _ Hp Hlo Hw').
        apply Exists_app. right. apply Exists_cons_hd. cbn. lra. }
      apply Exists_app in Hx. destruct Hx as [Hx|Hx].
      - apply Exists_exists in Hx. destruct Hx as (t & Ht & Hr).
        apply in_map_iff. exists t. split; [apply Hph; lra | exact Ht].
      - inversion Hx as [? ? Hh|? ? Ht]; subst; [cbn in Hh; lra | inversion Ht]. }
    destruct (blocks_visit a b c _ E) as (Ha & Hb' & Hc).
    + left. apply phase_at_closing. lra.
    + apply (Hex (now0 + 0.08) (now0 + 0.18)); try lra.
      intros e He. apply phase_at_closed. lra.
    + apply (Hex (now0 + 0.18) (now0 + 0.26)); try lra.
      intros e He. apply phase_at_opening. lra.
    + exists a, b, c. do 3 (split; [assumption|]).
      rewrite E, <- !app_assoc. reflexivity.
  - exists (blink_seen now0 (eye_radius s) now0),
      (map (fun t => blink_seen now0 (eye_radius s) (fst t)) ticks),
      (blink_seen now0 (eye_radius s) nowN).
    split; [cbn [map fst]; rewrite map_app; reflexivity|].
    cbn [blink_seen seen_left seen_right].
    replace (now0 - now0) with 0 by ring. rewrite coverage_start.
    unfold coverage. rewrite (phase_at_open _ HN), drawn_fraction_open.
    repeat split; reflexivity.
  - apply Forall_map. constructor.
    + apply blink_seen_each; [exact Her | cbn; lra].
    + eapply Forall_impl; [|exact Hlow].
      intros t Ht. apply blink_seen_each; [exact Her | exact Ht].
  - apply blink_seen_ordered; [exact Her|]. apply (paced_ordered _ _ Hrunp).
  - intros p H. apply drawn_fraction_bounds; assumption.
Qed.

(** The started dashboard display, 7 s after it was made: a blink is
    due. *)
Lemma started_dashboard_face_due :
  let s := exec (start 60) (dashboard_face None 0 0.5) in
  running s = true /\ blinking s = false /\
  7 - last_blink s > next_blink_in s /\ eye_radius s = 57.6.
Proof.
  cbn zeta. split; [reflexivity|]. split; [reflexivity|]. split.
  - cbn. unfold uniform. lra.
  - apply (dashboard_face_eye_radius None 0 0.5).
Qed.

Lemma clear_of_thresholds_far (e : R) :
  (e <= 0.0799 \/ 0.0801 <= e) ->
  (e <= 0.1799 \/ 0.1801 <= e) ->
  (e <= 0.2599 \/ 0.2601 <= e) ->
  clear_of_thresholds e.
Proof.
  intros H1 H2 H3. unfold clear_of_thresholds.
  repeat constructor; unfold Rabs; destruct Rcase_abs; lra.
Qed.

Lemma blink_cycle_witness :
  let s := exec (start 60) (dashboard_face None 0 0.5) in
  let run := [(7, 0.5); (7.05, 0.5); (7.10, 0.5); (7.15, 0.5); (7.20, 0.5);
              (7.25, 0.5); (7.30, 0.5)] in
  exists a b c : nat,
    (0 < a)%nat /\ (0 < b)%nat /\ (0 < c)%nat /\
    map seen_state (watch run s)
    = repeat Closing a ++ repeat Closed b ++ repeat Opening c ++ [Open].
Proof.
  intros s run.
  destruct started_dashboard_face_due as (Hrun & Hb & Hd & Her).
  destruct (blink_cycle s 7 0.5 7.30 0.5
              [(7.05, 0.5); (7.10, 0.5); (7.15, 0.5); (7.20, 0.5); (7.25, 0.5)])
    as (H & _).
  - exact Hrun.
  - exact Hb.
  - exact Hd.
  - fold s in Her. rewrite Her. lra.
  - cbn. lra.
  - repeat constructor; cbn; lra.
  - lra.
  - repeat (apply Forall_cons; [cbn [fst]; apply clear_of_thresholds_far; lra|]).
    apply Forall_nil.
  - exact H.
Defined.

(** C4, as the specification has it, fails on the dashboard's display:
    0.12 s into a blink the state is Closed and the lid is 115 pixels
    high on an eye of 115.2 pixels. *)
Lemma hold_lid_leaves_eye_uncovered :
  let s := exec (start 60) (dashboard_face None 0 0.5) in
  let s1 := run_ticks [(7, 0.5); (7.06, 0.5); (7.12, 0.5)] s in
  blink_state s1 7.12 = Closed /\
  lid_height (canvas s1 left_lid) = 115 /\
  2 * eye_radius s1 = 115.2 /\
  lid_fraction s1 left_lid <> 1.
Proof.
  intros s s1.
  destruct started_dashboard_face_due as (Hrun & Hb & Hd & Her). fold s in Hrun, Hb, Hd, Her.
  destruct (tick_starts_blink 7 0.5 s Hrun Hb Hd) as (Hrun0 & Hb0 & Hs0 & _).
  assert (Her0 : eye_radius (exec (_loop 7 0.5) s) = 57.6).
  { rewrite _loop_eye_radius; [exact Her|]. intros H. rewrite Hb in H. discriminate H. }
  assert (Hall : Forall (fun t : R * R => 0 <= fst t - 7 < 0.26) [(7.06, 0.5); (7.12, 0.5)])
    by (repeat constructor; cbn; lra).
  destruct (watch_during 7 _ _ Hrun0 Hb0 Hs0 Hall) as (_ & _ & Hb1 & Hs1 & Her1).
  cbn zeta in Hb1, Hs1, Her1.
  assert (Hall' : Forall (fun '(now, _) => 0 <= now - 7 < 0.26) [(7.06, 0.5); (7.12, 0.5)])
    by (repeat constructor; lra).
  destruct (run_ticks_during_blink 7 _ _ Hrun0 Hb0 Hs0 Hall') as (_ & _ & _ & Hl).
  cbn zeta in Hl.
  specialize (Hl (7, 0.5) 7.12 0.5 ltac:(discriminate) eq_refl).
  change (run_ticks [(7.06, 0.5); (7.12, 0.5)] (exec (_loop 7 0.5) s)) with s1 in *.
  rewrite Her0 in Her1.
  assert (Hh : lid_fraction s1 left_lid = 115 / 115.2).
  { change (lid_fraction s1 left_lid) with (seen_left (look s1 7.12)).
    rewrite (look_drawn 7 7.12 s1 Hb1 Hs1 Hl), Her1.
    cbn [blink_seen seen_left]. rewrite coverage_hold by lra.
    unfold drawn_fraction. rewrite (py_int_spec _ 115) by lra. f_equal. lra. }
  split; [|split; [|split]].
  - unfold blink_state. rewrite Hb1, Hs1. apply phase_at_closed. lra.
  - unfold lid_fraction in Hh. rewrite Her1 in Hh.
    apply (Rmult_eq_reg_r (/ (2 * 57.6))); [|apply Rinv_neq_0_compat; lra].
    unfold Rdiv in Hh. rewrite Hh. f_equal. f_equal. lra.
  - rewrite Her1. lra.
  - rewrite Hh. lra.
Qed.

(** Ticks that lag skip phases: with a second tick 0.3 s after the blink
    started, the display goes from Closing, lids at nothing, straight
    back to Open. *)
Lemma slow_ticks_skip_the_hold :
  let s := exec (start 60) (dashboard_face None 0 0.5) in
  map seen_state (watch [(7, 0.5); (7.3, 0.5)] s) = [Closing; Open] /\
  map seen_left (watch [(7, 0.5); (7.3, 0.5)] s) = [0; 0].
Proof.
  intros s.
  destruct started_dashboard_face_due as (Hrun & Hb & Hd & Her). fold s in Hrun, Hb, Hd, Her.
  destruct (watch_blink s 7 0.5 7.3 0.5 [] Hrun Hb Hd) as [Hw _]; [constructor | lra |].
  cbn zeta in Hw. cbn [app] in Hw. rewrite Hw. cbn [map fst blink_seen seen_state seen_left].
  unfold coverage.
  rewrite (phase_at_closing (7 - 7)), (phase_at_open (7.3 - 7)) by lra.
  rewrite drawn_fraction_open.
  replace ((7 - 7) / 0.08) with 0 by lra. rewrite drawn_fraction_open.
  split; reflexivity.
Qed.

(** * Further properties of the display *)

(** ** Saturation and monotonicity of the mapping *)

Lemma clamp_unit_centered_pan (pan : R) :
  clamp_unit (centered (normalize 0 180 (clamp 0 180 pan)))
  = clamp_unit (centered (normalize 0 180 pan)).
Proof.
  unfold clamp_unit, centered, normalize, clamp.
  repeat destruct Rlt_dec; minmax.
Qed.

Lemma clamp_unit_centered_tilt (tilt : R) :
  clamp_unit (- centered (normalize 30 150 (clamp 30 150 tilt)))
  = clamp_unit (- centered (normalize 30 150 tilt)).
Proof.
  unfold clamp_unit, centered, normalize, clamp.
  repeat destruct Rlt_dec; minmax.
Qed.

(** X1. Angles outside the configured domains give the offset of the
    nearest angle of the domain. *)
Theorem angle_to_offset_saturates (s : FaceDisplay) (pan tilt : R) :
  configured s ->
  angle_to_offset s pan tilt
  = angle_to_offset s (clamp (pan_min s) (pan_max s) pan)
      (clamp (tilt_min s) (tilt_max s) tilt).
Proof.
  intros Hc. rewrite !(angle_to_offset_reference s Hc).
  destruct Hc as (-> & -> & -> & -> & _). unfold reference_offset.
  rewrite clamp_unit_centered_pan, clamp_unit_centered_tilt. reflexivity.
Qed.

Lemma angle_to_offset_saturates_witness :
  let s := dashboard_face None 0 0.5 in
  angle_to_offset s 400 (-20)
  = angle_to_offset s (clamp (pan_min s) (pan_max s) 400)
      (clamp (tilt_min s) (tilt_max s) (-20)).
Proof.
  apply (angle_to_offset_saturates (dashboard_face None 0 0.5) 400 (-20)).
  apply dashboard_face_configured.
Defined.

Lemma clamp_unit_monotone (x y : R) : x <= y -> clamp_unit x <= clamp_unit y.
Proof. intros H. unfold clamp_unit. repeat destruct Rlt_dec; lra. Qed.

(** X2. With a travel that is not negative, a larger pan never moves the
    pupil to the left and a larger tilt never moves it down. *)
Theorem angle_to_offset_monotone (s : FaceDisplay) (pan1 pan2 tilt1 tilt2 : R) :
  configured s ->
  0 <= pupil_travel s ->
  pan1 <= pan2 ->
  tilt1 <= tilt2 ->
  fst (angle_to_offset s pan1 tilt1) <= fst (angle_to_offset s pan2 tilt2) /\
  snd (angle_to_offset s pan2 tilt2) <= snd (angle_to_offset s pan1 tilt1).
Proof.
  intros Hc HT Hp Ht. rewrite !(angle_to_offset_reference s Hc).
  unfold reference_offset. cbn [fst snd].
  assert (Hx : clamp_unit (centered (normalize 0 180 pan1))
               <= clamp_unit (centered (normalize 0 180 pan2)))
    by (apply clamp_unit_monotone; unfold centered, normalize; lra).
  assert (Hy : clamp_unit (- centered (normalize 30 150 tilt2))
               <= clamp_unit (- centered (normalize 30 150 tilt1)))
    by (apply clamp_unit_monotone; unfold centered, normalize; lra).
  split; nra.
Qed.

Lemma angle_to_offset_monotone_witness :
  let s := dashboard_face None 0 0.5 in
  fst (angle_to_offset s 10 40) <= fst (angle_to_offset s 170 140) /\
  snd (angle_to_offset s 170 140) <= snd (angle_to_offset s 10 40).
Proof.
  apply (angle_to_offset_monotone (dashboard_face None 0 0.5) 10 170 40 140).
  - apply dashboard_face_configured.
  - rewrite dashboard_face_travel. lra.
  - lra.
  - lra.
Defined.

(** ** Where [__init__] puts the eyes *)

Lemma half_bounds (z : Z) : (IZR z - 1) / 2 <= IZR (z / 2) <= IZR z / 2.
Proof.
  assert (H : (2 * (z / 2) <= z <= 2 * (z / 2) + 1)%Z)
    by (pose proof (Z.div_mod z 2); pose proof (Z.mod_pos_bound z 2); lia).
  destruct H as [H1 H2]. apply IZR_le in H1, H2.
  rewrite ?plus_IZR, ?mult_IZR in *. lra.
Qed.

Lemma half_nonneg (z : Z) : 0 <= IZR z -> 0 <= IZR (z / 2).
Proof. intros H. apply le_IZR in H. apply IZR_le. apply Z.div_pos; lia. Qed.

(** X4. On a canvas at least 3 pixels wide and 4 pixels high, both eye
    whites are drawn inside the canvas. *)
Theorem eyes_inside_canvas tk (w h : Z) pt now u :
  (3 <= w)%Z ->
  (4 <= h)%Z ->
  let s := __init__ tk w h pt now u in
  box_within (canvas s left_white) (0, 0, IZR w, IZR h) 0 /\
  box_within (canvas s right_white) (0, 0, IZR w, IZR h) 0.
Proof.
  intros Hw Hh. cbn [__init__ canvas _create_graphics box_within].
  assert (Hm : 3 <= IZR (Z.min w h)) by (apply IZR_le; lia).
  assert (Hmw : IZR (Z.min w h) <= IZR w) by (apply IZR_le; lia).
  assert (Hmh : IZR (Z.min w h) <= IZR h) by (apply IZR_le; lia).
  apply IZR_le in Hw, Hh.
  set (er := IZR (Z.min w h) * 0.18) in *.
  assert (Her : 0 <= er * 1.2) by (unfold er; lra).
  pose proof (py_int_le _ Her) as Hg1. pose proof (py_int_nonneg _ Her) as Hg0.
  pose proof (half_bounds (py_int (er * 1.2))) as Hg2.
  pose proof (half_nonneg _ Hg0) as Hg3.
  pose proof (half_bounds w) as Hcx.
  assert (Hy : 0 <= IZR h * 0.44) by lra.
  pose proof (py_int_le _ Hy) as Hcy1. pose proof (py_int_gt _ Hy) as Hcy0.
  rewrite minus_IZR, plus_IZR. unfold er in *. repeat split; lra.
Qed.

Lemma eyes_inside_canvas_witness :
  box_within (canvas (dashboard_face None 0 0.5) left_white) (0, 0, 640, 320) 0.
Proof.
  apply (eyes_inside_canvas [] 640 320 None 0 0.5); lia.
Defined.

(** X5. The centres of the two eyes are level and at most 1.2 eye radii
    apart, less than the diameter of an eye: on every display with a
    positive size the two whites overlap. *)
Theorem eye_whites_overlap tk (w h : Z) pt now u :
  (0 < Z.min w h)%Z ->
  let s := __init__ tk w h pt now u in
  snd (left_center s) = snd (right_center s) /\
  0 <= IZR (fst (right_center s) - fst (left_center s)) <= 1.2 * eye_radius s /\
  IZR (fst (right_center s) - fst (left_center s)) < 2 * eye_radius s.
Proof.
  intros Hm. cbn [__init__ left_center right_center eye_radius fst snd].
  apply IZR_lt in Hm.
  set (er := IZR (Z.min w h) * 0.18) in *.
  assert (Her : 0 <= er * 1.2) by (unfold er; lra).
  pose proof (py_int_le _ Her) as Hg1. pose proof (py_int_nonneg _ Her) as Hg0.
  pose proof (half_bounds (py_int (er * 1.2))) as Hg2.
  pose proof (half_nonneg _ Hg0) as Hg3.
  split; [reflexivity|].
  replace (w / 2 + py_int (er * 1.2) / 2 - (w / 2 - py_int (er * 1.2) / 2))%Z
    with (2 * (py_int (er * 1.2) / 2))%Z by lia.
  rewrite mult_IZR. unfold er in *. lra.
Qed.

Lemma eye_whites_overlap_witness :
  let s := dashboard_face None 0 0.5 in
  IZR (fst (right_center s) - fst (left_center s)) < 2 * eye_radius s.
Proof.
  apply (eye_whites_overlap [] 640 320 None 0 0.5). reflexivity.
Defined.

(** ** The pupils stay in the eyes *)

Lemma start_fixed_view (interval : Z) (s : FaceDisplay) :
  fixed_view (exec (start interval) s) = fixed_view s /\
  canvas (exec (start interval) s) = canvas s /\
  blinking (exec (start interval) s) = blinking s /\
  last_blink (exec (start interval) s) = last_blink s.
Proof.
  unfold exec, start. rewrite bind_get_self.
  destruct (running s); repeat split; reflexivity.
Qed.

Lemma fire_unfold (now u : R) (s : FaceDisplay) :
  exec (fire now u) s = s \/
  exists rest, exec (fire now u) s = exec (_loop now u) (set_parent rest s).
Proof.
  unfold exec, fire. rewrite bind_get_self.
  destruct (parent s) as [|ms rest]; [left; reflexivity|].
  right. exists rest. rewrite (exec_bind _ _ s (set_parent rest s) tt); reflexivity.
Qed.

(** Every display a program can have has the geometry of its size. *)
Lemma reachable_built (s : FaceDisplay) : reachable s -> built s.
Proof.
  induction 1 as [tk w h pt now u Hu | interval s Hs IH | s Hs IH
                 | now u s Hu Hs IH | now u s Hu Hs IH | pt s Hs IH].
  - exists tk, w, h, pt, now, u. reflexivity.
  - destruct IH as (tk & w & h & pt & now & u & E).
    exists tk, w, h, pt, now, u. rewrite <- E. apply start_fixed_view.
  - exact IH.
  - destruct IH as (tk & w & h & pt & now' & u' & E).
    exists tk, w, h, pt, now', u'. rewrite <- E.
    apply _loop_preserves, reachable_invariant, Hs.
  - destruct IH as (tk & w & h & pt & now' & u' & E).
    exists tk, w, h, pt, now', u'. rewrite <- E.
    destruct (fire_unfold now u s) as [-> | (rest & ->)]; [reflexivity|].
    assert (Hr : blink_ready (set_parent rest s)) by apply (reachable_invariant s Hs).
    apply (_loop_preserves now u _ Hr).
  - exact IH.
Qed.

(** On such a display the whites are the squares around the centres and
    the travel leaves 6 pixels between pupil and white. *)
Lemma built_geometry (s : FaceDisplay) :
  built s ->
  canvas s left_white
  = (IZR (fst (left_center s)) - eye_radius s, IZR (snd (left_center s)) - eye_radius s,
     IZR (fst (left_center s)) + eye_radius s, IZR (snd (left_center s)) + eye_radius s) /\
  canvas s right_white
  = (IZR (fst (right_center s)) - eye_radius s, IZR (snd (right_center s)) - eye_radius s,
     IZR (fst (right_center s)) + eye_radius s, IZR (snd (right_center s)) + eye_radius s) /\
  pupil_travel s = eye_radius s - IZR (pupil_radius s) - 6.
Proof.
  intros (tk & w & h & pt & now & u & E). unfold fixed_view in E.
  injection E as _ _ Her Hpr Hlc Hrc _ _ _ _ Hpt _ _ _ _ Hlw Hrw.
  rewrite Hlw, Hrw, Hpt, Her, Hpr, Hlc, Hrc. cbn. repeat split.
Qed.

Lemma pupil_coords_in_white (c : Z * Z) (er : R) (pr : Z) (dx dy : R) :
  - (er - IZR pr - 3) <= dx <= er - IZR pr - 3 ->
  - (er - IZR pr - 3) <= dy <= er - IZR pr - 3 ->
  box_within (pupil_coords c pr dx dy)
    (IZR (fst c) - er, IZR (snd c) - er, IZR (fst c) + er, IZR (snd c) + er) 3.
Proof. intros Hx Hy. unfold box_within, pupil_coords. repeat split; lra. Qed.

(** What the pupils stage does to the pupils: nothing when it raises,
    else it puts both at one offset, which the travel bounds for live
    angles and 3 pixels bound for idle motion. *)
Lemma pupils_stage_pupils (now : R) (s : FaceDisplay) :
  0 <= pupil_travel s ->
  let s' := exec (pupils_stage now) s in
  (canvas s' left_pupil = canvas s left_pupil /\
   canvas s' right_pupil = canvas s right_pupil) \/
  (exists dx dy,
     - (pupil_travel s + 3) <= dx <= pupil_travel s + 3 /\
     - (pupil_travel s + 3) <= dy <= pupil_travel s + 3 /\
     canvas s' left_pupil = pupil_coords (left_center s) (pupil_radius s) dx dy /\
     canvas s' right_pupil = pupil_coords (right_center s) (pupil_radius s) dx dy).
Proof.
  intros HT. cbn zeta. destruct (no_live_angles (pan_tilt s)) eqn:H.
  - right. unfold exec. rewrite (pupils_stage_idle now s H).
    destruct (_idle_offsets_bounds (now + idle_phase s)) as [Hx Hy].
    eexists _, _. split; [|split; [|split; reflexivity]]; lra.
  - unfold exec.
    destruct (pupils_stage_not_idle now s H)
      as [[_ (e & ->)] | [[_ (e & p & ->)] | [_ (p & t & ->)]]];
      [left; split; reflexivity | left; split; reflexivity |].
    right. rewrite update_from_angles_run. cbn zeta.
    match goal with
    | |- context [angle_to_offset ?s2 ?a ?b] =>
        destruct (angle_to_offset_clamped s2 a b) as (px & py & Hx & Hy & ->)
    end.
    cbn [fst snd pupil_travel set_smooth_tilt set_smooth_pan].
    eexists _, _. split; [|split; [|split; reflexivity]]; nra.
Qed.

Lemma tail_canvas (now : R) (s : FaceDisplay) :
  canvas (exec (pupils_stage now ;; rearm) s) = canvas (exec (pupils_stage now) s).
Proof.
  unfold exec, bind. destruct (pupils_stage now s) as [[[]|e] s']; reflexivity.
Qed.

Lemma _loop_pupils_in_whites (now u : R) (s : FaceDisplay) :
  built s ->
  blink_ready s ->
  0 <= pupil_travel s ->
  pupils_in_whites s 3 ->
  pupils_in_whites (exec (_loop now u) s) 3.
Proof.
  intros Hb Hr HT Hin. destruct (running s) eqn:Hrun.
  2: { unfold exec. rewrite (_loop_stopped now u s Hrun). exact Hin. }
  destruct (blink_stage_returns now u s Hr) as (s1 & H1 & Hpv & Hfv & _).
  unfold exec. rewrite (_loop_stages now u s Hrun), (exec_bind _ _ _ _ _ H1).
  change (pupils_in_whites (exec (pupils_stage now ;; rearm) s1) 3).
  assert (Hb1 : built s1).
  { destruct Hb as (tk & w & h & pt & n0 & u0 & E).
    exists tk, w, h, pt, n0, u0. rewrite Hfv. exact E. }
  destruct (built_geometry s1 Hb1) as (Hlw & Hrw & HT1).
  assert (HT1' : 0 <= pupil_travel s1).
  { unfold fixed_view in Hfv. injection Hfv as _ _ _ _ _ _ _ _ _ _ -> _ _ _ _ _ _.
    exact HT. }
  destruct (tail_frame now s1) as [_ Hf]. unfold fixed_view in Hf.
  injection Hf as _ _ _ _ _ _ _ _ _ _ _ _ _ _ _ Hlw' Hrw'.
  unfold pupils_in_whites. rewrite Hlw', Hrw', tail_canvas.
  destruct (pupils_stage_pupils now s1 HT1') as [[-> ->] | (dx & dy & Hx & Hy & -> & ->)].
  - unfold pupil_view in Hpv. injection Hpv as _ _ _ _ _ _ _ _ _ _ _ _ _ _ _ -> ->.
    unfold fixed_view in Hfv. injection Hfv as _ _ _ _ _ _ _ _ _ _ _ _ _ _ _ -> ->.
    exact Hin.
  - rewrite Hlw, Hrw. split; apply pupil_coords_in_white; lra.
Qed.

Lemma init_pupils_in_whites tk w h pt now u :
  0 <= pupil_travel (__init__ tk w h pt now u) ->
  pupils_in_whites (__init__ tk w h pt now u) 3.
Proof.
  cbn [__init__ pupil_travel]. intros HT.
  unfold pupils_in_whites. cbn [__init__ canvas _create_graphics box_within].
  repeat (rewrite minus_IZR || rewrite plus_IZR). repeat split; lra.
Qed.

(** X6. On every display a program can have, if the travel is not
    negative, both pupils lie inside the white of their eye, at least 3
    pixels from its sides: at construction, after every tick, whatever the
    angle source supplies and whether or not the tick raises. *)
Theorem pupils_stay_in_whites (s : FaceDisplay) :
  reachable s ->
  0 <= pupil_travel s ->
  pupils_in_whites s 3.
Proof.
  induction 1 as [tk w h pt now u Hu | interval s Hs IH | s Hs IH
                 | now u s Hu Hs IH | now u s Hu Hs IH | pt s Hs IH]; intros HT.
  - apply init_pupils_in_whites. exact HT.
  - destruct (start_fixed_view interval s) as (Hf & Hc & _).
    unfold pupils_in_whites. rewrite Hc. apply IH.
    unfold fixed_view in Hf. injection Hf as _ _ _ _ _ _ _ _ _ _ <- _ _ _ _ _ _.
    exact HT.
  - apply IH. exact HT.
  - destruct (reachable_invariant s Hs) as (_ & Hr & _).
    destruct (_loop_preserves now u s Hr) as (_ & _ & Hf).
    assert (HT' : 0 <= pupil_travel s).
    { unfold fixed_view in Hf. injection Hf as _ _ _ _ _ _ _ _ _ _ <- _ _ _ _ _ _.
      exact HT. }
    apply _loop_pupils_in_whites; [apply reachable_built; exact Hs | exact Hr | exact HT' |].
    apply IH. exact HT'.
  - destruct (fire_unfold now u s) as [E | (rest & E)]; rewrite E in *; [apply IH; exact HT|].
    destruct (reachable_invariant s Hs) as (_ & Hr & _).
    assert (Hr' : blink_ready (set_parent rest s)) by exact Hr.
    destruct (_loop_preserves now u _ Hr') as (_ & _ & Hf).
    assert (HT' : 0 <= pupil_travel s).
    { unfold fixed_view in Hf. injection Hf as _ _ _ _ _ _ _ _ _ _ Hp _ _ _ _ _ _.
      cbn in Hp. rewrite <- Hp. exact HT. }
    apply _loop_pupils_in_whites; [| exact Hr' | exact HT' | exact (IH HT')].
    destruct (reachable_built s Hs) as (tk & w & h & pt & n0 & u0 & E0).
    exists tk, w, h, pt, n0, u0. exact E0.
  - apply IH. exact HT.
Qed.

Lemma pupils_stay_in_whites_witness :
  let bad := {| angle_pan := Holds (PyStr "left"); angle_tilt := Holds (PyNum 90) |} in
  pupils_in_whites (exec (_loop 1 0.5) (exec (start 60) (dashboard_face (Some bad) 0 0.5))) 3.
Proof.
  intros bad.
  apply (pupils_stay_in_whites
           (exec (_loop 1 0.5) (exec (start 60) (dashboard_face (Some bad) 0 0.5)))).
  - apply reach_loop; [lra|]. apply reach_start. apply reach_init. lra.
  - assert (Hr : blink_ready (exec (start 60) (dashboard_face (Some bad) 0 0.5)))
      by (unfold blink_ready; cbn; discriminate).
    destruct (_loop_preserves 1 0.5 _ Hr) as (_ & _ & Hf).
    unfold fixed_view in Hf. injection Hf as _ _ _ _ _ _ _ _ _ _ -> _ _ _ _ _ _.
    change (0 <= pupil_travel (dashboard_face (Some bad) 0 0.5)).
    rewrite dashboard_face_travel. lra.
Defined.

(** ** Blinks are at least three seconds apart *)

(** X7. On a running display a program can have, with no blink in
    progress, a tick at most 3 seconds after the end of the last blink
    starts no blink and leaves the lids alone. *)
Theorem no_blink_within_3_seconds (now u : R) (s : FaceDisplay) :
  reachable s ->
  running s = true ->
  blinking s = false ->
  now - last_blink s <= 3 ->
  let s' := exec (_loop now u) s in
  blinking s' = false /\
  last_blink s' = last_blink s /\
  canvas s' left_lid = canvas s left_lid /\
  canvas s' right_lid = canvas s right_lid.
Proof.
  intros Hs Hrun Hb Hd. cbn zeta.
  destruct (reachable_invariant s Hs) as (_ & _ & Hn).
  assert (Hnd : ~ now - last_blink s > next_blink_in s) by lra.
  pose proof (_loop_blink_view now u s s Hrun (blink_stage_open now u s Hb Hnd)) as Hv.
  unfold blink_view in Hv. injection Hv as _ -> _ -> _ -> -> _ _ _.
  repeat split. exact Hb.
Qed.

Lemma no_blink_within_3_seconds_witness :
  blinking (exec (_loop 2.5 0.5) (exec (start 60) (dashboard_face None 0 0.5))) = false.
Proof.
  apply (no_blink_within_3_seconds 2.5 0.5 (exec (start 60) (dashboard_face None 0 0.5))).
  - apply reach_start. apply reach_init. lra.
  - reflexivity.
  - reflexivity.
  - cbn. lra.
Defined.

(** ** When a tick raises, and what it schedules *)

Lemma pupils_stage_outcome (now : R) (s : FaceDisplay) :
  let s' := exec (pupils_stage now) s in
  pan_tilt s' = pan_tilt s /\ interval_ms s' = interval_ms s /\
  parent s' = parent s /\
  (tick_safe (pan_tilt s) = true -> result (pupils_stage now) s = Return tt) /\
  (tick_safe (pan_tilt s) = false -> exists e, result (pupils_stage now) s = Raise e).
Proof.
  cbn zeta. destruct (no_live_angles (pan_tilt s)) eqn:H.
  - unfold exec, result. rewrite (pupils_stage_idle now s H).
    do 4 (split; [reflexivity|]). intros Hs. exfalso.
    destruct (pan_tilt s) as [[pa ta]|]; [|discriminate Hs].
    cbn [no_live_angles tick_safe angle_pan angle_tilt] in *.
    destruct pa as [| |[| | |]], ta as [| |[| | |]]; discriminate.
  - unfold exec, result.
    destruct (pupils_stage_not_idle now s H)
      as [[Hs (e & ->)] | [[Hs (e & p & ->)] | [Hs (p & t & ->)]]];
      rewrite ?update_from_angles_run, Hs; do 3 (split; [reflexivity|]).
    + split; [discriminate | intros _; exists e; reflexivity].
    + split; [discriminate | intros _; exists e; reflexivity].
    + split; [reflexivity | discriminate].
Qed.

(** What a tick of a running display returns and schedules. *)
Lemma _loop_outcome (now u : R) (s : FaceDisplay) :
  running s = true ->
  blink_ready s ->
  let s' := exec (_loop now u) s in
  pan_tilt s' = pan_tilt s /\ interval_ms s' = interval_ms s /\
  (tick_safe (pan_tilt s) = true ->
   result (_loop now u) s = Return tt /\
   parent s' = after (interval_ms s) (parent s)) /\
  (tick_safe (pan_tilt s) = false ->
   (exists e, result (_loop now u) s = Raise e) /\ parent s' = parent s).
Proof.
  intros Hrun Hr. cbn zeta. unfold exec, result.
  rewrite (_loop_stages now u s Hrun).
  destruct (blink_stage_returns now u s Hr) as (s1 & H1 & Hv & _).
  rewrite (exec_bind _ _ _ _ _ H1).
  unfold pupil_view in Hv. injection Hv as Hpt _ _ _ _ _ _ _ _ _ _ _ _ Him Hpa _ _.
  destruct (pupils_stage_outcome now s1) as (Ept & Eim & Epa & Hsafe & Hbad).
  unfold exec, result in *. rewrite <- Hpt, <- Him, <- Hpa. unfold bind.
  destruct (pupils_stage now s1) as [[[]|e] s2]; cbn [fst snd] in *.
  - rewrite rearm_run. cbn. rewrite Ept, Eim, Epa. do 2 (split; [reflexivity|]).
    split; [intros _; split; reflexivity|].
    intros Hs. destruct (Hbad Hs) as (e & He). discriminate He.
  - do 2 (split; [assumption|]). split.
    + intros Hs. discriminate (Hsafe Hs).
    + intros _. split; [exists e; reflexivity | assumption].
Qed.

(** X8. A tick of a running display returns exactly when both angle
    attributes can be read and one of them gives [None] or both give
    numbers: floats, or ints that convert to a float, those below
    [2^1024 - 2^970] in absolute value.  Then it schedules the next tick,
    after [interval_ms]; in every other case, an int beyond that limit
    among them, it raises and schedules nothing. *)
Theorem tick_returns_iff_safe (now u : R) (s : FaceDisplay) :
  running s = true ->
  blink_ready s ->
  let s' := exec (_loop now u) s in
  (result (_loop now u) s = Return tt <-> tick_safe (pan_tilt s) = true) /\
  (tick_safe (pan_tilt s) = true -> parent s' = after (interval_ms s) (parent s)) /\
  (tick_safe (pan_tilt s) = false -> parent s' = parent s).
Proof.
  intros Hrun Hr. cbn zeta.
  destruct (_loop_outcome now u s Hrun Hr) as (_ & _ & Hsafe & Hbad).
  split; [split|split].
  - intros Hret. destruct (tick_safe (pan_tilt s)); [reflexivity|].
    destruct (Hbad eq_refl) as [(e & He) _]. rewrite He in Hret. discriminate Hret.
  - intros Hs. apply Hsafe. exact Hs.
  - intros Hs. apply Hsafe. exact Hs.
  - intros Hs. apply Hbad. exact Hs.
Qed.

Lemma tick_returns_iff_safe_witness :
  let two := {| angle_pan := Holds (PyStr "left"); angle_tilt := Holds PyNone |} in
  let s := exec (start 60) (dashboard_face (Some two) 0 0.5) in
  result (_loop 1 0.5) s = Return tt <-> tick_safe (pan_tilt s) = true.
Proof.
  intros two s. apply (tick_returns_iff_safe 1 0.5 s).
  - reflexivity.
  - unfold blink_ready. cbn. discriminate.
Defined.

(** ** Chains of ticks *)

Lemma fire_cons (now u : R) (d : Z) (rest : Tk) (s : FaceDisplay) :
  parent s = d :: rest ->
  fire now u s = _loop now u (set_parent rest s).
Proof.
  intros H. unfold fire. rewrite bind_get_self, H.
  rewrite (exec_bind _ _ s (set_parent rest s) tt); reflexivity.
Qed.

Lemma fire_empty (now u : R) (s : FaceDisplay) :
  parent s = [] -> fire now u s = (Return tt, s).
Proof. intros H. unfold fire. rewrite bind_get_self, H. reflexivity. Qed.

(** A fired tick that returns takes its callback off the scheduler and
    puts one back: the number of pending ticks stays. *)
Lemma fire_keeps_chains (now u : R) (s : FaceDisplay) :
  running s = true ->
  blink_ready s ->
  tick_safe (pan_tilt s) = true ->
  parent s <> [] ->
  let s' := exec (fire now u) s in
  running s' = true /\ blink_ready s' /\ pan_tilt s' = pan_tilt s /\
  interval_ms s' = interval_ms s /\
  parent s' = tl (parent s) ++ [interval_ms s].
Proof.
  intros Hrun Hr Hs Hne. cbn zeta.
  destruct (parent s) as [|d rest] eqn:Hp; [contradiction|].
  unfold exec. rewrite (fire_cons now u d rest s Hp).
  assert (Hr' : blink_ready (set_parent rest s)) by exact Hr.
  destruct (_loop_preserves now u _ Hr') as (Hr1 & Hrun1 & _).
  destruct (_loop_outcome now u (set_parent rest s) Hrun Hr') as (Hpt & Him & Hsafe & _).
  destruct (Hsafe Hs) as [_ Hpa]. unfold exec in *.
  rewrite Hpt, Him, Hpa, Hrun1. cbn. repeat split; assumption.
Qed.

(** X9. [stop] does not cancel the tick that is pending, so [start] right
    after it adds a second one: from then on two chains of ticks run,
    each tick that returns re-arming its own. *)
Theorem stop_then_start_doubles_the_ticks (interval d : Z) (s : FaceDisplay) :
  running s = true ->
  blink_ready s ->
  tick_safe (pan_tilt s) = true ->
  parent s = [d] ->
  let s2 := exec (start interval) (exec stop s) in
  running s2 = true /\
  parent s2 = [d; 0%Z] /\
  forall ticks : list (R * R), List.length (parent (fire_all ticks s2)) = 2%nat.
Proof.
  intros Hrun Hr Hs Hp. cbn zeta.
  assert (E : exec (start interval) (exec stop s)
              = set_parent (after 0 (parent s))
                  (set_running true (set_interval_ms interval (exec stop s)))).
  { unfold exec at 1. rewrite start_when_stopped by reflexivity. reflexivity. }
  rewrite E. split; [reflexivity|]. split; [cbn; rewrite Hp; reflexivity|].
  intros ticks.
  assert (Hinv : forall s0 : FaceDisplay,
            running s0 = true -> blink_ready s0 -> tick_safe (pan_tilt s0) = true ->
            List.length (parent s0) = 2%nat ->
            List.length (parent (fire_all ticks s0)) = 2%nat).
  { induction ticks as [|[now u] l IH]; intros s0 H1 H2 H3 H4; [exact H4|].
    unfold fire_all. cbn [fold_left]. fold (fire_all l (exec (fire now u) s0)).
    assert (Hne : parent s0 <> []) by (intros E0; rewrite E0 in H4; discriminate).
    destruct (fire_keeps_chains now u s0 H1 H2 H3 Hne) as (K1 & K2 & K3 & _ & K5).
    apply IH; [exact K1 | exact K2 | rewrite K3; exact H3 |].
    rewrite K5, length_app. destruct (parent s0) as [|? [|? [|]]]; try discriminate H4.
    reflexivity. }
  apply Hinv; [reflexivity | exact Hr | exact Hs | cbn; rewrite Hp; reflexivity].
Qed.

Lemma stop_then_start_doubles_the_ticks_witness :
  let s := exec (start 60) (dashboard_face None 0 0.5) in
  let s2 := exec (start 60) (exec stop s) in
  List.length (parent (fire_all [(1, 0.5); (1.06, 0.5); (1.12, 0.5)] s2)) = 2%nat.
Proof.
  intros s s2.
  destruct (stop_then_start_doubles_the_ticks 60 0
              (exec (start 60) (dashboard_face None 0 0.5))) as (_ & _ & H).
  - reflexivity.
  - unfold blink_ready. cbn. discriminate.
  - reflexivity.
  - reflexivity.
  - apply H.
Defined.

(** X10. A fired tick that raises has left the scheduler and re-arms
    nothing.  When it was the only pending tick the animation is over: the
    display still says it is running, yet no tick is pending and firing
    changes nothing any more. *)
Theorem raising_tick_ends_the_animation (now u : R) (d : Z) (s : FaceDisplay) :
  running s = true ->
  blink_ready s ->
  tick_safe (pan_tilt s) = false ->
  parent s = [d] ->
  let s' := exec (fire now u) s in
  (exists e, result (fire now u) s = Raise e) /\
  running s' = true /\
  parent s' = [] /\
  forall ticks : list (R * R), fire_all ticks s' = s'.
Proof.
  intros Hrun Hr Hs Hp. cbn zeta. unfold exec, result.
  rewrite (fire_cons now u d [] s Hp).
  assert (Hr' : blink_ready (set_parent [] s)) by exact Hr.
  destruct (_loop_preserves now u _ Hr') as (_ & Hrun1 & _).
  destruct (_loop_outcome now u (set_parent [] s) Hrun Hr') as (_ & _ & _ & Hbad).
  destruct (Hbad Hs) as [He Hpa]. unfold exec, result in *.
  split; [exact He|]. split; [rewrite Hrun1; exact Hrun|]. split; [exact Hpa|].
  induction ticks as [|[now' u'] l IH]; [reflexivity|].
  unfold fire_all. cbn [fold_left]. unfold exec at 2.
  rewrite fire_empty by exact Hpa. exact IH.
Qed.

Lemma raising_tick_ends_the_animation_witness :
  let bad := {| angle_pan := Holds (PyStr "left"); angle_tilt := Holds (PyNum 90) |} in
  let s := exec (start 60) (dashboard_face (Some bad) 0 0.5) in
  parent (exec (fire 1 0.5) s) = [].
Proof.
  intros bad s.
  apply (raising_tick_ends_the_animation 1 0.5 0 s).
  - reflexivity.
  - unfold blink_ready. cbn. discriminate.
  - reflexivity.
  - reflexivity.
Defined.

(** ** The smoothing update *)

(** X11. [update_from_angles] raises before it draws when an argument is
    no number it can take: [TypeError] for [None] and for a value that is
    not a number, [OverflowError] for an int of [2^1024 - 2^970] or more
    in absolute value.  When the pan is the culprit the display is as it
    was; when the pan is a number and the tilt the culprit, the smoothed
    pan has moved already and stays moved, while the smoothed tilt and the
    canvas are as they were. *)
Theorem update_from_angles_raises (pan tilt : pyval) (s : FaceDisplay) :
  (to_float PyNone = Raise TypeError /\
   (forall str, to_float (PyStr str) = Raise TypeError) /\
   (forall z, (float_limit <= Z.abs z)%Z -> to_float (PyInt z) = Raise OverflowError) /\
   (forall z, (Z.abs z < float_limit)%Z -> to_float (PyInt z) = Return (IZR z)) /\
   (forall x, to_float (PyNum x) = Return x)) /\
  (forall e, to_float pan = Raise e ->
     update_from_angles pan tilt s = (Raise e, s)) /\
  (forall p e,
     to_float pan = Return p ->
     ordinary p ->
     ordinary (smooth_pan s) ->
     to_float tilt = Raise e ->
     update_from_angles pan tilt s
     = (Raise e,
        set_smooth_pan (smooth_pan s + (p - smooth_pan s) * smooth_factor s) s)).
Proof.
  split; [|split].
  - split; [reflexivity|]. split; [reflexivity|]. split; [|split; [|reflexivity]].
    + intros z Hz. unfold to_float.
      destruct (Z.ltb_spec (Z.abs z) float_limit); [lia | reflexivity].
    + intros z Hz. unfold to_float.
      destruct (Z.ltb_spec (Z.abs z) float_limit); [reflexivity | lia].
  - intros e He. apply update_from_angles_bad_pan. exact He.
  - intros p e Hp _ _ Ht. apply update_from_angles_bad_tilt; assumption.
Qed.

Lemma ordinary_small (x : R) : Rabs x <= 1000 -> ordinary x.
Proof.
  intros H. unfold ordinary. apply (Rle_trans _ 1000); [exact H|].
  replace 1000 with (10 ^ 3) by lra.
  apply Rle_pow; [lra | lia].
Qed.

Lemma update_from_angles_raises_witness :
  let s := dashboard_face None 0 0.5 in
  update_from_angles (PyInt 180) (PyInt (2 ^ 1030)) s
  = (Raise OverflowError,
     set_smooth_pan (smooth_pan s + (180 - smooth_pan s) * smooth_factor s) s).
Proof.
  intros s.
  destruct (update_from_angles_raises (PyInt 180) (PyInt (2 ^ 1030)) s) as (_ & _ & H).
  apply (H 180 OverflowError).
  - reflexivity.
  - apply ordinary_small. unfold Rabs. destruct Rcase_abs; lra.
  - apply ordinary_small. cbn. unfold Rabs. destruct Rcase_abs; lra.
  - vm_compute. reflexivity.
Defined.

(** X12. In the ordinary range of floats, the smoothing update moves each
    smoothed angle towards its target and never past it. *)
Theorem smoothing_never_overshoots (pan tilt : R) (s : FaceDisplay) :
  configured s ->
  ordinary pan ->
  ordinary tilt ->
  ordinary (smooth_pan s) ->
  ordinary (smooth_tilt s) ->
  let s' := exec (update_from_angles (PyNum pan) (PyNum tilt)) s in
  Rmin (smooth_pan s) pan <= smooth_pan s' <= Rmax (smooth_pan s) pan /\
  Rmin (smooth_tilt s) tilt <= smooth_tilt s' <= Rmax (smooth_tilt s) tilt /\
  Rabs (smooth_pan s' - pan) <= Rabs (smooth_pan s - pan) /\
  Rabs (smooth_tilt s' - tilt) <= Rabs (smooth_tilt s - tilt).
Proof.
  intros (_ & _ & _ & _ & Hf) _ _ _ _. cbn zeta.
  rewrite update_smooth_pan, update_smooth_tilt, Hf.
  repeat split; unfold Rabs; repeat destruct Rcase_abs; minmax.
Qed.

Lemma smoothing_never_overshoots_witness :
  let s := dashboard_face None 0 0.5 in
  let s' := exec (update_from_angles (PyNum 0) (PyNum 150)) s in
  Rmin (smooth_pan s) 0 <= smooth_pan s' <= Rmax (smooth_pan s) 0.
Proof.
  apply (smoothing_never_overshoots 0 150 (dashboard_face None 0 0.5)).
  - apply dashboard_face_configured.
  - apply ordinary_small. unfold Rabs. destruct Rcase_abs; lra.
  - apply ordinary_small. unfold Rabs. destruct Rcase_abs; lra.
  - apply ordinary_small. cbn. unfold Rabs. destruct Rcase_abs; lra.
  - apply ordinary_small. cbn. unfold Rabs. destruct Rcase_abs; lra.
Defined.

(** ** A tick with live angles *)

(** X13. On a running display whose angle source holds two numbers,
    floats or ints that convert to floats, all in the ordinary range, the
    tick returns, moves each smoothed angle by 0.18 of its distance to
    the number, puts both pupils at the offset of the new smoothed angles
    and schedules the next tick after [interval_ms]. *)
Theorem tick_with_live_angles (now u pan tilt : R) (vp vt : pyval) (s : FaceDisplay) :
  running s = true ->
  blink_ready s ->
  configured s ->
  pan_tilt s = Some {| angle_pan := Holds vp; angle_tilt := Holds vt |} ->
  to_float vp = Return pan ->
  to_float vt = Return tilt ->
  ordinary pan ->
  ordinary tilt ->
  ordinary (smooth_pan s) ->
  ordinary (smooth_tilt s) ->
  let s' := exec (_loop now u) s in
  let d := angle_to_offset s (smooth_pan s') (smooth_tilt s') in
  result (_loop now u) s = Return tt /\
  smooth_pan s' = smooth_pan s + (pan - smooth_pan s) * 0.18 /\
  smooth_tilt s' = smooth_tilt s + (tilt - smooth_tilt s) * 0.18 /\
  canvas s' left_pupil = pupil_coords (left_center s) (pupil_radius s) (fst d) (snd d) /\
  canvas s' right_pupil = pupil_coords (right_center s) (pupil_radius s) (fst d) (snd d) /\
  parent s' = after (interval_ms s) (parent s).
Proof.
  intros Hrun Hr Hc Hpt Hvp Hvt _ _ _ _. cbn zeta. unfold exec, result.
  rewrite (_loop_stages now u s Hrun).
  destruct (blink_stage_returns now u s Hr) as (s1 & H1 & Hv & _).
  rewrite (exec_bind _ _ _ _ _ H1).
  unfold pupil_view in Hv.
  injection Hv as Hpt1 Hlc Hrc Hpr _ Hsp Hst Hsf Hpm HpM Htm HtM HT Him Hpa _ _.
  rewrite <- Hpt1 in Hpt. unfold bind.
  rewrite (pupils_stage_values now pan tilt vp vt s1 Hpt Hvp Hvt),
    update_from_angles_run, rearm_run.
  destruct Hc as (_ & _ & _ & _ & Hf). cbn.
  rewrite Hlc, Hrc, Hpr, Hsp, Hst, Hsf, Hpm, HpM, Htm, HtM, HT, Him, Hpa, Hf.
  repeat split.
Qed.

Lemma tick_with_live_angles_witness :
  let live := {| angle_pan := Holds (PyInt 0); angle_tilt := Holds (PyNum 90) |} in
  let s := exec (start 60) (dashboard_face (Some live) 0 0.5) in
  smooth_pan (exec (_loop 1 0.5) s) = smooth_pan s + (0 - smooth_pan s) * 0.18.
Proof.
  intros live s.
  apply (tick_with_live_angles 1 0.5 0 90 (PyInt 0) (PyNum 90) s).
  - reflexivity.
  - unfold blink_ready. cbn. discriminate.
  - apply (dashboard_face_configured (Some live) 0 0.5).
  - reflexivity.
  - reflexivity.
  - reflexivity.
  - apply ordinary_small. unfold Rabs. destruct Rcase_abs; lra.
  - apply ordinary_small. unfold Rabs. destruct Rcase_abs; lra.
  - apply ordinary_small. cbn. unfold Rabs. destruct Rcase_abs; lra.
  - apply ordinary_small. cbn. unfold Rabs. destruct Rcase_abs; lra.
Defined.

(** ** What a tick leaves alone *)

Lemma _loop_pan_tilt (now u : R) (s : FaceDisplay) :
  blink_ready s ->
  pan_tilt (exec (_loop now u) s) = pan_tilt s /\
  interval_ms (exec (_loop now u) s) = interval_ms s.
Proof.
  intros Hr. destruct (running s) eqn:Hrun.
  - destruct (_loop_outcome now u s Hrun Hr) as (H1 & H2 & _). split; assumption.
  - unfold exec. rewrite (_loop_stopped now u s Hrun). split; reflexivity.
Qed.

(** X14. A tick, whether it returns or raises, changes neither the running
    flag nor the tick interval nor the angle source, and nothing of what
    [__init__] computed from the size of the display: radii, centres,
    mapping ranges, travel, smoothing factor and the two whites. *)
Theorem tick_keeps_settings (now u : R) (s : FaceDisplay) :
  blink_ready s ->
  let s' := exec (_loop now u) s in
  running s' = running s /\
  interval_ms s' = interval_ms s /\
  pan_tilt s' = pan_tilt s /\
  fixed_view s' = fixed_view s.
Proof.
  intros Hr. cbn zeta.
  destruct (_loop_preserves now u s Hr) as (_ & H1 & H2).
  destruct (_loop_pan_tilt now u s Hr) as (H3 & H4).
  repeat split; assumption.
Qed.

Lemma tick_keeps_settings_witness :
  let bad := {| angle_pan := Raises; angle_tilt := Absent |} in
  let s := exec (start 60) (dashboard_face (Some bad) 0 0.5) in
  interval_ms (exec (_loop 7 0.5) s) = interval_ms s.
Proof.
  intros bad s. apply (tick_keeps_settings 7 0.5 s).
  unfold blink_ready. cbn. discriminate.
Defined.

(** ** The lids *)

(** X15. For a progress between 0 and 1, on a display with the geometry
    of its size, [_draw_blink] draws each lid over the white of its eye:
    as wide as the white, from its top edge down and not below its bottom
    edge, to a height that is [2 * eye_radius * progress] pixels rounded
    down. *)
Theorem lids_cover_the_whites_from_the_top (progress : R) (s : FaceDisplay) :
  built s ->
  0 <= eye_radius s ->
  0 <= progress <= 1 ->
  let s' := exec (_draw_blink progress) s in
  let h := 2 * eye_radius s * progress in
  lid_over (canvas s' left_lid) (canvas s' left_white) h /\
  lid_over (canvas s' right_lid) (canvas s' right_white) h.
Proof.
  intros Hb Her Hp. cbn zeta.
  destruct (built_geometry s Hb) as (Hlw & Hrw & _).
  unfold exec. rewrite _draw_blink_run.
  assert (H0 : 0 <= eye_radius s * 2 * progress) by nra.
  pose proof (py_int_le _ H0) as H1. pose proof (py_int_gt _ H0) as H2.
  assert (H4 : eye_radius s * 2 * progress <= 2 * eye_radius s) by nra.
  cbn. rewrite Hlw, Hrw. unfold lid_coords, lid_over. repeat split; lra.
Qed.

Lemma lids_cover_the_whites_from_the_top_witness :
  let s := dashboard_face None 0 0.5 in
  let s' := exec (_draw_blink 0.75) s in
  lid_over (canvas s' left_lid) (canvas s' left_white) (2 * eye_radius s * 0.75).
Proof.
  apply (lids_cover_the_whites_from_the_top 0.75 (dashboard_face None 0 0.5)).
  - exists [], 640%Z, 320%Z, None, 0, 0.5. reflexivity.
  - rewrite dashboard_face_eye_radius. lra.
  - lra.
Defined.

(** X16. The lids and the pupils are drawn independently: drawing the
    blink and moving the pupils give the same canvas in either order, and
    clearing the blink leaves the pupils where they are. *)
Theorem lids_and_pupils_are_independent (progress dx dy : R) (s : FaceDisplay) :
  forall it : item,
    canvas (exec (_draw_blink progress) (exec (_apply_offsets dx dy) s)) it
    = canvas (exec (_apply_offsets dx dy) (exec (_draw_blink progress) s)) it /\
    canvas (exec _clear_blink (exec (_apply_offsets dx dy) s)) it
    = canvas (exec (_apply_offsets dx dy) (exec _clear_blink s)) it.
Proof.
  intros it. unfold exec.
  repeat first [ rewrite _draw_blink_run | rewrite _apply_offsets_run
               | rewrite _clear_blink_run | progress cbn [snd] ].
  destruct it; split; reflexivity.
Qed.

(** ** The face of the dashboard keeps ticking *)

Lemma fire_fixed_view (now u : R) (s : FaceDisplay) :
  blink_ready s -> fixed_view (exec (fire now u) s) = fixed_view s.
Proof.
  intros Hr. destruct (fire_unfold now u s) as [-> | (rest & ->)]; [reflexivity|].
  assert (Hr' : blink_ready (set_parent rest s)) by exact Hr.
  apply (_loop_preserves now u _ Hr').
Qed.

Lemma play_keeps_one_chain (events : list event) (s : FaceDisplay) :
  Forall safe_event events ->
  reachable s ->
  running s = true ->
  tick_safe (pan_tilt s) = true ->
  List.length (parent s) = 1%nat ->
  let s' := play events s in
  reachable s' /\ running s' = true /\ tick_safe (pan_tilt s') = true /\
  List.length (parent s') = 1%nat /\ interval_ms s' = interval_ms s /\
  fixed_view s' = fixed_view s.
Proof.
  revert s. induction events as [|e l IH]; intros s He H0 H1 H3 H4.
  - cbn. repeat split; assumption.
  - inversion He as [|? ? He1 Hl]; subst.
    unfold play. cbn [fold_left]. destruct e as [now u | pt].
    + assert (Hne : parent s <> []) by (intros E0; rewrite E0 in H4; discriminate).
      destruct (reachable_invariant s H0) as (_ & H2 & _).
      destruct (fire_keeps_chains now u s H1 H2 H3 Hne) as (K1 & K2 & K3 & K4 & K5).
      fold (play l (exec (fire now u) s)).
      destruct (IH (exec (fire now u) s) Hl) as (J0 & J1 & J3 & J4 & J5 & J6).
      * apply reach_fire; assumption.
      * exact K1.
      * rewrite K3. exact H3.
      * rewrite K5, length_app. destruct (parent s) as [|? [|]]; try discriminate H4.
        reflexivity.
      * rewrite J5, J6, K4, (fire_fixed_view now u s H2). repeat split; assumption.
    + fold (play l (set_pan_tilt pt s)).
      apply (IH (set_pan_tilt pt s) Hl); [apply reach_source | | | ]; assumption.
Qed.

Lemma fire_pupils_in_whites (now u : R) (s : FaceDisplay) :
  built s ->
  blink_ready s ->
  0 <= pupil_travel s ->
  pupils_in_whites s 3 ->
  pupils_in_whites (exec (fire now u) s) 3.
Proof.
  intros Hb Hr HT Hin.
  destruct (fire_unfold now u s) as [-> | (rest & ->)]; [exact Hin|].
  apply _loop_pupils_in_whites; [| exact Hr | exact HT | exact Hin].
  destruct Hb as (tk & w & h & pt & n0 & u0 & E).
  exists tk, w, h, pt, n0, u0. exact E.
Qed.

Lemma play_pupils_in_whites (events : list event) (s : FaceDisplay) :
  Forall safe_event events ->
  reachable s ->
  0 <= pupil_travel s ->
  pupils_in_whites s 3 ->
  pupils_in_whites (play events s) 3.
Proof.
  revert s. induction events as [|e l IH]; intros s He Hs HT Hin; [exact Hin|].
  inversion He as [|? ? He1 Hl]; subst.
  unfold play. cbn [fold_left]. destruct e as [now u | pt].
  - fold (play l (exec (fire now u) s)).
    destruct (reachable_invariant s Hs) as (_ & Hr & _).
    apply (IH _ Hl).
    + apply reach_fire; assumption.
    + pose proof (fire_fixed_view now u s Hr) as Hf. unfold fixed_view in Hf.
      injection Hf as _ _ _ _ _ _ _ _ _ _ -> _ _ _ _ _ _. exact HT.
    + apply fire_pupils_in_whites; [apply reachable_built | | | ]; assumption.
  - fold (play l (set_pan_tilt pt s)).
    apply (IH _ Hl); [apply reach_source | | ]; assumption.
Qed.

(** X17. The dashboard starts its face with one tick pending and the
    interval 60.  From then on, as long as every angle source it is given
    lets a tick return (no hardware at all is such a source), whatever
    ticks fire, the face stays running with exactly one tick pending, at
    the interval 60, and its pupils stay inside the whites. *)
Theorem dashboard_face_keeps_ticking (hw : option (option PanTilt)) (now u : R)
    (face : FaceDisplay) (events : list event) :
  0 <= u < 1 ->
  Dashboard_init_face hw true now u = Some face ->
  tick_safe (pan_tilt face) = true ->
  Forall safe_event events ->
  (running face = true /\ parent face = [0%Z] /\ interval_ms face = 60%Z) /\
  let s := play events face in
  running s = true /\ List.length (parent s) = 1%nat /\ interval_ms s = 60%Z /\
  pupils_in_whites s 3.
Proof.
  intros Hu Hf Hs He. unfold Dashboard_init_face in Hf. injection Hf as <-.
  set (pt := match hw with Some (Some o) => Some o | Some None => None | None => None end)
    in *.
  split; [repeat split|].
  assert (Hreach : reachable (exec (start 60) (__init__ [] 640 320 pt now u)))
    by (apply reach_start, reach_init; exact Hu).
  destruct (play_keeps_one_chain events _ He Hreach eq_refl Hs eq_refl)
    as (K0 & K1 & _ & K4 & K5 & K6).
  cbn zeta. split; [exact K1|]. split; [exact K4|]. split; [exact K5|].
  assert (HT : 0 <= pupil_travel (exec (start 60) (__init__ [] 640 320 pt now u))).
  { change (0 <= pupil_travel (dashboard_face pt now u)).
    rewrite dashboard_face_travel. lra. }
  apply (play_pupils_in_whites events _ He Hreach HT).
  apply (init_pupils_in_whites [] 640 320 pt now u). exact HT.
Qed.

Lemma dashboard_face_keeps_ticking_witness :
  let live := {| angle_pan := Holds (PyNum 45); angle_tilt := Holds (PyNum 100) |} in
  let face := exec (start 60) (__init__ [] 640 320 None 0 0.5) in
  let s := play [Fire 1 0.5; Source (Some live); Fire 1.06 0.5; Source None; Fire 1.12 0.5]
             face in
  running s = true /\ List.length (parent s) = 1%nat /\ interval_ms s = 60%Z /\
  pupils_in_whites s 3.
Proof.
  intros live face s.
  apply (dashboard_face_keeps_ticking (Some None) 0 0.5 face).
  - lra.
  - reflexivity.
  - reflexivity.
  - repeat constructor; cbn; lra.
Defined.

(** * Properties of the wake log and of the alerts *)

(** ** The configuration file *)



(** ** Alerts *)




(** ** The wake log *)

Lemma execute_run {A : Type} (statement : table -> A * table) (t : table) (w : World) :
  wake_events w = Some t ->
  execute statement w
  = (Done (fst (statement t)), set_wake_events (Some (snd (statement t))) w).
Proof.
  intros H. unfold execute, io_bind, io_world. rewrite H.
  destruct (statement t) as [a t']. reflexivity.
Qed.

Lemma execute_no_table {A : Type} (statement : table -> A * table) (w : World) :
  wake_events w = None ->
  execute statement w
  = (Failed (Error "OperationalError" "no such table: wake_events"), w).
Proof. intros H. unfold execute, io_bind, io_world. rewrite H. reflexivity. Qed.

Lemma load_config_frame (w : World) :
  exists doc w1,
    load_config w = (Done doc, w1) /\
    wake_events w1 = wake_events w /\ log_list w1 = log_list w /\
    boxes w1 = boxes w.
Proof.
  unfold load_config, io_bind, io_world.
  destruct (config_json w) as [[|doc]|]; eexists _, _; repeat split; reflexivity.
Qed.

Lemma send_telegram_alert_frame (msg : string) (w : World) :
  wake_events (io_exec (send_telegram_alert msg) w) = wake_events w /\
  log_list (io_exec (send_telegram_alert msg) w) = log_list w /\
  boxes (io_exec (send_telegram_alert msg) w) = boxes w.
Proof.
  destruct (load_config_frame w) as (doc & w1 & E & <- & <- & <-).
  unfold io_exec, send_telegram_alert, io_bind. rewrite E.
  destruct doc as [cfg|tn]; [|repeat split; reflexivity]. cbn [get io_ret].
  match goal with
  | |- context [if ?c then _ else _] => destruct c
  end; [repeat split; reflexivity|].
  unfold io_try, requests_post, io_bind, io_world.
  destruct (network w1); repeat split; reflexivity.
Qed.

Lemma log_wake_event_table (phrase ts : string) (matched : bool) (t : table) (w : World) :
  wake_events w = Some t ->
  wake_events (io_exec (log_wake_event phrase matched ts) w)
  = Some (snd (insert_row ts phrase (if matched then 1 else 0) t)).
Proof.
  intros Ht. unfold io_exec, log_wake_event, io_bind.
  rewrite (execute_run _ t w Ht). cbn [fst snd insert_row].
  destruct matched; cbn [negb]; [reflexivity|].
  match goal with
  | |- wake_events (snd (send_telegram_alert ?m ?w1)) = _ =>
      destruct (send_telegram_alert_frame m w1) as [H _]; unfold io_exec in H;
      rewrite H
  end.
  reflexivity.
Qed.

(** X20. When the table exists, [log_wake_event] stores the event under a
    fresh id, with the flag 1 for a match and 0 otherwise, in every case:
    the row is there also when the alert that follows cannot be sent or
    raises.  An event that matched makes no alert: nothing is posted or
    printed and the configuration file is not read. *)
Theorem log_wake_event_stores_the_event (phrase ts : string) (matched : bool)
    (t : table) (w : World) :
  wake_events w = Some t ->
  let w' := io_exec (log_wake_event phrase matched ts) w in
  wake_events w'
  = Some {| rows := rows t ++ [{| row_id := last_id t + 1; row_timestamp := ts;
                                  row_phrase := phrase;
                                  row_matched := if matched then 1 else 0 |}];
            last_id := last_id t + 1 |} /\
  (matched = true ->
   io_result (log_wake_event phrase matched ts) w = Done tt /\
   posted w' = posted w /\ printed w' = printed w /\ config_json w' = config_json w).
Proof.
  intros Ht. cbn zeta. unfold io_exec, io_result, log_wake_event, io_bind.
  rewrite (execute_run _ t w Ht). cbn [fst snd insert_row].
  destruct matched; cbn [negb].
  - split; [reflexivity|]. intros _. repeat split.
  - split; [|discriminate].
    match goal with
    | |- wake_events (snd (send_telegram_alert ?m ?w1)) = _ =>
        destruct (send_telegram_alert_frame m w1) as [H _]; unfold io_exec in H;
        rewrite H
    end.
    reflexivity.
Qed.

Lemma log_wake_event_stores_the_event_witness :
  let w := {| config_json := Some (Parsed (NotObj "list")); network := None;
              wake_events := Some {| rows := []; last_id := 7 |};
              posted := []; printed := []; log_list := []; boxes := [] |} in
  wake_events (io_exec (log_wake_event "jarvis" false "2024-01-01 10:00:00") w)
  = Some {| rows := [{| row_id := 8; row_timestamp := "2024-01-01 10:00:00";
                        row_phrase := "jarvis"; row_matched := 0 |}];
            last_id := 8 |}.
Proof.
  intros w.
  apply (log_wake_event_stores_the_event "jarvis" "2024-01-01 10:00:00" false
           {| rows := []; last_id := 7 |} w).
  reflexivity.
Defined.

(** X21. Without the table [log_wake_event] raises the error of SQLite
    before anything else: the world is as it was, no alert is sent, also
    for an event that did not match. *)
Theorem log_wake_event_without_table (phrase ts : string) (matched : bool) (w : World) :
  wake_events w = None ->
  log_wake_event phrase matched ts w
  = (Failed (Error "OperationalError" "no such table: wake_events"), w).
Proof.
  intros H. unfold log_wake_event, io_bind. rewrite (execute_no_table _ w H).
  reflexivity.
Qed.

Lemma log_wake_event_without_table_witness :
  let w := {| config_json := None; wake_events := None; network := None;
              posted := []; printed := []; log_list := []; boxes := [] |} in
  io_exec (log_wake_event "jarvis" false "2024-01-01 10:00:00") w = w.
Proof.
  intros w. unfold io_exec.
  rewrite (log_wake_event_without_table "jarvis" "2024-01-01 10:00:00" false w);
    reflexivity.
Defined.

(** ** The list of the wake log *)

Lemma insert_by_id_last (r : wake_row) (l : list wake_row) :
  (forall x, In x l -> (row_id r < row_id x)%Z) ->
  insert_by_id r l = l ++ [r].
Proof.
  induction l as [|x l IH]; intros H; [reflexivity|].
  cbn [insert_by_id]. destruct (Z.leb_spec (row_id x) (row_id r)) as [Hle|_].
  - specialize (H x (or_introl eq_refl)). lia.
  - rewrite IH; [reflexivity|]. intros y Hy. apply H. right. exact Hy.
Qed.

(** With ids that grow, the newest row comes first. *)
Lemma order_by_id_desc_rev (bound : Z) (l : list wake_row) :
  ids_increasing bound l -> order_by_id_desc l = rev l.
Proof.
  induction l as [|r l IH]; intros H; [reflexivity|].
  destruct H as (_ & Hlt & Hl). unfold order_by_id_desc in *. cbn [fold_right rev].
  rewrite (IH Hl). apply insert_by_id_last.
  intros x Hx. apply Hlt. apply in_rev. exact Hx.
Qed.

Lemma ids_increasing_weaken (b b' : Z) (l : list wake_row) :
  (b <= b')%Z -> ids_increasing b l -> ids_increasing b' l.
Proof.
  intros Hb. induction l as [|r l IH]; [exact (fun H => H)|].
  intros (H1 & H2 & H3). split; [lia|]. split; [exact H2 | exact (IH H3)].
Qed.

Lemma ids_increasing_bound (b : Z) (l : list wake_row) (x : wake_row) :
  ids_increasing b l -> In x l -> (row_id x <= b)%Z.
Proof.
  induction l as [|r l IH]; intros H Hx; [destruct Hx|].
  destruct H as (H1 & _ & H3). destruct Hx as [<- | Hx]; [exact H1 | exact (IH H3 Hx)].
Qed.

(** The statements of the dashboard keep the ids growing. *)
Lemma insert_row_ok (ts phrase : string) (matched : Z) (t : table) :
  table_ok t -> table_ok (snd (insert_row ts phrase matched t)).
Proof.
  unfold table_ok, insert_row. cbn [snd rows last_id].
  generalize (last_id t) as b. induction (rows t) as [|r l IH]; intros b H.
  - cbn. repeat split; [lia | intros x []].
  - destruct H as (H1 & H2 & H3). cbn [app ids_increasing]. split; [lia|]. split.
    + intros x Hx. apply in_app_or in Hx. destruct Hx as [Hx | [<- | []]].
      * apply H2. exact Hx.
      * cbn. lia.
    + apply IH. exact H3.
Qed.

Lemma load_wake_logs_frame (w : World) :
  io_result load_wake_logs w = Done tt /\
  wake_events (io_exec load_wake_logs w) = wake_events w /\
  boxes (io_exec load_wake_logs w) = boxes w.
Proof.
  unfold io_exec, io_result, load_wake_logs, io_bind at 1 3 5, io_update.
  cbn [fst snd]. unfold io_try, io_bind.
  destruct (wake_events w) as [t|] eqn:Ht.
  - rewrite (execute_run select_recent t (set_log_list [] w)) by exact Ht.
    cbn -[firstn order_by_id_desc format_row]. destruct t. repeat split.
  - rewrite (execute_no_table select_recent (set_log_list [] w)) by exact Ht.
    cbn. repeat split. exact Ht.
Qed.

(** X22. [load_wake_logs] replaces the lines of the list box.  With a
    table whose ids grow with the rows, the lines are the rows from the
    newest back, at most 100 of them, each tagged MATCH or TRY; without
    the table the list is the one line of the database error.  It never
    raises and never changes the table. *)
Theorem load_wake_logs_lists_newest_first (w : World) :
  let w' := io_exec load_wake_logs w in
  io_result load_wake_logs w = Done tt /\
  wake_events w' = wake_events w /\
  (forall t, wake_events w = Some t -> table_ok t ->
     log_list w'
     = map (fun r => format_row (row_timestamp r, row_phrase r, row_matched r))
         (firstn 100 (rev (rows t))) /\
     (List.length (log_list w') <= 100)%nat) /\
  (wake_events w = None ->
     log_list w' = ["DB Error: no such table: wake_events"%string]).
Proof.
  cbn zeta. unfold io_exec, io_result, load_wake_logs, io_bind at 1 3 5 7, io_update.
  cbn [fst snd]. unfold io_try, io_bind.
  destruct (wake_events w) as [t|] eqn:Ht.
  - rewrite (execute_run select_recent t (set_log_list [] w)) by exact Ht.
    cbn -[firstn order_by_id_desc format_row]. split; [reflexivity|]. split.
    + destruct t. reflexivity.
    + split; [|discriminate]. intros t' E Hok. injection E as <-.
      rewrite (order_by_id_desc_rev _ _ Hok), map_map. split; [reflexivity|].
      rewrite length_map, length_firstn. lia.
  - rewrite (execute_no_table select_recent (set_log_list [] w)) by exact Ht.
    cbn. split; [reflexivity|]. split; [exact Ht|]. split; [discriminate|].
    reflexivity.
Qed.

Lemma load_wake_logs_lists_newest_first_witness :
  let r1 := {| row_id := 1; row_timestamp := "t1"; row_phrase := "jarvis"; row_matched := 1 |} in
  let r2 := {| row_id := 2; row_timestamp := "t2"; row_phrase := "travis"; row_matched := 0 |} in
  let w := {| config_json := None; network := None;
              wake_events := Some {| rows := [r1; r2]; last_id := 2 |};
              posted := []; printed := []; log_list := ["old"%string]; boxes := [] |} in
  log_list (io_exec load_wake_logs w)
  = map (fun r => format_row (row_timestamp r, row_phrase r, row_matched r))
      (firstn 100 (rev [r1; r2])).
Proof.
  intros r1 r2 w.
  destruct (load_wake_logs_lists_newest_first w) as (_ & _ & H & _).
  apply (H {| rows := [r1; r2]; last_id := 2 |}); [reflexivity|].
  unfold table_ok. cbn. repeat split; try lia.
  intros x [<- | []]. cbn. lia.
Defined.

Lemma load_wake_logs_table (t : table) (w : World) :
  wake_events w = Some t ->
  table_ok t ->
  log_list (io_exec load_wake_logs w)
  = map (fun r => format_row (row_timestamp r, row_phrase r, row_matched r))
      (firstn 100 (rev (rows t))).
Proof.
  intros Ht Hok. unfold io_exec, load_wake_logs, io_bind at 1, io_update.
  unfold io_try, io_bind.
  rewrite (execute_run select_recent t (set_log_list [] w)) by exact Ht.
  cbn -[firstn order_by_id_desc format_row].
  rewrite (order_by_id_desc_rev _ _ Hok), map_map. reflexivity.
Qed.

(** X23. An event that was just logged heads the list of the wake log,
    with its time, its phrase and its tag, whether or not its alert could
    be sent. *)
Theorem logged_event_heads_the_list (phrase ts : string) (matched : bool)
    (t : table) (w : World) :
  wake_events w = Some t ->
  table_ok t ->
  let w' := io_exec load_wake_logs (io_exec (log_wake_event phrase matched ts) w) in
  hd_error (log_list w')
  = Some ("[" ++ ts ++ "] (" ++ (if matched then "MATCH" else "TRY") ++ ") " ++ phrase)%string.
Proof.
  intros Ht Hok. cbn zeta.
  pose proof (log_wake_event_table phrase ts matched t w Ht) as Ht'.
  rewrite (load_wake_logs_table _ _ Ht' (insert_row_ok ts phrase _ t Hok)).
  cbn [insert_row snd rows]. rewrite rev_app_distr.
  cbn -[format_row]. destruct matched; reflexivity.
Qed.

Lemma logged_event_heads_the_list_witness :
  let old := {| row_id := 3; row_timestamp := "t3"; row_phrase := "jarvis"; row_matched := 1 |} in
  let w := {| config_json := None; network := None;
              wake_events := Some {| rows := [old]; last_id := 3 |};
              posted := []; printed := []; log_list := []; boxes := [] |} in
  hd_error (log_list (io_exec load_wake_logs (io_exec (log_wake_event "travis" false "t4") w)))
  = Some "[t4] (TRY) travis"%string.
Proof.
  intros old w.
  apply (logged_event_heads_the_list "travis" "t4" false {| rows := [old]; last_id := 3 |} w).
  - reflexivity.
  - unfold table_ok. cbn. repeat split; try lia.
Defined.

(** X24. [clear_wake_logs] does nothing when the user declines.  When the
    user confirms and the table exists, the table and the list box are
    empty afterwards, and the ids go on from where they were: the next
    event gets an id that no deleted row had.  Without the table it shows
    the error in a message box and leaves the list box alone. *)
Theorem clear_wake_logs_empties_the_log (w : World) :
  clear_wake_logs false w = (Done tt, w) /\
  (forall t, wake_events w = Some t ->
     let w' := io_exec (clear_wake_logs true) w in
     io_result (clear_wake_logs true) w = Done tt /\
     wake_events w' = Some {| rows := []; last_id := last_id t |} /\
     log_list w' = [] /\ boxes w' = boxes w /\
     forall phrase ts matched,
       wake_events (io_exec (log_wake_event phrase matched ts) w')
       = Some {| rows := [{| row_id := last_id t + 1; row_timestamp := ts;
                             row_phrase := phrase;
                             row_matched := if matched then 1 else 0 |}];
                 last_id := last_id t + 1 |}) /\
  (wake_events w = None ->
     let w' := io_exec (clear_wake_logs true) w in
     io_result (clear_wake_logs true) w = Done tt /\
     log_list w' = log_list w /\
     boxes w' = boxes w ++ [("showerror", "Error", "no such table: wake_events")%string]).
Proof.
  split; [reflexivity|]. split.
  - intros t Ht. cbn zeta.
    assert (E : clear_wake_logs true w
                = load_wake_logs (set_wake_events (Some (snd (delete_all t))) w)).
    { unfold clear_wake_logs. cbn [negb]. unfold io_try, io_bind at 1.
      rewrite (execute_run delete_all t w Ht). cbn [fst snd].
      destruct (load_wake_logs _) as [[[]|e] w1] eqn:E1; [reflexivity|].
      destruct (load_wake_logs_frame
                  (set_wake_events (Some (snd (delete_all t))) w)) as [H _].
      unfold io_result in H. rewrite E1 in H. discriminate H. }
    unfold io_exec, io_result. rewrite E.
    set (w1 := set_wake_events (Some (snd (delete_all t))) w).
    assert (Ht1 : wake_events w1 = Some {| rows := []; last_id := last_id t |})
      by reflexivity.
    destruct (load_wake_logs_frame w1) as (Hres & Hev & Hbx).
    unfold io_exec, io_result in *.
    split; [exact Hres|]. split; [rewrite Hev; exact Ht1|].
    split; [exact (load_wake_logs_table _ w1 Ht1 I)|]. split; [exact Hbx|].
    intros phrase ts matched.
    apply (log_wake_event_table phrase ts matched {| rows := []; last_id := last_id t |}).
    rewrite Hev. exact Ht1.
  - intros Hn. cbn zeta. unfold io_exec, io_result, clear_wake_logs. cbn [negb].
    unfold io_try, io_bind at 1 2 3. rewrite (execute_no_table delete_all w Hn).
    cbn. repeat split.
Qed.

Lemma clear_wake_logs_empties_the_log_witness :
  let old := {| row_id := 3; row_timestamp := "t3"; row_phrase := "jarvis"; row_matched := 1 |} in
  let w := {| config_json := None; network := None;
              wake_events := Some {| rows := [old]; last_id := 3 |};
              posted := []; printed := []; log_list := ["[t3] (MATCH) jarvis"%string];
              boxes := [] |} in
  log_list (io_exec (clear_wake_logs true) w) = [].
Proof.
  intros old w.
  destruct (clear_wake_logs_empties_the_log w) as (_ & H & _).
  apply (H {| rows := [old]; last_id := 3 |}). reflexivity.
Defined.

(** ** Creating the table *)


